(** * khmer: the Python binding layer [khmer/_khmermodule.cc]

    A shallow embedding of the binding boundary of khmer's extension module:
    the read and read-pair iteration protocol, the reporting callback
    [_report_fn], the capsule handles of the partitioning code, the
    reference counting between [ReadPairIterator] and [ReadParser], and the
    [LabelHash] wrapper object.

    Conventions of the embedding.
    - A C function returning [PyObject *] returns a [pyresult]: either the
      object, or [NULL] together with the exception that was set (if any).
    - A function that dereferences pointers returns an [option]; [None]
      stands for undefined behaviour (a null or dangling pointer was
      dereferenced).
    - C++ exceptions are values of [cpp_exception], threaded by hand.
    - Fixed-width C integers are [Z] with the wrap-around written out.
    - An allocation can fail only where the source tests its result; the
      other allocations are taken to succeed.
    - Releasing and re-acquiring the interpreter lock
      ([Py_BEGIN_ALLOW_THREADS] / [Py_END_ALLOW_THREADS]) is left out where
      the code in between makes no call into the host. Where it does,
      the call is undefined: see [hashbits_do_subset_partition]. *)

From stdpp Require Import gmap strings list.
From Stdlib Require Import ZArith Lia.

Open Scope Z_scope.
Set Warnings "-register-all".

(* ================================================================== *)
(** * Part I: the model                                                *)
(* ================================================================== *)

(** ** Host exceptions and results *)

Inductive PyExc :=
  | PyExc_IOError
  | PyExc_ValueError
  | PyExc_TypeError
  | PyExc_OverflowError
  | PyExc_MemoryError
  | PyExc_KeyboardInterrupt
  | PyExc_Exception.

(** An exception as the host sees it: its class and its message. *)
Definition PyErr : Type := PyExc * string.

Inductive pyresult (A : Type) :=
  | PyReturn (a : A)
  | PyNULL (exc : option PyErr).
Arguments PyReturn {A} a.
Arguments PyNULL {A} exc.

(** What the host's iteration protocol makes of a [tp_iternext] result:
    [NULL] with no exception set is the normal end of the iteration. *)
Inductive pull_outcome (A : Type) :=
  | Yields (a : A)
  | Ends
  | Fails (e : PyErr).
Arguments Yields {A} a.
Arguments Ends {A}.
Arguments Fails {A} e.

Definition iternext_outcome {A} (r : pyresult A) : pull_outcome A :=
  match r with
  | PyReturn a => Yields a
  | PyNULL None => Ends
  | PyNULL (Some e) => Fails e
  end.

(** ** Addresses and host objects passed as arguments *)

Abbreviation addr := nat (only parsing).

Inductive capsule_destructor :=
  | free_pre_partition_info
  | free_subset_partition_info.

Inductive PyObject :=
  | Py_None
  | PyInt (v : Z)
  | PyLong (v : Z)
  | PyFloat (as_ull : Z)
      (* a float, given by the value its C cast to [unsigned long long]
         yields; floating-point arithmetic is not modelled *)
  | PyBytes (s : string)
  | PyList (items : list PyObject)
  | PyFunction (id : nat) (body : string → Z → Z → option PyErr)
      (* a callable: [body info n_reads other] is [Some e] when the call
         raises [e] *)
  | PyCapsule (pointer : option addr) (name : string)
              (destructor : capsule_destructor)
  | PyInstance (id : nat).
      (* any other object *)

Definition INT_MIN : Z := - 2 ^ 31.
Definition INT_MAX : Z := 2 ^ 31 - 1.
Definition UINT_MAX : Z := 2 ^ 32 - 1.
Definition ULLONG_MAX : Z := 2 ^ 64 - 1.

Definition bad_arguments : PyErr :=
  (PyExc_TypeError, "function arguments do not match the format").

(** The text of the host's [OverflowError] for the format unit [i]: the
    value is first taken as a C [long], then compared with the bounds of
    [int]. *)
Definition overflow_message_i (v : Z) : string :=
  if bool_decide (- 2 ^ 63 ≤ v ≤ 2 ^ 63 - 1)
  then if bool_decide (INT_MAX < v)
       then "signed integer is greater than maximum"
       else "signed integer is less than minimum"
  else "Python int too large to convert to C long".

(** Format unit [i]: a C [int]. *)
Definition convert_i (o : PyObject) : PyErr + Z :=
  match o with
  | PyInt v | PyLong v =>
      if bool_decide (INT_MIN ≤ v ≤ INT_MAX) then inr v
      else inl (PyExc_OverflowError, overflow_message_i v)
  | PyFloat _ =>
      inl (PyExc_TypeError, "integer argument expected, got float")
  | _ => inl (PyExc_TypeError, "an integer is required")
  end.

(** [PyArg_ParseTuple(args, "|i", &x)]: [x] keeps its initial value when
    the argument is absent. *)
Definition PyArg_ParseTuple_opt_i (args : list PyObject) (x : Z) : PyErr + Z :=
  match args with
  | [] => inr x
  | [o] => convert_i o
  | _ => inl bad_arguments
  end.

(** [PyArg_ParseTuple(args, "s|O", &s, &o)]: [o] stays [NULL] when absent. *)
Definition PyArg_ParseTuple_s_opt_O (args : list PyObject)
  : PyErr + (string * option PyObject) :=
  match args with
  | [PyBytes s] => inr (s, None)
  | [PyBytes s; o] => inr (s, Some o)
  | _ => inl bad_arguments
  end.

(** [PyArg_ParseTuple(args, "O", &o)]. *)
Definition PyArg_ParseTuple_O (args : list PyObject) : PyErr + PyObject :=
  match args with
  | [o] => inr o
  | _ => inl bad_arguments
  end.

(** [PyArg_ParseTuple(args, "Os", &o, &s)]. *)
Definition PyArg_ParseTuple_Os (args : list PyObject)
  : PyErr + (PyObject * string) :=
  match args with
  | [o; PyBytes s] => inr (o, s)
  | _ => inl bad_arguments
  end.

(** [PyArg_ParseTuple(args, "s", &s)]. The byte strings passed for the
    format unit [s], here and in the other formats, are taken to be C
    strings: one with a NUL inside, which the host refuses for this unit,
    is not told apart. *)
Definition PyArg_ParseTuple_s (args : list PyObject) : PyErr + string :=
  match args with
  | [PyBytes s] => inr s
  | _ => inl bad_arguments
  end.

(** ** Reads and the native parser interface *)

Record Read := mkRead {
  name : string;
  sequence : string;
  accuracy : string;
  annotations : string
}.

Record ReadPair := mkReadPair {
  first : Read;
  second : Read
}.

(** Modelled from the spec: the [PairingPolicy] enumerators of [IParser]
    ([read_parsers.hh] is not part of the sources at hand), numbered in
    the order the specification lists them. *)
Definition PAIR_MODE_ALLOW_UNPAIRED : Z := 0.
Definition PAIR_MODE_IGNORE_UNPAIRED : Z := 1.
Definition PAIR_MODE_ERROR_ON_UNPAIRED : Z := 2.

(** The exceptions the two [catch] cascades of the iterators name. *)
Inductive read_exception :=
  | NoMoreReadsAvailable
  | StreamReadError (what : string).

Inductive read_pair_exception :=
  | PairUnknownPairReadingMode
  | PairInvalidReadPair
  | PairStreamReadError
  | PairNoMoreReadsAvailable.

(** Modelled from the spec: the contract of the native parser
    ([parser.is_complete], [parser.next -> record | ends | fails], and the
    paired variant taking the pairing mode); the implementation lives in the
    library, outside the module. A parser is a state of type [P]; each
    operation returns the next state. *)
Class IParser (P : Type) := {
  is_complete : P → bool;
  imprint_next_read : P → (read_exception + Read) * P;
  imprint_next_read_pair : P → Z → (read_pair_exception + ReadPair) * P
}.

(** Modelled from the spec: a parser over a finite stream of records, each
    either well formed or malformed; it is complete once no record is left
    and delivers the records in input order. The pairing operation is left
    to the library and is a parameter. *)
Inductive stream_item :=
  | WellFormed (r : Read)
  | Malformed (what : string).

Definition stream_is_complete (s : list stream_item) : bool :=
  match s with [] => true | _ => false end.

Definition stream_imprint_next_read (s : list stream_item)
  : (read_exception + Read) * list stream_item :=
  match s with
  | [] => (inl NoMoreReadsAvailable, [])
  | WellFormed r :: rest => (inr r, rest)
  | Malformed what :: rest => (inl (StreamReadError what), rest)
  end.

Definition stream_IParser
    (pairs : list stream_item → Z →
             (read_pair_exception + ReadPair) * list stream_item)
  : IParser (list stream_item) :=
  {| is_complete := stream_is_complete;
     imprint_next_read := stream_imprint_next_read;
     imprint_next_read_pair := pairs |}.

(** A parser that records the pairing mode of every
    [imprint_next_read_pair] call it receives, in call order. *)
Definition logged_IParser `{IParser P} : IParser (P * list Z) :=
  {| is_complete := λ s, is_complete s.1;
     imprint_next_read := λ s,
       let '(r, p) := imprint_next_read s.1 in (r, (p, s.2));
     imprint_next_read_pair := λ s mode,
       let '(r, p) := imprint_next_read_pair s.1 mode in
       (r, (p, s.2 ++ [mode])) |}.

(** ** ReadParser and ReadPairIterator objects *)

Record khmer_ReadParser_Object (P : Type) := mkReadParser {
  ob_refcnt : Z;
  parser : P
}.
Arguments mkReadParser {P} ob_refcnt parser.
Arguments ob_refcnt {P} _.
Arguments parser {P} _.

Record khmer_ReadPairIterator_Object := mkReadPairIterator {
  parent : addr;
  pair_mode : Z
}.

(** The object heap: parser objects and pair-iterator objects, each kind
    in its own region. *)
Record heap (P : Type) := mkHeap {
  parsers : gmap addr (khmer_ReadParser_Object P);
  iterators : gmap addr khmer_ReadPairIterator_Object
}.
Arguments mkHeap {P} parsers iterators.
Arguments parsers {P} _.
Arguments iterators {P} _.

Section ReadParsing.
Context {P : Type} `{IParser P}.

(** [_ReadParser_iternext], after [myself->parser] is loaded. The returned
    parser is the state the native parser is left in. For a
    [StreamReadError] the source keeps the pointer [e.what()] and reads the
    text after the handler has ended; whether the text is still there is
    settled by the exception class of the library, which is not among the
    sources at hand. The text is taken to be the exception's. *)
Definition _ReadParser_iternext (parser : P) : pyresult Read * P :=
  let stop_iteration := is_complete parser in
  if stop_iteration then (PyNULL None, parser)
  else
    match imprint_next_read parser with
    | (inl NoMoreReadsAvailable, parser') => (PyNULL None, parser')
    | (inl (StreamReadError exc), parser') =>
        (PyNULL (Some (PyExc_IOError, exc)), parser')
    | (inr the_read, parser') => (PyReturn the_read, parser')
    end.

(** Pulling [n] times from a parser, collecting what the host sees. *)
Fixpoint pull_reads (n : nat) (parser : P) : list (pull_outcome Read) * P :=
  match n with
  | O => ([], parser)
  | S n' =>
      let '(r, parser') := _ReadParser_iternext parser in
      let '(rs, parser'') := pull_reads n' parser' in
      (iternext_outcome r :: rs, parser'')
  end.

(** [uint8_t pair_mode = myself->pair_mode]. *)
Definition to_uint8 (v : Z) : Z := v mod 2 ^ 8.

(** The body of [_ReadPairIterator_iternext] once [parent->parser] and
    [myself->pair_mode] are loaded. *)
Definition ReadPairIterator_pull (parser : P) (pair_mode : Z)
  : pyresult ReadPair * P :=
  let pair_mode := to_uint8 pair_mode in
  let stop_iteration := is_complete parser in
  if stop_iteration then (PyNULL None, parser)
  else
    match imprint_next_read_pair parser pair_mode with
    | (inl PairUnknownPairReadingMode, parser') =>
        (PyNULL (Some (PyExc_ValueError,
                       "Unknown pair reading mode supplied.")), parser')
    | (inl PairInvalidReadPair, parser') =>
        (PyNULL (Some (PyExc_IOError, "Invalid read pair detected.")),
         parser')
    | (inl PairStreamReadError, parser') =>
        (PyNULL (Some (PyExc_IOError, "Input file error.")), parser')
    | (inl PairNoMoreReadsAvailable, parser') => (PyNULL None, parser')
    | (inr the_read_pair, parser') =>
        (PyReturn (mkReadPair (first the_read_pair) (second the_read_pair)),
         parser')
    end.

(** [_ReadPairIterator_iternext]: the iterator [myself] reaches its parser
    through its parent. *)
Definition _ReadPairIterator_iternext (h : heap P) (myself : addr)
  : option (pyresult ReadPair * heap P) :=
  match iterators h !! myself with
  | None => None
  | Some it =>
      match parsers h !! parent it with
      | None => None
      | Some par =>
          let '(r, parser') := ReadPairIterator_pull (parser par) (pair_mode it) in
          Some (r, mkHeap (<[parent it := mkReadParser (ob_refcnt par) parser']>
                             (parsers h))
                          (iterators h))
      end
  end.

(** Pulling [n] times from one pair iterator. *)
Fixpoint pull_pairs (n : nat) (h : heap P) (myself : addr)
  : option (list (pull_outcome ReadPair) * heap P) :=
  match n with
  | O => Some ([], h)
  | S n' =>
      match _ReadPairIterator_iternext h myself with
      | None => None
      | Some (r, h') =>
          match pull_pairs n' h' myself with
          | None => None
          | Some (rs, h'') => Some (iternext_outcome r :: rs, h'')
          end
      end
  end.

(** [Py_INCREF] and [Py_DECREF] on a parser object. *)
Definition Py_INCREF (h : heap P) (o : addr) : option (heap P) :=
  match parsers h !! o with
  | None => None
  | Some obj =>
      Some (mkHeap (<[o := mkReadParser (ob_refcnt obj + 1) (parser obj)]>
                      (parsers h))
                   (iterators h))
  end.

(** [Py_DECREF] applied to a pointer to a native object. The object is
    no host object: it has no reference count and no type. The statement
    reads and writes its first word as a count and, should the word reach
    zero, calls through what it takes for the type: undefined behaviour. *)
Definition Py_DECREF_native (native : P) : option P := None.

(** [_ReadParser_dealloc]. Its first statement is [Py_DECREF(obj->parser)],
    on the native parser; then the pointer is cleared and the object's
    memory is freed. No statement deletes the parser. *)
Definition _ReadParser_dealloc (h : heap P) (obj : addr) : option (heap P) :=
  match parsers h !! obj with
  | None => None
  | Some o =>
      match Py_DECREF_native (parser o) with
      | None => None
      | Some _ => Some (mkHeap (delete obj (parsers h)) (iterators h))
      end
  end.

(** [Py_DECREF] on a parser object: when the count reaches zero, the
    [tp_dealloc] of the type runs. *)
Definition Py_DECREF (h : heap P) (o : addr) : option (heap P) :=
  match parsers h !! o with
  | None => None
  | Some obj =>
      let refcnt := ob_refcnt obj - 1 in
      if bool_decide (refcnt = 0) then _ReadParser_dealloc h o
      else Some (mkHeap (<[o := mkReadParser refcnt (parser obj)]> (parsers h))
                        (iterators h))
  end.

(** [ReadParser_iter_read_pairs]. [alloc_ok] tells whether [tp_alloc]
    finds memory for the iterator. *)
Definition ReadParser_iter_read_pairs (h : heap P) (self : addr)
    (args : list PyObject) (alloc_ok : bool)
  : option (pyresult addr * heap P) :=
  let pair_mode := PAIR_MODE_ERROR_ON_UNPAIRED in
  match PyArg_ParseTuple_opt_i args pair_mode with
  | inl e => Some (PyNULL (Some e), h)
  | inr pair_mode =>
      if negb alloc_ok
      then Some (PyNULL (Some (PyExc_MemoryError, "out of memory")), h)
      else
        let obj := fresh (dom (iterators h)) in
        let h1 := mkHeap (parsers h)
                         (<[obj := mkReadPairIterator self pair_mode]>
                            (iterators h)) in
        match Py_INCREF h1 self with
        | None => None
        | Some h2 => Some (PyReturn obj, h2)
        end
  end.

(** [khmer_ReadPairIterator_dealloc]. *)
Definition khmer_ReadPairIterator_dealloc (h : heap P) (obj : addr)
  : option (heap P) :=
  match iterators h !! obj with
  | None => None
  | Some it =>
      match Py_DECREF h (parent it) with
      | None => None
      | Some h1 => Some (mkHeap (parsers h1) (delete obj (iterators h1)))
      end
  end.

(** [_ReadParser_new], with the outcome of [IParser::get_parser] given:
    the new object starts with one reference, held by the caller. *)
Definition _ReadParser_new (h : heap P) (get_parser : string + P)
  : pyresult addr * heap P :=
  match get_parser with
  | inl what => (PyNULL (Some (PyExc_ValueError, what)), h)
  | inr p =>
      let self := fresh (dom (parsers h)) in
      (PyReturn self,
       mkHeap (<[self := mkReadParser 1 p]> (parsers h)) (iterators h))
  end.

(** The [tp_iternext] slot of a parser object: [_ReadParser_iternext] on
    the parser that [self] holds. *)
Definition ReadParser_tp_iternext (h : heap P) (self : addr)
  : option (pyresult Read * heap P) :=
  match parsers h !! self with
  | None => None
  | Some myself =>
      let '(r, parser') := _ReadParser_iternext (parser myself) in
      Some (r, mkHeap (<[self := mkReadParser (ob_refcnt myself) parser']>
                         (parsers h))
                      (iterators h))
  end.

(** *** The host driving parsers and pair iterators

    The host owns references to parser objects; [held] counts them. It may
    open a parser, copy or drop a reference it owns, call a method of a
    parser it owns a reference to, and pull from or destroy a pair iterator
    that has not been destroyed. *)
Inductive event :=
  | OpenParser (get_parser : string + P)
  | CopyReference (p : addr)
  | DropReference (p : addr)
  | IterReadPairs (p : addr) (args : list PyObject) (alloc_ok : bool)
  | NextRead (p : addr)
  | NextPair (i : addr)
  | DestroyIterator (i : addr).

Record host_state := mkHost {
  the_heap : heap P;
  held : gmap addr nat
}.

Definition held_count (s : host_state) (p : addr) : nat :=
  default 0%nat (held s !! p).

(** The outcome of a host action: the next state; or the action is not
    one the host may take in this state; or the behaviour of the code is
    undefined: it dereferenced a pointer to an object that is not (or no
    longer) in the heap, or it ran [_ReadParser_dealloc]. *)
Inductive step_result :=
  | Done (s : host_state)
  | NotPermitted
  | Undefined.

Definition lift_heap (s : host_state) (r : option (heap P)) : step_result :=
  match r with
  | Some h => Done (mkHost h (held s))
  | None => Undefined
  end.

Definition step (s : host_state) (e : event) : step_result :=
  match e with
  | OpenParser gp =>
      match _ReadParser_new (the_heap s) gp with
      | (PyReturn self, h) =>
          Done (mkHost h (<[self := S (held_count s self)]> (held s)))
      | (PyNULL _, h) => Done (mkHost h (held s))
      end
  | CopyReference p =>
      if bool_decide (held_count s p = 0%nat) then NotPermitted
      else
        match Py_INCREF (the_heap s) p with
        | Some h => Done (mkHost h (<[p := S (held_count s p)]> (held s)))
        | None => Undefined
        end
  | DropReference p =>
      if bool_decide (held_count s p = 0%nat) then NotPermitted
      else
        match Py_DECREF (the_heap s) p with
        | Some h => Done (mkHost h (<[p := pred (held_count s p)]> (held s)))
        | None => Undefined
        end
  | IterReadPairs p args alloc_ok =>
      if bool_decide (held_count s p = 0%nat) then NotPermitted
      else
        match ReadParser_iter_read_pairs (the_heap s) p args alloc_ok with
        | Some (_, h) => Done (mkHost h (held s))
        | None => Undefined
        end
  | NextRead p =>
      if bool_decide (held_count s p = 0%nat) then NotPermitted
      else
        match ReadParser_tp_iternext (the_heap s) p with
        | Some (_, h) => Done (mkHost h (held s))
        | None => Undefined
        end
  | NextPair i =>
      match iterators (the_heap s) !! i with
      | None => NotPermitted
      | Some _ =>
          match _ReadPairIterator_iternext (the_heap s) i with
          | Some (_, h) => Done (mkHost h (held s))
          | None => Undefined
          end
      end
  | DestroyIterator i =>
      match iterators (the_heap s) !! i with
      | None => NotPermitted
      | Some _ =>
          lift_heap s (khmer_ReadPairIterator_dealloc (the_heap s) i)
      end
  end.

Fixpoint run (s : host_state) (es : list event) : step_result :=
  match es with
  | [] => Done s
  | e :: es' =>
      match step s e with
      | Done s' => run s' es'
      | r => r
      end
  end.

Definition initial : host_state := mkHost (mkHeap ∅ ∅) ∅.

(** The number of live pair iterators whose parent is [p]. *)
Definition iter_refs (h : heap P) (p : addr) : nat :=
  size (filter (λ kv, parent kv.2 = p) (iterators h)).

End ReadParsing.

(** ** The interpreter state seen by the reporting callback *)

Inductive cpp_exception :=
  | _khmer_signal (message : string)
  | khmer_file_exception (what : string).

Record interp := mkInterp {
  signals : list bool;
    (* for each coming call of [PyErr_CheckSignals], whether a host
       interrupt has arrived since the previous check *)
  error_indicator : option PyErr;
  _callback_obj : option PyObject;
    (* the default callback; [None] is the [NULL] pointer *)
  allocations_fail : bool;
  invoked : list (PyObject * (string * Z * Z))
    (* the observer calls made so far, oldest first *)
}.

(** Computations that read and write the interpreter state and may throw
    a C++ exception. *)
Definition M (A : Type) : Type := interp → (cpp_exception + A) * interp.

#[global] Instance M_ret : MRet M := λ A a w, (inr a, w).
#[global] Instance M_bind : MBind M := λ A B f m w,
  match m w with
  | (inl e, w') => (inl e, w')
  | (inr a, w') => f a w'
  end.

Definition throw {A} (e : cpp_exception) : M A := λ w, (inl e, w).

Definition set_error (e : option PyErr) (w : interp) : interp :=
  mkInterp (signals w) e (_callback_obj w) (allocations_fail w) (invoked w).

(** [PyErr_CheckSignals]: a pending interrupt runs the default handler,
    which raises [KeyboardInterrupt]; the result is then non-zero. *)
Definition PyErr_CheckSignals : M Z := λ w,
  match signals w with
  | true :: rest =>
      (inr (-1),
       mkInterp rest (Some (PyExc_KeyboardInterrupt, "")) (_callback_obj w)
                (allocations_fail w) (invoked w))
  | false :: rest =>
      (inr 0,
       mkInterp rest (error_indicator w) (_callback_obj w)
                (allocations_fail w) (invoked w))
  | [] => (inr 0, w)
  end.

Definition PyErr_Occurred : M bool := λ w,
  (inr (match error_indicator w with Some _ => true | None => false end), w).

Definition PyErr_SetString (exc : PyExc) (msg : string) : M unit := λ w,
  (inr (), set_error (Some (exc, msg)) w).

Definition get_callback_obj : M (option PyObject) := λ w,
  (inr (_callback_obj w), w).

(** [Py_BuildValue("sKK", info, n_reads, other)]. *)
Definition Py_BuildValue_sKK (info : string) (n_reads other : Z)
  : M (option (string * Z * Z)) := λ w,
  if allocations_fail w
  then (inr None, set_error (Some (PyExc_MemoryError, "out of memory")) w)
  else (inr (Some (info, n_reads, other)), w).

(** [PyObject_Call(obj, args, NULL)]; the result tells whether a value was
    returned. *)
Definition PyObject_Call (obj : PyObject) (args : string * Z * Z) : M bool :=
  λ w,
  match obj with
  | PyFunction _ body =>
      let w1 := mkInterp (signals w) (error_indicator w) (_callback_obj w)
                         (allocations_fail w) (invoked w ++ [(obj, args)]) in
      match body args.1.1 args.1.2 args.2 with
      | Some e => (inr false, set_error (Some e) w1)
      | None => (inr true, w1)
      end
  | _ =>
      (inr false,
       set_error (Some (PyExc_TypeError, "object is not callable")) w)
  end.

(** [_report_fn]. [data] is the [void *] argument: [None] is [NULL]. *)
Definition _report_fn (info : string) (data : option PyObject)
    (n_reads other : Z) : M unit :=
  r ← PyErr_CheckSignals;
  if negb (r =? 0)
  then throw (_khmer_signal "PyErr_CheckSignals received a signal")
  else
    cb ← get_callback_obj;
    let data := match data, cb with
                | None, Some d => Some d
                | _, _ => data
                end in
    _ ← match data with
        | Some Py_None => mret false
        | Some obj =>
            args ← Py_BuildValue_sKK info n_reads other;
            match args with
            | Some a => PyObject_Call obj a
            | None => mret false
            end
        | None => mret false
        end;
    e ← PyErr_Occurred;
    if (e : bool) then throw (_khmer_signal "PyErr_Occurred is set")
    else mret ().

(** [set_reporting_callback]. *)
Definition set_reporting_callback (args : list PyObject) (w : interp)
  : pyresult PyObject * interp :=
  match PyArg_ParseTuple_O args with
  | inl e => (PyNULL (Some e), set_error (Some e) w)
  | inr o =>
      (PyReturn Py_None,
       mkInterp (signals w) (error_indicator w) (Some o)
                (allocations_fail w) (invoked w))
  end.

(** ** File-scale consume operations *)

(** The two by-reference counters of a consume call: [unsigned int
    total_reads] and [unsigned long long n_consumed]. *)
Record counts := mkCounts {
  total_reads : Z;
  n_consumed : Z
}.

(** Modelled from the spec: the engine operation
    [consume(path, progress_tag, observer) -> (records_seen,
    units_consumed) | fails] of the counting and presence engines (their
    code is in the library, outside the module). What an engine does with a
    file is a finite script: it consumes records, updating the two
    counters through the references it was given, calls the reporting
    callback at moments of its choice, and may fail with a file
    exception. *)
Inductive engine_step :=
  | ProcessRecord (units : Z)
  | InvokeCallback (info : string)
  | ThrowFileException (what : string).

Fixpoint engine_run (script : list engine_step)
    (callback : string → option PyObject → Z → Z → M unit)
    (callback_data : option PyObject) (c : counts) (w : interp)
  : option cpp_exception * counts * interp :=
  match script with
  | [] => (None, c, w)
  | ProcessRecord units :: rest =>
      engine_run rest callback callback_data
        (mkCounts ((total_reads c + 1) mod 2 ^ 32)
                  ((n_consumed c + units) mod 2 ^ 64)) w
  | InvokeCallback info :: rest =>
      match callback info callback_data (total_reads c) (n_consumed c) w with
      | (inl e, w') => (Some e, c, w')
      | (inr _, w') => engine_run rest callback callback_data c w'
      end
  | ThrowFileException what :: _ => (Some (khmer_file_exception what), c, w)
  end.

(** An engine, as far as consuming a file goes: the script it follows on
    each file. The counters start from zero. *)
Record engine := mkEngine {
  consume_script : string → list engine_step
}.

Definition consume_fasta (e : engine) (filename : string)
    (callback : string → option PyObject → Z → Z → M unit)
    (callback_data : option PyObject) (w : interp)
  : option cpp_exception * counts * interp :=
  engine_run (consume_script e filename) callback callback_data
             (mkCounts 0 0) w.

(** [Py_BuildValue("IK", total_reads, n_consumed)]. *)
Definition Py_BuildValue_IK (c : counts) (w : interp)
  : pyresult (Z * Z) * interp :=
  if allocations_fail w
  then let e := (PyExc_MemoryError, "out of memory") in
       (PyNULL (Some e), set_error (Some e) w)
  else (PyReturn (total_reads c, n_consumed c), w).

(** The result of a wrapper that returns [NULL]: the exception the host
    finds is the error indicator. *)
Definition return_NULL {A} (w : interp) : pyresult A * interp :=
  (PyNULL (error_indicator w), w).

(** [hash_consume_fasta]; [counting] is [me->counting]. *)
Definition hash_consume_fasta (counting : engine) (args : list PyObject)
    (w : interp) : pyresult (Z * Z) * interp :=
  match PyArg_ParseTuple_s_opt_O args with
  | inl e => return_NULL (set_error (Some e) w)
  | inr (filename, callback_obj) =>
      match consume_fasta counting filename _report_fn callback_obj w with
      | (Some (_khmer_signal message), _, w') =>
          return_NULL (set_error (Some (PyExc_IOError, message)) w')
      | (Some (khmer_file_exception what), _, w') =>
          return_NULL (set_error (Some (PyExc_IOError, what)) w')
      | (None, c, w') => Py_BuildValue_IK c w'
      end
  end.

(** [hashbits_consume_fasta_and_tag]; [hashbits] is [me->hashbits]. The
    wrapper leaves its two counters uninitialised; the engine starts them
    from zero. *)
Definition hashbits_consume_fasta_and_tag (hashbits : engine)
    (args : list PyObject) (w : interp) : pyresult (Z * Z) * interp :=
  match PyArg_ParseTuple_s_opt_O args with
  | inl e => return_NULL (set_error (Some e) w)
  | inr (filename, callback_obj) =>
      match consume_fasta hashbits filename _report_fn callback_obj w with
      | (Some (_khmer_signal message), _, w') =>
          return_NULL (set_error (Some (PyExc_IOError, message)) w')
      | (Some (khmer_file_exception what), _, w') =>
          return_NULL (set_error (Some (PyExc_IOError, what)) w')
      | (None, c, w') => Py_BuildValue_IK c w'
      end
  end.

(** The counters as they stand in the wrapper's frame when the engine call
    ends, by return or by exception. *)
Definition counts_reached (e : engine) (args : list PyObject) (w : interp)
  : option counts :=
  match PyArg_ParseTuple_s_opt_O args with
  | inl _ => None
  | inr (filename, callback_obj) =>
      Some (consume_fasta e filename _report_fn callback_obj w).1.2
  end.

(** ** Native engine objects and capsule handles *)

(** The partition map of a partitioning engine: the partition identifier
    assigned to each tagged key. [_ht] is the table the engine was built
    for ([new SubsetPartition(hashbits)]). *)
Record SubsetPartition := mkSubsetPartition {
  _ht : option addr;
  partition_map : gmap Z Z
}.

Record Hashbits := mkHashbits {
  ksize : Z;
  tablesizes : list Z;
  partition : SubsetPartition
}.

(** [LabelHash] extends [Hashbits]: the base part and the label index. *)
Record LabelHash := mkLabelHash {
  base : Hashbits;
  label_ptrs : gmap Z Z
}.

Inductive native_object :=
  | N_pre_partition_info (kmer : Z) (tagged_kmers : list Z)
  | N_SubsetPartition (sp : SubsetPartition)
  | N_Hashbits (hb : Hashbits)
  | N_LabelHash (lh : LabelHash).

(** Native memory and the files the engines persist to. *)
Record native := mkNative {
  objects : gmap addr native_object;
  files : gmap string (gmap Z Z)
}.

(** The partitioning operations whose algorithms the module only calls. *)
Class PartitionOps := {
  assign_partition_id : SubsetPartition → Z → list Z → Z * SubsetPartition;
  count_partitions : SubsetPartition → Z * Z;
  merge : SubsetPartition → SubsetPartition → SubsetPartition
}.

(** Modelled from the spec: the partition identifier of a key in a
    partitioning engine, and [save(path)] / [load(path) -> handle |
    fails(FileError)] on partition-map files ([subset.cc] is in the
    library). A saved file holds the partition assignment; loading a path
    that holds none fails with a [khmer_file_exception], whose message is
    the left result. *)
Definition get_partition_id (sp : SubsetPartition) (key : Z) : Z :=
  default 0 (partition_map sp !! key).

Definition save_partitionmap (sp : SubsetPartition) (filename : string)
    (fs : gmap string (gmap Z Z)) : gmap string (gmap Z Z) :=
  <[filename := partition_map sp]> fs.

Definition load_partitionmap (sp : SubsetPartition) (filename : string)
    (fs : gmap string (gmap Z Z)) : string + SubsetPartition :=
  match fs !! filename with
  | Some pm => inr (mkSubsetPartition (_ht sp) (pm ∪ partition_map sp))
  | None => inl "cannot open the partition map file"
  end.

(** Dereferencing native pointers; [None] is undefined behaviour. *)
Definition deref_SubsetPartition (m : native) (p : option addr)
  : option SubsetPartition :=
  match p with
  | None => None
  | Some a =>
      match objects m !! a with
      | Some (N_SubsetPartition sp) => Some sp
      | _ => None
      end
  end.

Definition deref_pre_partition_info (m : native) (p : option addr)
  : option (Z * list Z) :=
  match p with
  | None => None
  | Some a =>
      match objects m !! a with
      | Some (N_pre_partition_info kmer tagged_kmers) =>
          Some (kmer, tagged_kmers)
      | _ => None
      end
  end.

(** A [Hashbits *] may point at a [Hashbits] or at the base part of a
    [LabelHash]. *)
Definition deref_Hashbits (m : native) (p : option addr) : option Hashbits :=
  match p with
  | None => None
  | Some a =>
      match objects m !! a with
      | Some (N_Hashbits hb) => Some hb
      | Some (N_LabelHash lh) => Some (base lh)
      | _ => None
      end
  end.

Definition deref_LabelHash (m : native) (p : option addr) : option LabelHash :=
  match p with
  | None => None
  | Some a =>
      match objects m !! a with
      | Some (N_LabelHash lh) => Some lh
      | _ => None
      end
  end.

(** Writing the partition of the table a [Hashbits *] points at. *)
Definition store_partition (m : native) (p : option addr)
    (sp : SubsetPartition) : option native :=
  match p with
  | None => None
  | Some a =>
      match objects m !! a with
      | Some (N_Hashbits hb) =>
          Some (mkNative
                  (<[a := N_Hashbits (mkHashbits (ksize hb) (tablesizes hb) sp)]>
                     (objects m))
                  (files m))
      | Some (N_LabelHash lh) =>
          Some (mkNative
                  (<[a := N_LabelHash
                            (mkLabelHash
                               (mkHashbits (ksize (base lh))
                                           (tablesizes (base lh)) sp)
                               (label_ptrs lh))]>
                     (objects m))
                  (files m))
      | _ => None
      end
  end.

(** [PyCapsule_IsValid(o, name)]. *)
Definition PyCapsule_IsValid (o : PyObject) (expected : string) : bool :=
  match o with
  | PyCapsule (Some _) name _ => bool_decide (name = expected)
  | _ => false
  end.

(** [PyCapsule_GetPointer(o, name)]: the pointer, or [NULL] with an
    exception set when the capsule is not a valid one of that name. *)
Definition PyCapsule_GetPointer (o : PyObject) (expected : string)
  : option addr * option PyErr :=
  match o with
  | PyCapsule (Some p) name _ =>
      if bool_decide (name = expected) then (Some p, None)
      else (None, Some (PyExc_ValueError,
                        "PyCapsule_GetPointer called with incorrect name"))
  | _ => (None, Some (PyExc_ValueError,
                      "PyCapsule_GetPointer called with invalid PyCapsule object"))
  end.

Record khmer_KHashbitsObject := mkKHashbits {
  hashbits : option addr
}.

Section Handles.
Context `{PartitionOps}.

(** [hashbits_assign_partition_id]. *)
Definition hashbits_assign_partition_id (m : native)
    (me : khmer_KHashbitsObject) (args : list PyObject)
  : option (pyresult PyObject * native) :=
  match PyArg_ParseTuple_O args with
  | inl e => Some (PyNULL (Some e), m)
  | inr ppi_obj =>
      if negb (PyCapsule_IsValid ppi_obj "khmer.pre_partition_info")
      then Some (PyNULL (Some (PyExc_ValueError,
                               "invalid pre_partition_info")), m)
      else
        let ppi := (PyCapsule_GetPointer ppi_obj "khmer.pre_partition_info").1 in
        match deref_pre_partition_info m ppi, deref_Hashbits m (hashbits me) with
        | Some (kmer, tagged_kmers), Some hb =>
            let '(p, sp) := assign_partition_id (partition hb) kmer tagged_kmers in
            match store_partition m (hashbits me) sp with
            | Some m' => Some (PyReturn (PyLong p), m')
            | None => None
            end
        | _, _ => None
        end
  end.

(** [hashbits_merge_subset]. *)
Definition hashbits_merge_subset (m : native)
    (me : khmer_KHashbitsObject) (args : list PyObject)
  : option (pyresult PyObject * native) :=
  match PyArg_ParseTuple_O args with
  | inl e => Some (PyNULL (Some e), m)
  | inr subset_obj =>
      if negb (PyCapsule_IsValid subset_obj "khmer.SubsetPartition")
      then Some (PyNULL (Some (PyExc_ValueError, "invalid subset")), m)
      else
        let subset_p := (PyCapsule_GetPointer subset_obj "khmer.SubsetPartition").1 in
        match deref_SubsetPartition m subset_p, deref_Hashbits m (hashbits me) with
        | Some sp, Some hb =>
            match store_partition m (hashbits me) (merge (partition hb) sp) with
            | Some m' => Some (PyReturn Py_None, m')
            | None => None
            end
        | _, _ => None
        end
  end.

(** [hashbits_subset_count_partitions]: the pointer is taken from the
    capsule and used at once. *)
Definition hashbits_subset_count_partitions (m : native)
    (args : list PyObject) : option (pyresult (Z * Z) * native) :=
  match PyArg_ParseTuple_O args with
  | inl e => Some (PyNULL (Some e), m)
  | inr subset_obj =>
      let subset_p := (PyCapsule_GetPointer subset_obj "khmer.SubsetPartition").1 in
      match deref_SubsetPartition m subset_p with
      | Some sp => Some (PyReturn (count_partitions sp), m)
      | None => None
      end
  end.

End Handles.

(** [hashbits_save_subset_partitionmap]. *)
Definition hashbits_save_subset_partitionmap (m : native)
    (args : list PyObject) : option (pyresult PyObject * native) :=
  match PyArg_ParseTuple_Os args with
  | inl e => Some (PyNULL (Some e), m)
  | inr (subset_obj, filename) =>
      let subset_p := (PyCapsule_GetPointer subset_obj "khmer.SubsetPartition").1 in
      match deref_SubsetPartition m subset_p with
      | Some sp =>
          Some (PyReturn Py_None,
                mkNative (objects m) (save_partitionmap sp filename (files m)))
      | None => None
      end
  end.

(** [hashbits_load_subset_partitionmap]. *)
Definition hashbits_load_subset_partitionmap (m : native)
    (me : khmer_KHashbitsObject) (args : list PyObject)
  : pyresult PyObject * native :=
  match PyArg_ParseTuple_s args with
  | inl e => (PyNULL (Some e), m)
  | inr filename =>
      let subset_p := fresh (dom (objects m)) in
      let sp := mkSubsetPartition (hashbits me) ∅ in
      let m1 := mkNative (<[subset_p := N_SubsetPartition sp]> (objects m))
                         (files m) in
      match load_partitionmap sp filename (files m1) with
      | inl err =>
          (PyNULL (Some (PyExc_IOError, err)),
           mkNative (delete subset_p (objects m1)) (files m1))
      | inr sp' =>
          (PyReturn (PyCapsule (Some subset_p) "khmer.SubsetPartition"
                               free_subset_partition_info),
           mkNative (<[subset_p := N_SubsetPartition sp']> (objects m1))
                    (files m1))
      end
  end.

(** ** The LabelHash wrapper object *)

Record khmer_KLabelHashObject := mkKLabelHash {
  khashbits : khmer_KHashbitsObject;
  labelhash : option addr
}.

(** [PyLong_AsUnsignedLongLong]: out of range, the result is
    [(unsigned long long)-1] and an exception is set. *)
Definition PyLong_AsUnsignedLongLong (v : Z) : Z * option PyErr :=
  if bool_decide (0 ≤ v ≤ ULLONG_MAX) then (v, None)
  else (ULLONG_MAX,
        Some (PyExc_OverflowError, "int too large to convert")).

(** The loop of [khmer_labelhash_new] over the list of table sizes; the
    exception of an unchecked conversion stays set. *)
Fixpoint convert_sizes (items : list PyObject) (err : option PyErr)
  : PyErr + (list Z * option PyErr) :=
  match items with
  | [] => inr ([], err)
  | size_o :: rest =>
      let conv :=
        match size_o with
        | PyLong v =>
            let '(x, e) := PyLong_AsUnsignedLongLong v in
            Some (x, match e with Some _ => e | None => err end)
        | PyInt v => Some (v mod 2 ^ 64, err)
        | PyFloat as_ull => Some (as_ull, err)
        | _ => None
        end in
      match conv with
      | None =>
          inl (PyExc_TypeError,
               "2nd argument must be a list of ints, longs, or floats")
      | Some (x, err') =>
          match convert_sizes rest err' with
          | inl e => inl e
          | inr (xs, err'') => inr (x :: xs, err'')
          end
      end
  end.

(** [PyArg_ParseTuple(args, "bO!", &k, &PyList_Type, &sizes_list_o)]. *)
Definition PyArg_ParseTuple_b_list (args : list PyObject)
  : PyErr + (Z * list PyObject) :=
  match args with
  | [PyInt k; PyList items] | [PyLong k; PyList items] =>
      if bool_decide (0 ≤ k ≤ 255) then inr (k, items)
      else inl (PyExc_OverflowError, "unsigned byte integer is out of range")
  | _ => inl bad_arguments
  end.

(** [khmer_labelhash_new]: the object returned (or [NULL]), the exception
    left set, and native memory. [alloc_ok] tells whether [tp_alloc]
    succeeds. *)
Definition khmer_labelhash_new (m : native) (args : list PyObject)
    (alloc_ok : bool)
  : option khmer_KLabelHashObject * option PyErr * native :=
  if negb alloc_ok
  then (None, Some (PyExc_MemoryError, "out of memory"), m)
  else
    match PyArg_ParseTuple_b_list args with
    | inl e => (None, Some e, m)
    | inr (k, sizes_list_o) =>
        match convert_sizes sizes_list_o None with
        | inl e => (None, Some e, m)
        | inr (sizes, err) =>
            let p := fresh (dom (objects m)) in
            let lh := mkLabelHash
                        (mkHashbits k sizes (mkSubsetPartition (Some p) ∅))
                        ∅ in
            let self_labelhash := Some p in
            let self_khashbits := mkKHashbits self_labelhash in
            (Some (mkKLabelHash self_khashbits self_labelhash), err,
             mkNative (<[p := N_LabelHash lh]> (objects m)) (files m))
        end
    end.

(** [khmer_labelhash_dealloc]: [delete self->labelhash]. Deleting the null
    pointer does nothing; deleting anything but a live [LabelHash] is
    undefined. *)
Definition khmer_labelhash_dealloc (m : native)
    (self : khmer_KLabelHashObject) : option native :=
  match labelhash self with
  | None => Some m
  | Some p =>
      match objects m !! p with
      | Some (N_LabelHash _) => Some (mkNative (delete p (objects m)) (files m))
      | _ => None
      end
  end.

(** The objects the presence-table methods are called on: their
    [self] is cast to [khmer_KHashbitsObject *], which for a [LabelHash]
    object reads the leading [khashbits] member. *)
Inductive table_object :=
  | KHashbits (o : khmer_KHashbitsObject)
  | KLabelHash (o : khmer_KLabelHashObject).

Definition as_KHashbitsObject (self : table_object) : khmer_KHashbitsObject :=
  match self with
  | KHashbits o => o
  | KLabelHash o => khashbits o
  end.

(** [hashbits_get_ksize]. *)
Definition hashbits_get_ksize (m : native) (self : table_object)
    (args : list PyObject) : option (pyresult Z) :=
  let me := as_KHashbitsObject self in
  match args with
  | [] =>
      match deref_Hashbits m (hashbits me) with
      | Some hb => Some (PyReturn (ksize hb))
      | None => None
      end
  | _ => Some (PyNULL (Some bad_arguments))
  end.

(** [labelhash_n_labels]. *)
Definition labelhash_n_labels (m : native) (me : khmer_KLabelHashObject)
    (args : list PyObject) : option (pyresult Z) :=
  match args with
  | [] =>
      match deref_LabelHash m (labelhash me) with
      | Some lh => Some (PyReturn (Z.of_nat (size (label_ptrs lh))))
      | None => None
      end
  | _ => Some (PyNULL (Some bad_arguments))
  end.

(** ** Notions used to state the properties *)

(** A parser that is about to deliver exactly the records [rs], in this
    order, and then be complete: an input stream of well-formed records, as
    the iteration sees it. *)
Inductive delivers `{IParser P} : P → list Read → Prop :=
  | delivers_nil (p : P) :
      is_complete p = true → delivers p []
  | delivers_cons (p p' : P) (r : Read) (rs : list Read) :
      is_complete p = false →
      imprint_next_read p = (inr r, p') →
      delivers p' rs →
      delivers p (r :: rs).

(** The observer a call of the reporting callback is to use, in the
    specification's words: an observer passed to the call overrides the
    process-wide default, and the [None] sentinel suppresses both. *)
Definition selected_observer (data default : option PyObject)
  : option PyObject :=
  match data with
  | Some Py_None => None
  | Some obj => Some obj
  | None =>
      match default with
      | Some Py_None => None
      | other => other
      end
  end.

Definition interrupt_pending (w : interp) : bool :=
  match signals w with
  | true :: _ => true
  | _ => false
  end.

Definition is_callable (o : PyObject) : bool :=
  match o with
  | PyFunction _ _ => true
  | _ => false
  end.

(** The observer calls one report is to make: the selected observer is
    called once with the reported values, unless an interrupt is pending,
    the argument tuple cannot be built, or the object is not callable. *)
Definition calls_expected (info : string) (data : option PyObject)
    (n_reads other : Z) (w : interp) : list (PyObject * (string * Z * Z)) :=
  match selected_observer data (_callback_obj w) with
  | Some obj =>
      if interrupt_pending w || allocations_fail w || negb (is_callable obj)
      then []
      else [(obj, (info, n_reads, other))]
  | None => []
  end.

(** The two messages a cancellation carries. *)
Definition signal_received_message : string :=
  "PyErr_CheckSignals received a signal".
Definition error_set_message : string := "PyErr_Occurred is set".

(** How the engine call inside a consume wrapper ended: cancelled through
    the reporting callback, or failed inside the engine. *)
Definition cancelled (e : engine) (args : list PyObject) (w : interp)
  : Prop :=
  ∃ filename callback_obj message c w',
    PyArg_ParseTuple_s_opt_O args = inr (filename, callback_obj) ∧
    consume_fasta e filename _report_fn callback_obj w =
      (Some (_khmer_signal message), c, w').

Definition engine_failed (e : engine) (args : list PyObject) (w : interp)
  : Prop :=
  ∃ filename callback_obj what c w',
    PyArg_ParseTuple_s_opt_O args = inr (filename, callback_obj) ∧
    consume_fasta e filename _report_fn callback_obj w =
      (Some (khmer_file_exception what), c, w').

(** Concrete runs. [quiet] is an interpreter with no interrupt pending, no
    exception set and no default callback. *)
Definition quiet : interp := mkInterp [] None None false [].

Definition failing_observer : PyObject :=
  PyFunction 1 (λ _ _ _, Some (PyExc_Exception, "stop")).

(** An engine that reports after every record. *)
Definition reporting_engine : engine :=
  mkEngine (λ filename,
    if bool_decide (filename = "one.fa")
    then [ProcessRecord 10; InvokeCallback "consume_fasta";
          ProcessRecord 10; InvokeCallback "consume_fasta"]
    else [ProcessRecord 10; ProcessRecord 10; InvokeCallback "consume_fasta";
          ProcessRecord 10]).

(** An engine whose file exception happens to carry the text of a
    cancellation. *)
Definition broken_engine : engine :=
  mkEngine (λ _, [ProcessRecord 10; ThrowFileException "PyErr_Occurred is set"]).

(** The three failures a pull on a pair iterator can report. *)
Definition UnknownPairingMode_failure : PyErr :=
  (PyExc_ValueError, "Unknown pair reading mode supplied.").
Definition InvalidReadPair_failure : PyErr :=
  (PyExc_IOError, "Invalid read pair detected.").
Definition StreamReadError_failure : PyErr :=
  (PyExc_IOError, "Input file error.").

(** The outcome the host is to see for what the parser answered to a
    request for a pair, kind by kind. *)
Definition pair_pull_by_parser (answer : read_pair_exception + ReadPair)
  : pull_outcome ReadPair :=
  match answer with
  | inr the_read_pair => Yields the_read_pair
  | inl PairNoMoreReadsAvailable => Ends
  | inl PairUnknownPairReadingMode => Fails UnknownPairingMode_failure
  | inl PairInvalidReadPair => Fails InvalidReadPair_failure
  | inl PairStreamReadError => Fails StreamReadError_failure
  end.

(** The class of a failure is what the host catches it by. *)
Definition failure_class (e : PyErr) : PyExc := e.1.

(** How many of the first [n] pulls ask the parser for a pair: a pull
    asks unless it finds the parser complete, and a complete parser stays
    as it is. *)
Fixpoint pulls_asking_parser `{IParser P} (n : nat) (p : P) (mode : Z) : nat :=
  match n with
  | O => O
  | S n' =>
      if is_complete p then O
      else S (pulls_asking_parser n' (imprint_next_read_pair p mode).2 mode)
  end.

(** The reference-count discipline of parsers and pair iterators: every
    live parser's count is the number of references the host holds plus the
    number of live pair iterators pointing at it, and is positive; every
    live pair iterator's parent is a live parser; the host holds no reference
    to a parser that was freed. *)
Definition refcounts_ok {P : Type} (s : host_state (P := P)) : Prop :=
  (∀ p obj, parsers (the_heap s) !! p = Some obj →
     ob_refcnt obj = Z.of_nat (held_count s p + iter_refs (the_heap s) p)
     ∧ 0 < ob_refcnt obj)
  ∧ (∀ i it, iterators (the_heap s) !! i = Some it →
       is_Some (parsers (the_heap s) !! parent it))
  ∧ (∀ p, parsers (the_heap s) !! p = None → held_count s p = 0%nat).

(** The host action [e] takes the last reference off the live parser [p]:
    the host drops the only reference there is, or destroys the only pair
    iterator of a parser it holds no reference to. Such a step runs
    [_ReadParser_dealloc]. *)
Definition releases_last_reference {P : Type} (s : host_state (P := P))
    (e : event (P := P)) (p : addr) : Prop :=
  ∃ par,
    parsers (the_heap s) !! p = Some par
    ∧ ob_refcnt par = 1
    ∧ (e = DropReference p
       ∨ ∃ i it, e = DestroyIterator i
                 ∧ iterators (the_heap s) !! i = Some it
                 ∧ parent it = p).

(** Composition instead of aliasing, in the specification's words: the
    labeling wrapper owns a presence-engine core and, apart from it, its
    label index, so the pointer the presence-table operations go through is
    not an alias of the label engine's pointer. *)
Definition composed_without_aliasing (o : khmer_KLabelHashObject) : Prop :=
  hashbits (khashbits o) ≠ labelhash o.

Definition empty_native : native := mkNative ∅ ∅.

(** ** Concrete inputs *)

(** A parser over the empty stream whose pairing operation reports that
    no reads are left. *)
Definition empty_stream : IParser (list stream_item) :=
  stream_IParser (λ s _, (inl PairNoMoreReadsAvailable, s)).

Definition one_iterator : heap (list stream_item) :=
  mkHeap {[ 0%nat := mkReadParser 2 [] ]}
         {[ 0%nat := mkReadPairIterator 0%nat PAIR_MODE_ERROR_ON_UNPAIRED ]}.

(** A parser with one record left whose pairing operation finds the record
    unpaired; its second component is the log of pairing modes. *)
Definition unpaired_stream : IParser (list stream_item) :=
  stream_IParser (λ s _, (inl PairInvalidReadPair, s)).

(** A parser with one record left whose pairing operation cannot read
    the stream. *)
Definition unreadable_stream : IParser (list stream_item) :=
  stream_IParser (λ s _, (inl PairStreamReadError, s)).

Definition one_record_iterator : heap (list stream_item) :=
  mkHeap {[ 0%nat := mkReadParser 2 [WellFormed (mkRead "r1" "ACGT" "" "")] ]}
         {[ 0%nat := mkReadPairIterator 0%nat PAIR_MODE_ERROR_ON_UNPAIRED ]}.

(** The host holds one reference to a parser that has one pair iterator. *)
Definition parser_with_iterator : host_state (P := list stream_item) :=
  mkHost (mkHeap {[ 0%nat := mkReadParser 2 [] ]}
                 {[ 0%nat := mkReadPairIterator 0%nat
                               PAIR_MODE_ERROR_ON_UNPAIRED ]})
         {[ 0%nat := 1%nat ]}.

Definition one_parser : heap (list stream_item * list Z) :=
  mkHeap {[ 0%nat := mkReadParser 1
                       ([WellFormed (mkRead "r1" "ACGT" "" "")], []) ]}
         ∅.

Definition one_parser_one_iterator : heap (list stream_item * list Z) :=
  mkHeap {[ 0%nat := mkReadParser 2
                       ([WellFormed (mkRead "r1" "ACGT" "" "")], []) ]}
         {[ 0%nat := mkReadPairIterator 0%nat PAIR_MODE_ERROR_ON_UNPAIRED ]}.

Definition one_subset : native :=
  mkNative {[ 0%nat := N_SubsetPartition
                         (mkSubsetPartition None {[ 7 := 3; 9 := 3; 12 := 5 ]}) ]}
           ∅.

(* ================================================================== *)
(** * Part I, continued: further functions of the module             *)
(* ================================================================== *)

(** ** What makes a report cancel *)

(** The observer selected for a report fails: it raises, it is not
    callable, or its argument tuple cannot be built. *)
Definition observer_fails (info : string) (data : option PyObject)
    (n_reads other : Z) (w : interp) : bool :=
  match selected_observer data (_callback_obj w) with
  | Some (PyFunction _ body) =>
      allocations_fail w ||
      match body info n_reads other with Some _ => true | None => false end
  | Some _ => true
  | None => false
  end.

(** ** Capsule destructors *)

(** [free_pre_partition_info]: [delete] on the pointer the capsule gives
    for the name [khmer.pre_partition_info]. Deleting the null pointer does
    nothing; deleting anything but a live object of that kind is
    undefined. *)
Definition free_pre_partition_info_fn (m : native) (tm : PyObject)
  : option native :=
  match (PyCapsule_GetPointer tm "khmer.pre_partition_info").1 with
  | None => Some m
  | Some ppi =>
      match objects m !! ppi with
      | Some (N_pre_partition_info _ _) =>
          Some (mkNative (delete ppi (objects m)) (files m))
      | _ => None
      end
  end.

(** [free_subset_partition_info]. *)
Definition free_subset_partition_info_fn (m : native) (tm : PyObject)
  : option native :=
  match (PyCapsule_GetPointer tm "khmer.SubsetPartition").1 with
  | None => Some m
  | Some subset_p =>
      match objects m !! subset_p with
      | Some (N_SubsetPartition _) =>
          Some (mkNative (delete subset_p (objects m)) (files m))
      | _ => None
      end
  end.

(** What the host does when the last reference to a capsule goes: it runs
    the destructor the capsule was created with. *)
Definition capsule_dealloc (m : native) (o : PyObject) : option native :=
  match o with
  | PyCapsule _ _ free_pre_partition_info => free_pre_partition_info_fn m o
  | PyCapsule _ _ free_subset_partition_info =>
      free_subset_partition_info_fn m o
  | _ => Some m
  end.

(** ** The presence table object *)

(** [khmer_hashbits_new]; [alloc_ok] tells whether [tp_alloc] succeeds. *)
Definition khmer_hashbits_new (m : native) (args : list PyObject)
    (alloc_ok : bool)
  : option khmer_KHashbitsObject * option PyErr * native :=
  if negb alloc_ok
  then (None, Some (PyExc_MemoryError, "out of memory"), m)
  else
    match PyArg_ParseTuple_b_list args with
    | inl e => (None, Some e, m)
    | inr (k, sizes_list_o) =>
        match convert_sizes sizes_list_o None with
        | inl e => (None, Some e, m)
        | inr (sizes, err) =>
            let p := fresh (dom (objects m)) in
            let hb := mkHashbits k sizes (mkSubsetPartition (Some p) ∅) in
            (Some (mkKHashbits (Some p)), err,
             mkNative (<[p := N_Hashbits hb]> (objects m)) (files m))
        end
    end.

(** [khmer_hashbits_dealloc]: [delete self->hashbits]. *)
Definition khmer_hashbits_dealloc (m : native) (self : khmer_KHashbitsObject)
  : option native :=
  match hashbits self with
  | None => Some m
  | Some p =>
      match objects m !! p with
      | Some (N_Hashbits _) => Some (mkNative (delete p (objects m)) (files m))
      | _ => None
      end
  end.

(** The [tp_dealloc] slot of the two table types. *)
Definition table_tp_dealloc (m : native) (self : table_object)
  : option native :=
  match self with
  | KHashbits o => khmer_hashbits_dealloc m o
  | KLabelHash o => khmer_labelhash_dealloc m o
  end.

(** A size the constructors take: an int, a long or a float. *)
Definition is_size (o : PyObject) : bool :=
  match o with
  | PyLong _ | PyInt _ | PyFloat _ => true
  | _ => false
  end.

(** A long that [PyLong_AsUnsignedLongLong] cannot convert. *)
Definition overflows (o : PyObject) : bool :=
  match o with
  | PyLong v => negb (bool_decide (0 ≤ v ≤ ULLONG_MAX))
  | _ => false
  end.

(** ** Wrappers that let exceptions through *)

(** How a wrapper is left: by returning, or by a C++ exception that no
    handler of the wrapper catches. *)
Inductive crossing (A : Type) :=
  | Returned (r : pyresult A)
  | Escaped (e : cpp_exception).
Arguments Returned {A} r.
Arguments Escaped {A} e.

(** Format unit [K]: an [unsigned long long], taken without overflow
    check. *)
Definition convert_K (o : PyObject) : PyErr + Z :=
  match o with
  | PyInt v | PyLong v => inr (v mod 2 ^ 64)
  | _ => inl (PyExc_TypeError, "an integer is required")
  end.

(** [PyArg_ParseTuple(args, "|KKOOO", ...)]: what is absent keeps its
    initial value, 0 for the two integers and [NULL] for the objects. *)
Definition PyArg_ParseTuple_opt_KKOOO (args : list PyObject)
  : PyErr + (Z * Z * option PyObject * option PyObject * option PyObject) :=
  match args with
  | [] => inr (0, 0, None, None, None)
  | [a] =>
      match convert_K a with
      | inl e => inl e
      | inr x => inr (x, 0, None, None, None)
      end
  | a :: b :: rest =>
      match convert_K a, convert_K b with
      | inl e, _ => inl e
      | _, inl e => inl e
      | inr x, inr y =>
          match rest with
          | [] => inr (x, y, None, None, None)
          | [c] => inr (x, y, Some c, None, None)
          | [c; d] => inr (x, y, Some c, Some d, None)
          | [c; d; e] => inr (x, y, Some c, Some d, Some e)
          | _ => inl bad_arguments
          end
      end
  end.

(** Modelled from the spec: [partition_subengine.do_partition(range,
    policy_flags, progress_tag, observer) -> handle | fails(Cancelled)]
    ([subset.cc] is in the library). What the engine does is a finite
    script: it assigns partition identifiers to keys, calls the reporting
    callback at moments of its choice, and may fail. *)
Inductive partition_step :=
  | AssignPartition (key pid : Z)
  | ReportProgress (info : string) (n_reads other : Z)
  | PartitionFails (what : string).

(** A computation that calls into the host, run while the interpreter lock
    is released (between [Py_BEGIN_ALLOW_THREADS] and
    [Py_END_ALLOW_THREADS]): the thread has given up its thread state, and
    what the calls into the host do without it is undefined. *)
Definition without_lock {A} (f : M A)
  : interp → option ((cpp_exception + A) * interp) :=
  λ _, None.

(** The engine following its script; the callback may be undefined. *)
Fixpoint partition_run (script : list partition_step)
    (callback : string → option PyObject → Z → Z →
                interp → option ((cpp_exception + unit) * interp))
    (callback_data : option PyObject) (pm : gmap Z Z) (w : interp)
  : option (option cpp_exception * gmap Z Z * interp) :=
  match script with
  | [] => Some (None, pm, w)
  | AssignPartition key pid :: rest =>
      partition_run rest callback callback_data (<[key := pid]> pm) w
  | ReportProgress info n_reads other :: rest =>
      match callback info callback_data n_reads other w with
      | None => None
      | Some (inl e, w') => Some (Some e, pm, w')
      | Some (inr _, w') => partition_run rest callback callback_data pm w'
      end
  | PartitionFails what :: _ => Some (Some (khmer_file_exception what), pm, w)
  end.

(** What a script has assigned when each of its steps has run. *)
Definition assigned_by (script : list partition_step) (pm : gmap Z Z)
  : gmap Z Z :=
  foldl (λ pm step,
           match step with
           | AssignPartition key pid => <[key := pid]> pm
           | _ => pm
           end) pm script.

(** A step that assigns a key. *)
Definition is_assignment (step : partition_step) : bool :=
  match step with
  | AssignPartition _ _ => true
  | _ => false
  end.

Section SubsetPartitioning.
(** The host's truth test [PyObject_IsTrue], and the script the engine
    follows for a table, a key range and the two policy flags. *)
Variable PyObject_IsTrue : PyObject → bool.
Variable do_partition : Hashbits → Z → Z → bool → bool → list partition_step.

(** [hashbits_do_subset_partition]. The engine is created and run with the
    interpreter lock released, so [_report_fn] is called without the lock.
    The lock is taken again only when the engine returns. The result is
    [None] when the behaviour is undefined: the table pointer of [me] does
    not point at a table, or the engine calls the callback. *)
Definition hashbits_do_subset_partition (m : native)
    (me : khmer_KHashbitsObject) (args : list PyObject) (w : interp)
  : option (crossing PyObject * native * interp) :=
  match PyArg_ParseTuple_opt_KKOOO args with
  | inl e => Some (Returned (PyNULL (Some e)), m, set_error (Some e) w)
  | inr (start_kmer, end_kmer, break_on_stop_tags_o, stop_big_traversals_o,
         callback_obj) =>
      let break_on_stop_tags :=
        match break_on_stop_tags_o with
        | Some o => PyObject_IsTrue o
        | None => false
        end in
      let stop_big_traversals :=
        match stop_big_traversals_o with
        | Some o => PyObject_IsTrue o
        | None => false
        end in
      match deref_Hashbits m (hashbits me) with
      | None => None
      | Some hb =>
          let subset_p := fresh (dom (objects m)) in
          let allocated pm :=
            mkNative
              (<[subset_p := N_SubsetPartition
                               (mkSubsetPartition (hashbits me) pm)]>
                 (objects m))
              (files m) in
          match partition_run
                  (do_partition hb start_kmer end_kmer break_on_stop_tags
                                stop_big_traversals)
                  (λ info data n_reads other,
                     without_lock (_report_fn info data n_reads other))
                  callback_obj ∅ w with
          | None => None
          | Some (Some (_khmer_signal _), pm, w') =>
              Some (Returned (PyNULL (error_indicator w')), allocated pm, w')
          | Some (Some (khmer_file_exception what), pm, w') =>
              Some (Escaped (khmer_file_exception what), allocated pm, w')
          | Some (None, pm, w') =>
              Some (Returned
                      (PyReturn (PyCapsule (Some subset_p)
                                           "khmer.SubsetPartition"
                                           free_subset_partition_info)),
                    allocated pm, w')
          end
      end
  end.

End SubsetPartitioning.

(** [hashbits_filter_if_present]; the script is what the engine does for
    the input and output paths. *)
Definition hashbits_filter_if_present
    (filter_if_present : string → string → list engine_step)
    (args : list PyObject) (w : interp) : crossing PyObject * interp :=
  match args with
  | [PyBytes filename; PyBytes output] | [PyBytes filename; PyBytes output; _] =>
      let callback_obj :=
        match args with
        | [_; _; o] => Some o
        | _ => None
        end in
      match engine_run (filter_if_present filename output) _report_fn
                       callback_obj (mkCounts 0 0) w with
      | (Some (_khmer_signal _), _, w') =>
          (Returned (PyNULL (error_indicator w')), w')
      | (Some (khmer_file_exception what), _, w') =>
          (Escaped (khmer_file_exception what), w')
      | (None, _, w') => (Returned (PyReturn Py_None), w')
      end
  | _ =>
      (Returned (PyNULL (Some bad_arguments)),
       set_error (Some bad_arguments) w)
  end.

(** ** Further concrete inputs *)

(** Partition operations that join maps and count their keys. *)
Definition joining_PartitionOps : PartitionOps :=
  {| assign_partition_id sp kmer tagged_kmers :=
       (1, mkSubsetPartition (_ht sp) (<[kmer := 1]> (partition_map sp)));
     count_partitions sp := (Z.of_nat (size (partition_map sp)), 0);
     merge sp other :=
       mkSubsetPartition (_ht sp) (partition_map other ∪ partition_map sp) |}.

(** Native memory holding one presence table at address 0, and one
    partition-map file. *)
Definition one_table : native :=
  mkNative {[ 0%nat := N_Hashbits
                         (mkHashbits 20 [11] (mkSubsetPartition (Some 0%nat) ∅)) ]}
           {[ "subset.pmap" := {[ 7 := 3 ]} ]}.

(** A partition engine that assigns one key and then reports progress. *)
Definition reporting_partitioner
  : Hashbits → Z → Z → bool → bool → list partition_step :=
  λ _ _ _ _ _, [AssignPartition 5 1; ReportProgress "do_subset_partition" 1 0;
                AssignPartition 6 1].

(** A partition engine that only assigns. *)
Definition silent_partitioner
  : Hashbits → Z → Z → bool → bool → list partition_step :=
  λ _ _ _ _ _, [AssignPartition 5 1; AssignPartition 6 1].

(** ** More file-scale consume operations *)

(** [hash_consume_fasta_and_tag], of the counting table: its [try] has a
    handler for [_khmer_signal] only. *)
Definition hash_consume_fasta_and_tag (counting : engine)
    (args : list PyObject) (w : interp) : crossing (Z * Z) * interp :=
  match PyArg_ParseTuple_s_opt_O args with
  | inl e => (Returned (PyNULL (Some e)), set_error (Some e) w)
  | inr (filename, callback_obj) =>
      match consume_fasta counting filename _report_fn callback_obj w with
      | (Some (_khmer_signal message), _, w') =>
          let '(r, w'') :=
            return_NULL (set_error (Some (PyExc_IOError, message)) w') in
          (Returned r, w'')
      | (Some (khmer_file_exception what), _, w') =>
          (Escaped (khmer_file_exception what), w')
      | (None, c, w') =>
          let '(r, w'') := Py_BuildValue_IK c w' in (Returned r, w'')
      end
  end.

(** [labelhash_consume_partitioned_fasta_and_tag_with_labels]: a
    cancellation is reported with a text of the wrapper's own. *)
Definition labelhash_consume_partitioned_fasta_and_tag_with_labels
    (labelhash : engine) (args : list PyObject) (w : interp)
  : pyresult (Z * Z) * interp :=
  match PyArg_ParseTuple_s_opt_O args with
  | inl e => return_NULL (set_error (Some e) w)
  | inr (filename, callback_obj) =>
      match consume_fasta labelhash filename _report_fn callback_obj w with
      | (Some (_khmer_signal _), _, w') =>
          return_NULL
            (set_error
               (Some (PyExc_IOError,
                      "error parsing in consume_partitioned_fasta_and_tag_with_labels"))
               w')
      | (Some (khmer_file_exception what), _, w') =>
          return_NULL (set_error (Some (PyExc_IOError, what)) w')
      | (None, c, w') => Py_BuildValue_IK c w'
      end
  end.

(** ** Lists built in loops *)

(** Format unit [I]: an [unsigned int], taken without overflow check. *)
Definition convert_I (o : PyObject) : PyErr + Z :=
  match o with
  | PyInt v | PyLong v => inr (v mod 2 ^ 32)
  | _ => inl (PyExc_TypeError, "an integer is required")
  end.

(** [PyArg_ParseTuple(args, "|I", &x)]. *)
Definition PyArg_ParseTuple_opt_I (args : list PyObject) (x : Z) : PyErr + Z :=
  match args with
  | [] => inr x
  | [o] => convert_I o
  | _ => inl bad_arguments
  end.

Record khmer_KSubsetPartitionObject := mkKSubsetPartition {
  subset : option addr
}.

Section PartitionSizes.
(** [subset_p->partition_sizes(cm, n_unassigned)]: the map from partition
    to size, in the order its iterator walks it, and the number of
    unassigned tags. [Py_BuildValue("II", ...)] gives [None] for [NULL]. *)
Variable partition_sizes : SubsetPartition → list (Z * Z) * Z.
Variable Py_BuildValue_II : Z * Z → option PyObject.

(** The first loop of [subset_partition_sizes]: [i] counts the partitions
    of at least [min_size]. *)
Fixpoint count_sizes (cm : list (Z * Z)) (min_size i : Z) : Z :=
  match cm with
  | [] => i
  | mi :: rest =>
      count_sizes rest min_size
        (if min_size <=? mi.2 then (i + 1) mod 2 ^ 32 else i)
  end.

(** The second loop: [PyList_SET_ITEM(x, i, tup)] stores into slot [i]
    with no bounds check; a slot keeps [NULL] when the tuple could not be
    built. The result is [None] when a store falls outside the list. *)
Fixpoint fill_sizes (cm : list (Z * Z)) (min_size i : Z)
    (x : list (option PyObject)) : option (list (option PyObject)) :=
  match cm with
  | [] => Some x
  | mi :: rest =>
      if min_size <=? mi.2
      then
        match Py_BuildValue_II mi with
        | Some tup =>
            if i <? Z.of_nat (length x)
            then fill_sizes rest min_size ((i + 1) mod 2 ^ 32)
                            (<[Z.to_nat i := Some tup]> x)
            else None
        | None => fill_sizes rest min_size ((i + 1) mod 2 ^ 32) x
        end
      else fill_sizes rest min_size i x
  end.

(** [subset_partition_sizes]; [alloc_ok] tells whether [PyList_New]
    succeeds. The result is [None] when [me->subset] does not point at a
    partitioning engine or a store falls outside the list. *)
Definition subset_partition_sizes (m : native)
    (me : khmer_KSubsetPartitionObject) (args : list PyObject)
    (alloc_ok : bool)
  : option (pyresult (list (option PyObject) * Z)) :=
  match PyArg_ParseTuple_opt_I args 0 with
  | inl e => Some (PyNULL (Some e))
  | inr min_size =>
      match deref_SubsetPartition m (subset me) with
      | None => None
      | Some subset_p =>
          let '(cm, n_unassigned) := partition_sizes subset_p in
          let i := count_sizes cm min_size 0 in
          if negb alloc_ok
          then Some (PyNULL (Some (PyExc_MemoryError, "out of memory")))
          else
            match fill_sizes cm min_size 0 (replicate (Z.to_nat i) None) with
            | Some x => Some (PyReturn (x, n_unassigned))
            | None => None
            end
      end
  end.

End PartitionSizes.

Section TagsAndPositions.
(** [KMerIterator kmers(seq, k)]: the hashes of the k-mers of [seq], in
    the order [next()] gives them. *)
Variable KMerIterator : string → Z → list Z.

(** The loop of [hash_get_tags_and_positions]: [pos] is an [unsigned
    int]; positions and tags are pushed on two vectors. *)
Fixpoint scan_tags (kmers : list Z) (all_tags : gset Z) (pos : Z)
    (posns tags : list Z) : list Z * list Z :=
  match kmers with
  | [] => (posns, tags)
  | kmer :: rest =>
      if bool_decide (kmer ∈ all_tags)
      then scan_tags rest all_tags ((pos + 1) mod 2 ^ 32)
                     (posns ++ [pos]) (tags ++ [kmer])
      else scan_tags rest all_tags ((pos + 1) mod 2 ^ 32) posns tags
  end.

(** The loop that builds the result: item [i] is made of [posns[i]] and
    [tags[i]], for [i] below [posns.size()]; reading a vector outside its
    bounds is undefined. *)
Fixpoint build_pairs (n : nat) (i : nat) (posns tags : list Z)
  : option (list (Z * Z)) :=
  match n with
  | O => Some []
  | S n' =>
      match posns !! i, tags !! i, build_pairs n' (S i) posns tags with
      | Some p, Some t, Some rest => Some ((p, t) :: rest)
      | _, _, _ => None
      end
  end.

(** [hash_get_tags_and_positions]; [k] and [all_tags] are the k-mer size
    and the tag set of [me->counting]. *)
Definition hash_get_tags_and_positions (k : Z) (all_tags : gset Z)
    (args : list PyObject) : option (pyresult (list (Z * Z))) :=
  match PyArg_ParseTuple_s args with
  | inl e => Some (PyNULL (Some e))
  | inr seq =>
      let '(posns, tags) := scan_tags (KMerIterator seq k) all_tags 1 [] [] in
      match build_pairs (length posns) 0 posns tags with
      | Some posns_list => Some (PyReturn posns_list)
      | None => None
      end
  end.

End TagsAndPositions.

(** ** Queries on sequences *)

(** The C string a byte string is read as: it ends before the first NUL. *)
Fixpoint c_str (s : string) : string :=
  match s with
  | EmptyString => EmptyString
  | String c rest =>
      if Ascii.eqb c Ascii.zero then EmptyString else String c (c_str rest)
  end.

Definition strlen (s : string) : Z := Z.of_nat (String.length (c_str s)).

Section TableQueries.
(** The engine of the table: its k-mer size and the two overloads of
    [get_count], on a table position and on a k-mer. Their results are
    [BoundedCounterType] values, which the conversions to [unsigned long]
    and [long] on the way out leave as they are. *)
Variable ksize_of_table : Z.
Variable get_count_at : Z → Z.
Variable get_count_of : string → Z.

(** [hash_get], of the counting table. [PyInt_Check] holds of the int
    objects only, as in the table constructors, where longs are tested
    for first. *)
Definition hash_get (args : list PyObject) : pyresult Z :=
  match PyArg_ParseTuple_O args with
  | inl e => PyNULL (Some e)
  | inr arg =>
      match arg with
      | PyInt pos => PyReturn (get_count_at (pos mod 2 ^ 32))
      | PyBytes s =>
          if negb (strlen s =? ksize_of_table)
          then PyNULL (Some (PyExc_ValueError,
                 "k-mer size must equal the counting table k-mer size"))
          else PyReturn (get_count_of (c_str s))
      | _ => PyReturn 0
      end
  end.

(** [hashbits_get], of the presence table. *)
Definition hashbits_get (args : list PyObject) : pyresult Z :=
  match PyArg_ParseTuple_O args with
  | inl e => PyNULL (Some e)
  | inr arg =>
      match arg with
      | PyInt pos => PyReturn (get_count_at (pos mod 2 ^ 32))
      | PyBytes s =>
          if strlen s <? ksize_of_table
          then PyNULL (Some (PyExc_ValueError,
                 "string length must equal the presence table k-mer size"))
          else PyReturn (get_count_of (c_str s))
      | _ => PyNULL (Some (PyExc_ValueError, "must pass in an int or string"))
      end
  end.

End TableQueries.

(** Format unit [H]: an [unsigned short], taken without overflow check. *)
Definition convert_H (o : PyObject) : PyErr + Z :=
  match o with
  | PyInt v | PyLong v => inr (v mod 2 ^ 16)
  | _ => inl (PyExc_TypeError, "an integer is required")
  end.

(** [PyArg_ParseTuple(args, "sI", ...)] and [PyArg_ParseTuple(args, "sH",
    ...)]. *)
Definition PyArg_ParseTuple_sI (args : list PyObject) : PyErr + (string * Z) :=
  match args with
  | [PyBytes s; o] =>
      match convert_I o with
      | inl e => inl e
      | inr x => inr (s, x)
      end
  | _ => inl bad_arguments
  end.

Definition PyArg_ParseTuple_sH (args : list PyObject) : PyErr + (string * Z) :=
  match args with
  | [PyBytes s; o] =>
      match convert_H o with
      | inl e => inl e
      | inr x => inr (s, x)
      end
  | _ => inl bad_arguments
  end.

(** [PyBytes_FromStringAndSize(v, len)] for an [unsigned long] [len]: the
    size parameter is signed, and for a negative size the host returns
    [NULL] with an exception of its own ([Some None] here). Otherwise
    [len] bytes are copied from [v]; the buffer of a byte string ends with
    a NUL, and reading beyond that is undefined ([None]). *)
Definition PyBytes_FromStringAndSize (v : string) (len : Z)
  : option (option string) :=
  let size := if len <? 2 ^ 63 then len else len - 2 ^ 64 in
  if size <? 0 then Some None
  else if size <=? Z.of_nat (String.length v) + 1
  then Some (Some (String.substring 0 (Z.to_nat size)
                     (v ++ String Ascii.zero EmptyString)))
  else None.

Section Trimming.
(** [trim_on_abundance] and [trim_below_abundance] of the engine: the
    sequence and a [BoundedCounterType] threshold give the length to
    keep, an [unsigned long]. *)
Variable trim_on_abundance : string → Z → Z.
Variable trim_below_abundance : string → Z → Z.
(** The exception the host sets when it refuses a negative size. *)
Variable negative_size : PyErr.

(** [count_trim_on_abundance]. *)
Definition count_trim_on_abundance (args : list PyObject)
  : option (pyresult (string * Z)) :=
  match PyArg_ParseTuple_sI args with
  | inl e => Some (PyNULL (Some e))
  | inr (seq, min_count_i) =>
      let min_count := min_count_i mod 2 ^ 16 in
      let trim_at := trim_on_abundance seq min_count mod 2 ^ 64 in
      match PyBytes_FromStringAndSize seq trim_at with
      | Some (Some trim_seq) => Some (PyReturn (trim_seq, trim_at))
      | Some None => Some (PyNULL (Some negative_size))
      | None => None
      end
  end.

(** [count_trim_below_abundance]. *)
Definition count_trim_below_abundance (args : list PyObject)
  : option (pyresult (string * Z)) :=
  match PyArg_ParseTuple_sH args with
  | inl e => Some (PyNULL (Some e))
  | inr (seq, max_count_i) =>
      let max_count := max_count_i in
      let trim_at := trim_below_abundance seq max_count mod 2 ^ 64 in
      match PyBytes_FromStringAndSize seq trim_at with
      | Some (Some trim_seq) => Some (PyReturn (trim_seq, trim_at))
      | Some None => Some (PyNULL (Some negative_size))
      | None => None
      end
  end.

End Trimming.

(** [PyArg_ParseTuple(args, "s|iOO", &seq, &r, &o1, &o2)] with [r]
    initially 0 and the objects initially [NULL]. *)
Definition PyArg_ParseTuple_s_opt_iOO (args : list PyObject)
  : PyErr + (string * Z * option PyObject * option PyObject) :=
  match args with
  | [PyBytes s] => inr (s, 0, None, None)
  | PyBytes s :: r_o :: rest =>
      match convert_i r_o with
      | inl e => inl e
      | inr r =>
          match rest with
          | [] => inr (s, r, None, None)
          | [o1] => inr (s, r, Some o1, None)
          | [o1; o2] => inr (s, r, Some o1, Some o2)
          | _ => inl bad_arguments
          end
      end
  | _ => inl bad_arguments
  end.

Section Sweeps.
(** The host's truth test, and of the label table: its k-mer size, its
    tag density and the sweep for tags, which gives the tagged k-mers it
    found in the order of the set. *)
Variable PyObject_IsTrue : PyObject → bool.
Variable ksize_of_table : Z.
Variable _get_tag_density : Z.
Variable sweep_for_tags : string → Z → bool → bool → list Z.

(** [labelhash_sweep_tag_neighborhood]. *)
Definition labelhash_sweep_tag_neighborhood (args : list PyObject)
    (alloc_ok : bool) : pyresult (list Z) :=
  match PyArg_ParseTuple_s_opt_iOO args with
  | inl e => PyNULL (Some e)
  | inr (seq, r, break_on_stop_tags_o, stop_big_traversals_o) =>
      let range := (2 * _get_tag_density + 1) mod 2 ^ 32 in
      let range := if 0 <=? r then r else range in
      let break_on_stop_tags :=
        match break_on_stop_tags_o with
        | Some o => PyObject_IsTrue o
        | None => false
        end in
      let stop_big_traversals :=
        match stop_big_traversals_o with
        | Some o => PyObject_IsTrue o
        | None => false
        end in
      if strlen seq <? ksize_of_table
      then PyNULL (Some (PyExc_ValueError,
             "string length must >= the hashtable k-mer size"))
      else
        let tagged_kmers :=
          sweep_for_tags seq range break_on_stop_tags stop_big_traversals in
        if negb alloc_ok
        then PyNULL (Some (PyExc_MemoryError, "out of memory"))
        else PyReturn tagged_kmers
  end.

End Sweeps.

(** ** Counting k-mers by position *)

Definition LONG_MIN : Z := - 2 ^ 63.
Definition LONG_MAX : Z := 2 ^ 63 - 1.

(** Format unit [l]: a C [long]. *)
Definition convert_l (o : PyObject) : PyErr + Z :=
  match o with
  | PyInt v | PyLong v =>
      if bool_decide (LONG_MIN ≤ v ≤ LONG_MAX) then inr v
      else inl (PyExc_OverflowError, "value does not fit in a C long")
  | _ => inl (PyExc_TypeError, "an integer is required")
  end.

(** [PyArg_ParseTuple(args, "sli|O", ...)]. *)
Definition PyArg_ParseTuple_sli_opt_O (args : list PyObject)
  : PyErr + (string * Z * Z * option PyObject) :=
  match args with
  | PyBytes s :: l_o :: i_o :: rest =>
      match convert_l l_o with
      | inl e => inl e
      | inr l =>
          match convert_i i_o with
          | inl e => inl e
          | inr i =>
              match rest with
              | [] => inr (s, l, i, None)
              | [o] => inr (s, l, i, Some o)
              | _ => inl bad_arguments
              end
          end
      end
  | _ => inl bad_arguments
  end.

Section CountByPosition.
(** [fasta_count_kmers_by_position] of the engine, for a file, a maximal
    read length and a count limit: the script it follows while reading,
    and the array of counters it returns. *)
Variable fasta_count_kmers_by_position
  : string → Z → Z → list engine_step * list Z.

(** [hash_fasta_count_kmers_by_position]: the call of the engine is in no
    [try] block. [alloc_ok] tells whether [PyList_New] succeeds; reading
    the array outside its bounds is undefined ([None]). *)
Definition hash_fasta_count_kmers_by_position (args : list PyObject)
    (alloc_ok : bool) (w : interp) : option (crossing (list Z) * interp) :=
  match PyArg_ParseTuple_sli_opt_O args with
  | inl e => Some (Returned (PyNULL (Some e)), set_error (Some e) w)
  | inr (inputfile, max_read_len_long, limit_by_count_int, callback_obj) =>
      if (max_read_len_long <? 0) || (2 ^ 32 <=? max_read_len_long)
      then
        let e := (PyExc_ValueError,
                  "The 2nd argument must be positive and less than 2^32") in
        Some (Returned (PyNULL (Some e)), set_error (Some e) w)
      else if (limit_by_count_int <? 0) || (2 ^ 16 <=? limit_by_count_int)
      then
        let e := (PyExc_ValueError,
                  "The 3rd argument must be positive and less than 2^16") in
        Some (Returned (PyNULL (Some e)), set_error (Some e) w)
      else
        let max_read_len := max_read_len_long mod 2 ^ 32 in
        let '(script, counts) :=
          fasta_count_kmers_by_position inputfile max_read_len
            (limit_by_count_int mod 2 ^ 16) in
        match engine_run script _report_fn callback_obj (mkCounts 0 0) w with
        | (Some exc, _, w') => Some (Escaped exc, w')
        | (None, _, w') =>
            if negb alloc_ok
            then
              let e := (PyExc_MemoryError, "out of memory") in
              Some (Returned (PyNULL (Some e)), set_error (Some e) w')
            else
              match mapM (λ i, counts !! i) (seq 0 (Z.to_nat max_read_len)) with
              | Some x => Some (Returned (PyReturn x), w')
              | None => None
              end
        end
  end.

End CountByPosition.

(** ** The size distribution of a partitioning engine *)

(** How [hashbits_subset_partition_size_distribution] is left: with the
    list and the number of unassigned tags, with [NULL], or by its
    [throw khmer_exception()]. *)
Inductive distribution_result :=
  | DistributionReturned (x : list (option PyObject)) (n_unassigned : Z)
  | DistributionNULL (exc : option PyErr)
  | DistributionThrown.

Section SizeDistribution.
(** [subset_p->partition_size_distribution(d, n_unassigned)]: the
    distribution in the order its iterator walks it, and the number of
    unassigned tags. [Py_BuildValue("KK", ...)] gives [None] for [NULL]. *)
Variable partition_size_distribution : SubsetPartition → list (Z * Z) * Z.
Variable Py_BuildValue_KK : Z * Z → option PyObject.

(** The loop over the distribution, with its [unsigned int] index: [Some
    None] when a value could not be built, [None] when a store falls
    outside the list. *)
Fixpoint fill_distribution (d : list (Z * Z)) (i : Z)
    (x : list (option PyObject))
  : option (option (Z * list (option PyObject))) :=
  match d with
  | [] => Some (Some (i, x))
  | di :: rest =>
      match Py_BuildValue_KK di with
      | None => Some None
      | Some value =>
          if i <? Z.of_nat (length x)
          then fill_distribution rest ((i + 1) mod 2 ^ 32)
                                 (<[Z.to_nat i := Some value]> x)
          else None
      end
  end.

(** [hashbits_subset_partition_size_distribution]; [alloc_ok] tells
    whether [PyList_New] succeeds. The pointer is taken from the capsule
    and used at once: the result is [None] when it does not point at a
    partitioning engine. *)
Definition hashbits_subset_partition_size_distribution (m : native)
    (args : list PyObject) (alloc_ok : bool) : option distribution_result :=
  match PyArg_ParseTuple_O args with
  | inl e => Some (DistributionNULL (Some e))
  | inr subset_obj =>
      let subset_p :=
        (PyCapsule_GetPointer subset_obj "khmer.SubsetPartition").1 in
      match deref_SubsetPartition m subset_p with
      | None => None
      | Some sp =>
          let '(d, n_unassigned) := partition_size_distribution sp in
          if negb alloc_ok
          then Some (DistributionNULL (Some (PyExc_MemoryError, "out of memory")))
          else
            match fill_distribution d 0 (replicate (length d) None) with
            | None => None
            | Some None =>
                Some (DistributionNULL
                        (Some (PyExc_MemoryError, "out of memory")))
            | Some (Some (i, x)) =>
                if negb (i =? Z.of_nat (length d))
                then Some DistributionThrown
                else Some (DistributionReturned x n_unassigned)
            end
      end
  end.

End SizeDistribution.

(** ** Tag searches and their handles *)

Section FindAllTags.
(** [_hash(kmer_s, k, kmer_f, kmer_r)] gives the hash of a k-mer with its
    forward and reverse parts, and [partition->find_all_tags(kmer_f,
    kmer_r, tagged_kmers, all_tags)] the tags it collects. *)
Variable _hash : string → Z → Z * Z * Z.
Variable find_all_tags : SubsetPartition → Z → Z → gset Z → list Z.

(** [hashbits_find_all_tags]. [tags] holds the tag set [all_tags] of each
    table, by the address of the table; [add_kmer_to_tags] puts the k-mer
    into the set of the table searched. The result is [None] when
    [me->hashbits] does not point at a table. *)
Definition hashbits_find_all_tags (m : native) (tags : gmap addr (gset Z))
    (me : khmer_KHashbitsObject) (args : list PyObject)
  : option (pyresult PyObject * native * gmap addr (gset Z)) :=
  match PyArg_ParseTuple_s args with
  | inl e => Some (PyNULL (Some e), m, tags)
  | inr kmer_s =>
      match hashbits me, deref_Hashbits m (hashbits me) with
      | Some table, Some hb =>
          if negb (strlen kmer_s =? ksize hb)
          then Some (PyNULL (Some (PyExc_ValueError,
                       "k-mer size must equal the k-mer size of the presence table")),
                     m, tags)
          else
            let '(kmer, kmer_f, kmer_r) := _hash kmer_s (ksize hb) in
            let all_tags := default ∅ (tags !! table) in
            let ppi := fresh (dom (objects m)) in
            let tagged_kmers :=
              find_all_tags (partition hb) kmer_f kmer_r all_tags in
            Some (PyReturn (PyCapsule (Some ppi) "khmer.pre_partition_info"
                                      free_pre_partition_info),
                  mkNative
                    (<[ppi := N_pre_partition_info kmer tagged_kmers]>
                       (objects m))
                    (files m),
                  <[table := {[ kmer ]} ∪ all_tags]> tags)
      | _, _ => None
      end
  end.

End FindAllTags.

(* ================================================================== *)
(** * Part II: properties                                              *)
(* ================================================================== *)

(** Unfolds one call of the reporting callback. *)
Ltac run_report_fn :=
  unfold _report_fn, mbind, M_bind, mret, M_ret, throw, PyErr_CheckSignals,
    get_callback_obj, Py_BuildValue_sKK, PyObject_Call, PyErr_Occurred,
    set_error;
  cbn.

(** ** Iterating a parser *)

Section StreamIteration.
Context {P : Type} `{IParser P}.

Lemma pull_reads_complete (k : nat) (p : P) :
  is_complete p = true → pull_reads k p = (replicate k Ends, p).
Proof.
  intros Hp. induction k as [|k IH]; [reflexivity|].
  cbn [pull_reads]. unfold _ReadParser_iternext. rewrite Hp, IH. reflexivity.
Qed.

Lemma pull_reads_next (n : nat) (p p' : P) (r : Read) :
  is_complete p = false →
  imprint_next_read p = (inr r, p') →
  pull_reads (S n) p = (Yields r :: (pull_reads n p').1, (pull_reads n p').2).
Proof.
  intros Hp Hnext. cbn [pull_reads]. unfold _ReadParser_iternext.
  rewrite Hp, Hnext. by destruct (pull_reads n p').
Qed.

(** C1. From a parser that is to deliver N well-formed records, N + k
    pulls of [_ReadParser_iternext] yield exactly these records in input
    order and then, on each of the k further pulls, the normal end of the
    iteration ([NULL] with no exception set, never a failure); the parser
    is then complete, and a pull on a complete parser changes nothing. *)
Theorem C1_parser_yields_records_then_ends (p : P) (rs : list Read)
    (k : nat) :
  delivers p rs →
  (pull_reads (length rs + k) p).1 = (Yields <$> rs) ++ replicate k Ends
  ∧ is_complete (pull_reads (length rs + k) p).2 = true
  ∧ _ReadParser_iternext (pull_reads (length rs + k) p).2 =
      (PyNULL None, (pull_reads (length rs + k) p).2).
Proof.
  induction 1 as [p Hp | p p' r rs Hp Hnext _ IH].
  - cbn [length Nat.add]. rewrite (pull_reads_complete k p Hp). cbn.
    unfold _ReadParser_iternext. by rewrite Hp.
  - cbn [length Nat.add]. rewrite (pull_reads_next _ p p' r Hp Hnext).
    destruct IH as (-> & ? & ?). done.
Qed.

End StreamIteration.

Lemma stream_delivers pairs (rs : list Read) :
  delivers (H := stream_IParser pairs) (WellFormed <$> rs) rs.
Proof.
  induction rs as [|r rs IH].
  - by apply delivers_nil.
  - by eapply delivers_cons.
Qed.

Lemma C1_parser_yields_records_then_ends_witness :
  let p := [WellFormed (mkRead "r1" "ACGT" "" ""); WellFormed (mkRead "r2" "GGCA" "" "")] in
  let rs := [mkRead "r1" "ACGT" "" ""; mkRead "r2" "GGCA" "" ""] in
  (pull_reads (H := empty_stream) (length rs + 3) p).1 =
    (Yields <$> rs) ++ replicate 3 Ends
  ∧ is_complete (IParser := empty_stream)
      (pull_reads (H := empty_stream) (length rs + 3) p).2 = true
  ∧ _ReadParser_iternext (H := empty_stream)
      (pull_reads (H := empty_stream) (length rs + 3) p).2 =
      (PyNULL None, (pull_reads (H := empty_stream) (length rs + 3) p).2).
Proof.
  apply (C1_parser_yields_records_then_ends (H := empty_stream)).
  eapply delivers_cons; [reflexivity | reflexivity |].
  eapply delivers_cons; [reflexivity | reflexivity |].
  apply delivers_nil. reflexivity.
Defined.

(** A malformed record surfaces as [IOError], and the iteration goes on
    to its end. *)
Example malformed_record_fails :
  ∃ text,
    (pull_reads (H := empty_stream) 3
       [WellFormed (mkRead "r1" "ACGT" "" ""); Malformed "bad record"]).1 =
    [Yields (mkRead "r1" "ACGT" "" ""); Fails (PyExc_IOError, text); Ends].
Proof. by eexists. Qed.

(** ** Pulling from a pair iterator *)

Section PairIteration.
Context {P : Type} `{IParser P}.

Lemma ReadPairIterator_pull_outcome (parser : P) (mode : Z) :
  (is_complete parser = true →
   ReadPairIterator_pull parser mode = (PyNULL None, parser))
  ∧ (is_complete parser = false →
     iternext_outcome (ReadPairIterator_pull parser mode).1 =
       pair_pull_by_parser (imprint_next_read_pair parser (to_uint8 mode)).1
     ∧ (ReadPairIterator_pull parser mode).2 =
         (imprint_next_read_pair parser (to_uint8 mode)).2).
Proof.
  unfold ReadPairIterator_pull.
  destruct (is_complete parser); [by split|]. split; [done|]. intros _.
  destruct (imprint_next_read_pair parser (to_uint8 mode))
    as [[[]|[read1 read2]] p']; by split.
Qed.

Lemma iternext_defined (h : heap P) (myself : addr)
    (it : khmer_ReadPairIterator_Object) (par : khmer_ReadParser_Object P) :
  iterators h !! myself = Some it →
  parsers h !! parent it = Some par →
  _ReadPairIterator_iternext h myself =
    Some ((ReadPairIterator_pull (parser par) (pair_mode it)).1,
          mkHeap (<[parent it :=
                      mkReadParser (ob_refcnt par)
                        (ReadPairIterator_pull (parser par) (pair_mode it)).2]>
                    (parsers h))
                 (iterators h)).
Proof.
  intros Hit Hpar. unfold _ReadPairIterator_iternext. rewrite Hit, Hpar.
  by destruct (ReadPairIterator_pull (parser par) (pair_mode it)).
Qed.

(** C6, as the code has it. A pull on a live pair iterator has a result,
    which the parser settles. When the parser is complete the pull is the
    normal end and the parser is not asked. Otherwise the parser is asked
    once, with the stored mode as an 8-bit value, and what it answers
    decides what the host sees: a pair gives that pair, no more reads give
    the normal end, and each of the three exceptions gives its own failure:
    [ValueError] for an unknown pairing mode, [IOError] for an invalid read
    pair and [IOError] again for a stream read error. The three failure
    values are pairwise different, but the last two have the same class
    and differ in their message only. *)
Theorem C6_pair_pull_outcomes (h : heap P) (myself : addr)
    (it : khmer_ReadPairIterator_Object) (par : khmer_ReadParser_Object P) :
  iterators h !! myself = Some it →
  parsers h !! parent it = Some par →
  ∃ r h',
    _ReadPairIterator_iternext h myself = Some (r, h')
    ∧ iterators h' = iterators h
    ∧ (if is_complete (parser par)
       then iternext_outcome r = Ends ∧ h' = h
       else
         let answer :=
           imprint_next_read_pair (parser par) (to_uint8 (pair_mode it)) in
         iternext_outcome r = pair_pull_by_parser answer.1
         ∧ parsers h' =
             <[parent it := mkReadParser (ob_refcnt par) answer.2]> (parsers h))
    ∧ NoDup [UnknownPairingMode_failure; InvalidReadPair_failure;
             StreamReadError_failure]
    ∧ failure_class UnknownPairingMode_failure = PyExc_ValueError
    ∧ failure_class InvalidReadPair_failure = PyExc_IOError
    ∧ failure_class StreamReadError_failure = PyExc_IOError.
Proof.
  intros Hit Hpar. eexists _, _.
  split; [by apply iternext_defined|]. split; [done|].
  destruct (ReadPairIterator_pull_outcome (parser par) (pair_mode it))
    as [Hpull Hout].
  split.
  - destruct (is_complete (parser par)) eqn:Hdone.
    + rewrite Hpull by done. cbn. split; [done|].
      destruct par as [refcnt p]. cbn.
      rewrite insert_id by done. by destruct h.
    + cbn zeta. destruct (Hout eq_refl) as [Hr Hp].
      split; [exact Hr|]. by rewrite Hp.
  - split; [|done].
    unfold UnknownPairingMode_failure, InvalidReadPair_failure,
      StreamReadError_failure.
    rewrite !NoDup_cons, !elem_of_cons, !elem_of_nil.
    repeat split; try apply NoDup_nil_2; intuition discriminate.
Qed.

End PairIteration.

Lemma C6_pair_pull_outcomes_witness :
  ∃ r h',
    _ReadPairIterator_iternext (H := unpaired_stream) one_record_iterator
      0%nat = Some (r, h')
    ∧ iterators h' = iterators one_record_iterator
    ∧ (iternext_outcome r = Fails InvalidReadPair_failure
       ∧ parsers h' =
           <[0%nat := mkReadParser 2 [WellFormed (mkRead "r1" "ACGT" "" "")]]>
             (parsers one_record_iterator))
    ∧ NoDup [UnknownPairingMode_failure; InvalidReadPair_failure;
             StreamReadError_failure]
    ∧ failure_class UnknownPairingMode_failure = PyExc_ValueError
    ∧ failure_class InvalidReadPair_failure = PyExc_IOError
    ∧ failure_class StreamReadError_failure = PyExc_IOError.
Proof.
  exact (C6_pair_pull_outcomes (H := unpaired_stream) one_record_iterator
           0%nat (mkReadPairIterator 0%nat PAIR_MODE_ERROR_ON_UNPAIRED)
           (mkReadParser 2 [WellFormed (mkRead "r1" "ACGT" "" "")])
           eq_refl eq_refl).
Defined.

(** C6 does not hold as stated: the failures for an invalid read pair and
    for a stream read error, two of the three kinds, reach the host with
    one and the same class; a host that catches by class cannot tell them
    apart. *)
Lemma C6_counterexample :
  ∃ e1 e2 h1 h2,
    _ReadPairIterator_iternext (H := unpaired_stream) one_record_iterator
      0%nat = Some (PyNULL (Some e1), h1)
    ∧ _ReadPairIterator_iternext (H := unreadable_stream) one_record_iterator
        0%nat = Some (PyNULL (Some e2), h2)
    ∧ (imprint_next_read_pair (IParser := unpaired_stream)
         [WellFormed (mkRead "r1" "ACGT" "" "")] 2).1
      = inl PairInvalidReadPair
    ∧ (imprint_next_read_pair (IParser := unreadable_stream)
         [WellFormed (mkRead "r1" "ACGT" "" "")] 2).1
      = inl PairStreamReadError
    ∧ failure_class e1 = failure_class e2.
Proof. by eexists _, _, _, _. Qed.

(** ** The pairing mode of a pair iterator *)

Section PairMode.
Context {P : Type} `{IParser P}.
#[local] Existing Instance logged_IParser.

(** One pull from a logging parser: a complete parser is left alone, and
    otherwise the parser is asked exactly once, with the 8-bit mode. *)
Lemma logged_pull_log (parser : P * list Z) (mode : Z) :
  (ReadPairIterator_pull parser mode).2 =
    if is_complete parser.1 then parser
    else ((imprint_next_read_pair parser.1 (to_uint8 mode)).2,
          parser.2 ++ [to_uint8 mode]).
Proof.
  unfold ReadPairIterator_pull. cbn.
  destruct (is_complete parser.1); [done|].
  destruct (imprint_next_read_pair parser.1 (to_uint8 mode)) as [[[]|the_pair] p'];
    done.
Qed.

Lemma pull_pairs_log (n : nat) (self it : addr) (mode : Z) :
  ∀ (h : heap (P * list Z)) (par : khmer_ReadParser_Object (P * list Z)),
    iterators h !! it = Some (mkReadPairIterator self mode) →
    parsers h !! self = Some par →
    ∃ outs h2 par2,
      pull_pairs n h it = Some (outs, h2)
      ∧ length outs = n
      ∧ iterators h2 = iterators h
      ∧ parsers h2 !! self = Some par2
      ∧ (parser par2).2 =
          (parser par).2 ++
          replicate (pulls_asking_parser n (parser par).1 (to_uint8 mode))
                    (to_uint8 mode).
Proof.
  induction n as [|n IH]; intros h par Hit Hpar.
  - exists [], h, par. cbn. by rewrite app_nil_r.
  - cbn [pull_pairs].
    rewrite (iternext_defined h it _ par Hit Hpar). cbn [parent pair_mode].
    set (p1 := (ReadPairIterator_pull (parser par) mode).2).
    set (h1 := mkHeap (<[self := mkReadParser (ob_refcnt par) p1]> (parsers h))
                      (iterators h)).
    destruct (IH h1 (mkReadParser (ob_refcnt par) p1)) as
      (outs & h2 & par2 & Hpull & Hlen & Hits & Hpar2 & Hlog).
    { exact Hit. }
    { cbn. apply lookup_insert_eq. }
    rewrite Hpull. cbn [parser] in Hlog.
    exists (iternext_outcome (ReadPairIterator_pull (parser par) mode).1 :: outs),
      h2, par2.
    split; [done|]. split; [by cbn; rewrite Hlen|]. split; [done|].
    split; [done|].
    rewrite Hlog. subst p1. rewrite (logged_pull_log (parser par) mode).
    cbn [pulls_asking_parser].
    destruct (is_complete (parser par).1) eqn:Hdone.
    + destruct n; cbn [pulls_asking_parser]; [done|]. by rewrite Hdone.
    + cbn [fst snd replicate]. by rewrite <- app_assoc.
Qed.

(** C10. An iterator obtained from [iter_read_pairs] with no argument
    stores the pairing mode [ERROR_ON_UNPAIRED]. Any number of pulls on it
    is defined and leaves the stored mode as it is; and every pull that
    finds the parser incomplete asks the parser once, with exactly that
    mode: after [n] pulls the modes the parser has received are the ones it
    had received before followed by one [ERROR_ON_UNPAIRED] for each such
    pull, and nothing else. *)
Theorem C10_default_pairing_mode (h h1 : heap (P * list Z)) (self it : addr) :
  ReadParser_iter_read_pairs h self [] true = Some (PyReturn it, h1) →
  iterators h1 !! it =
    Some (mkReadPairIterator self PAIR_MODE_ERROR_ON_UNPAIRED)
  ∧ ∀ n : nat, ∃ outs h2 par1 par2,
      pull_pairs n h1 it = Some (outs, h2)
      ∧ length outs = n
      ∧ iterators h2 !! it =
          Some (mkReadPairIterator self PAIR_MODE_ERROR_ON_UNPAIRED)
      ∧ parsers h1 !! self = Some par1
      ∧ parsers h2 !! self = Some par2
      ∧ (parser par2).2 =
          (parser par1).2 ++
          replicate
            (pulls_asking_parser n (parser par1).1 PAIR_MODE_ERROR_ON_UNPAIRED)
            PAIR_MODE_ERROR_ON_UNPAIRED.
Proof.
  unfold ReadParser_iter_read_pairs, Py_INCREF. cbn.
  destruct (parsers h !! self) as [obj|] eqn:Hself; [|discriminate].
  intros [= <- <-].
  set (it := fresh (dom (iterators h))).
  set (par1 := mkReadParser (ob_refcnt obj + 1) (parser obj)).
  set (h1 := mkHeap (<[self := par1]> (parsers h))
               (<[it := mkReadPairIterator self PAIR_MODE_ERROR_ON_UNPAIRED]>
                  (iterators h))).
  assert (Hit : iterators h1 !! it =
                Some (mkReadPairIterator self PAIR_MODE_ERROR_ON_UNPAIRED))
    by apply lookup_insert_eq.
  assert (Hpar : parsers h1 !! self = Some par1) by apply lookup_insert_eq.
  split; [exact Hit|].
  intros n.
  destruct (pull_pairs_log n self it PAIR_MODE_ERROR_ON_UNPAIRED h1 par1
              Hit Hpar) as
    (outs & h2 & par2 & Hpull & Hlen & Hits & Hpar2 & Hlog).
  exists outs, h2, par1, par2. rewrite Hits. auto 10.
Qed.

End PairMode.

Lemma C10_default_pairing_mode_witness :
  iterators one_parser_one_iterator !! 0%nat =
    Some (mkReadPairIterator 0%nat PAIR_MODE_ERROR_ON_UNPAIRED)
  ∧ ∀ n : nat, ∃ outs h2 par1 par2,
      pull_pairs (H := logged_IParser (H := unpaired_stream)) n
        one_parser_one_iterator 0%nat = Some (outs, h2)
      ∧ length outs = n
      ∧ iterators h2 !! 0%nat =
          Some (mkReadPairIterator 0%nat PAIR_MODE_ERROR_ON_UNPAIRED)
      ∧ parsers one_parser_one_iterator !! 0%nat = Some par1
      ∧ parsers h2 !! 0%nat = Some par2
      ∧ (parser par2).2 =
          (parser par1).2 ++
          replicate
            (pulls_asking_parser (H := unpaired_stream) n (parser par1).1
               PAIR_MODE_ERROR_ON_UNPAIRED)
            PAIR_MODE_ERROR_ON_UNPAIRED.
Proof.
  exact (C10_default_pairing_mode (H := unpaired_stream) one_parser
           one_parser_one_iterator 0%nat 0%nat eq_refl).
Defined.

(** On a stream that never pairs up, every pull asks the parser: after
    three pulls it has received the default mode three times. *)
Example default_mode_reaches_the_parser :
  ∃ outs h2,
    pull_pairs (H := logged_IParser (H := unpaired_stream)) 3
      one_parser_one_iterator 0%nat = Some (outs, h2)
    ∧ outs = replicate 3 (Fails InvalidReadPair_failure)
    ∧ (parser <$> parsers h2 !! 0%nat) =
        Some ([WellFormed (mkRead "r1" "ACGT" "" "")],
              [PAIR_MODE_ERROR_ON_UNPAIRED; PAIR_MODE_ERROR_ON_UNPAIRED;
               PAIR_MODE_ERROR_ON_UNPAIRED]).
Proof. by eexists _, _. Qed.

(** ** Reference counting between pair iterators and their parser *)

Section Refcounting.
Context {P : Type} `{IParser P}.

Implicit Types (h : heap P) (s : host_state (P := P)).
Implicit Types (its : gmap addr khmer_ReadPairIterator_Object).

Lemma iter_refs_insert_fresh its (i : addr) it (p : addr) :
  its !! i = None →
  size (filter (λ kv, parent kv.2 = p) (<[i := it]> its)) =
  ((if decide (parent it = p) then 1 else 0) +
   size (filter (λ kv, parent kv.2 = p) its))%nat.
Proof.
  intros Hi. rewrite map_filter_insert. cbn.
  destruct (decide (parent it = p)).
  - rewrite map_size_insert_None; [lia|].
    apply map_lookup_filter_None. by left.
  - by rewrite delete_id.
Qed.

Lemma iter_refs_delete its (i : addr) it (p : addr) :
  its !! i = Some it →
  size (filter (λ kv, parent kv.2 = p) its) =
  ((if decide (parent it = p) then 1 else 0) +
   size (filter (λ kv, parent kv.2 = p) (delete i its)))%nat.
Proof.
  intros Hi.
  rewrite <- (insert_delete_id its i it) at 1 by done.
  apply iter_refs_insert_fresh, lookup_delete_eq.
Qed.

Lemma iter_refs_zero its (p : addr) :
  size (filter (λ kv, parent kv.2 = p) its) = 0%nat ↔
  ∀ i it, its !! i = Some it → parent it ≠ p.
Proof.
  rewrite map_size_empty_iff. split.
  - intros Hempty i it Hi Hp.
    assert (filter (λ kv, parent kv.2 = p) its !! i = Some it) as Hf
      by by apply map_lookup_filter_Some.
    rewrite Hempty in Hf. by rewrite lookup_empty in Hf.
  - intros Hnone. apply map_eq. intros i. rewrite lookup_empty.
    apply map_lookup_filter_None.
    destruct (its !! i) as [it|] eqn:Hi; [right|by left].
    intros x [= <-]. by apply (Hnone i).
Qed.

Lemma held_count_insert s' s (p q : addr) (n : nat) :
  held s' = <[p := n]> (held s) →
  held_count s' q = if decide (p = q) then n else held_count s q.
Proof.
  intros Hheld. unfold held_count. rewrite Hheld, lookup_insert.
  by destruct (decide (p = q)).
Qed.

(** No live iterator points at a parser that is not live. *)
Lemma iter_refs_dead s (p : addr) :
  refcounts_ok s → parsers (the_heap s) !! p = None →
  iter_refs (the_heap s) p = 0%nat.
Proof.
  intros (_ & Hparent & _) Hp. apply iter_refs_zero.
  intros i it Hit <-. apply Hparent in Hit as [obj Hobj]. congruence.
Qed.

Lemma held_live s (p : addr) :
  refcounts_ok s → held_count s p ≠ 0%nat →
  ∃ obj, parsers (the_heap s) !! p = Some obj
         ∧ ob_refcnt obj = Z.of_nat (held_count s p + iter_refs (the_heap s) p).
Proof.
  intros (Hcount & _ & Hheld) Hp.
  destruct (parsers (the_heap s) !! p) as [obj|] eqn:Hobj.
  - exists obj. split; [done|]. by apply Hcount.
  - by apply Hheld in Hobj.
Qed.

Lemma iter_refs_same h h' (p : addr) :
  iterators h' = iterators h → iter_refs h' p = iter_refs h p.
Proof. unfold iter_refs. by intros ->. Qed.

(** Rewriting one parser object in place. *)
Lemma refcounts_ok_update s s' (p : addr) obj obj' :
  refcounts_ok s →
  parsers (the_heap s) !! p = Some obj →
  parsers (the_heap s') = <[p := obj']> (parsers (the_heap s)) →
  iterators (the_heap s') = iterators (the_heap s) →
  (∀ q, q ≠ p → held_count s' q = held_count s q) →
  ob_refcnt obj' - Z.of_nat (held_count s' p) =
    ob_refcnt obj - Z.of_nat (held_count s p) →
  0 < ob_refcnt obj' →
  refcounts_ok s'.
Proof.
  intros (Hcount & Hparent & Hheld) Hobj Hps Hits Hother Hcnt Hpos.
  split; [|split].
  - intros q o. rewrite Hps, (iter_refs_same _ _ _ Hits), lookup_insert.
    destruct (decide (p = q)) as [<-|Hne].
    + intros [= <-]. split; [|done].
      destruct (Hcount _ _ Hobj) as [Hc _]. lia.
    + intros Hq. rewrite Hother by done. by apply Hcount.
  - intros i it. rewrite Hits, Hps. intros Hit.
    apply lookup_insert_is_Some'. right. by eapply Hparent.
  - intros q. rewrite Hps, lookup_insert.
    destruct (decide (p = q)) as [<-|Hne]; [done|].
    intros Hq. rewrite Hother by done. by apply Hheld.
Qed.

Lemma refcounts_ok_same s s' :
  refcounts_ok s → the_heap s' = the_heap s → held s' = held s →
  refcounts_ok s'.
Proof.
  unfold refcounts_ok, held_count. by intros Hok -> ->.
Qed.

(** *** The steps preserve the discipline and are defined *)

Lemma step_OpenParser s gp :
  refcounts_ok s → ∃ s', step s (OpenParser gp) = Done s' ∧ refcounts_ok s'.
Proof.
  intros Hok. cbn. destruct gp as [what|p0]; cbn.
  - eexists; split; [done|]. by apply (refcounts_ok_same s).
  - eexists; split; [done|].
    set (self := fresh (dom (parsers (the_heap s)))).
    assert (Hfresh : parsers (the_heap s) !! self = None)
      by apply not_elem_of_dom, is_fresh.
    pose proof (iter_refs_dead s self Hok Hfresh) as Hrefs.
    destruct Hok as (Hcount & Hparent & Hheld).
    pose proof (Hheld _ Hfresh) as Hzero.
    split; [|split]; cbn.
    + intros q o. unfold held_count at 1. cbn.
      rewrite !lookup_insert.
      fold (iter_refs (the_heap s) q).
      destruct (decide (self = q)) as [<-|Hne].
      * intros [= <-]. cbn. unfold iter_refs in Hrefs. rewrite Hzero.
        unfold iter_refs. cbn. rewrite Hrefs. done.
      * apply Hcount.
    + intros i it Hit. apply lookup_insert_is_Some'. right.
      by eapply Hparent.
    + intros q. unfold held_count. cbn. rewrite !lookup_insert.
      destruct (decide (self = q)) as [<-|Hne]; [done|]. apply Hheld.
Qed.

Lemma step_CopyReference s (p : addr) :
  refcounts_ok s →
  step s (CopyReference p) = NotPermitted
  ∨ ∃ s', step s (CopyReference p) = Done s' ∧ refcounts_ok s'.
Proof.
  intros Hok. cbn. case_bool_decide as Hheld; [by left|right].
  destruct (held_live s p Hok Hheld) as (obj & Hobj & Hcnt).
  unfold Py_INCREF. rewrite Hobj. eexists; split; [done|].
  eapply (refcounts_ok_update s _ p obj); try done; cbn.
  - intros q Hq. unfold held_count. cbn. by rewrite lookup_insert_ne.
  - unfold held_count at 1. cbn. rewrite lookup_insert_eq. cbn. lia.
  - lia.
Qed.

Lemma step_DropReference s (p : addr) :
  refcounts_ok s →
  step s (DropReference p) = NotPermitted
  ∨ (∃ s', step s (DropReference p) = Done s' ∧ refcounts_ok s')
  ∨ (step s (DropReference p) = Undefined
     ∧ releases_last_reference s (DropReference p) p).
Proof.
  intros Hok. cbn. case_bool_decide as Hheld; [by left|right].
  destruct (held_live s p Hok Hheld) as (obj & Hobj & Hcnt).
  unfold Py_DECREF, _ReadParser_dealloc, Py_DECREF_native. rewrite Hobj.
  assert (Hother : ∀ s', held s' = <[p := pred (held_count s p)]> (held s) →
                         ∀ q, q ≠ p → held_count s' q = held_count s q).
  { intros s' Hs' q Hq. unfold held_count. by rewrite Hs', lookup_insert_ne. }
  assert (Hat : ∀ s', held s' = <[p := pred (held_count s p)]> (held s) →
                      held_count s' p = pred (held_count s p)).
  { intros s' Hs'. unfold held_count at 1. by rewrite Hs', lookup_insert_eq. }
  case_bool_decide as Hlast.
  - right. split; [done|]. exists obj. split; [done|]. split; [lia|by left].
  - left. eexists; split; [done|].
    eapply (refcounts_ok_update s _ p obj); try done; cbn.
    + by apply Hother.
    + rewrite Hat by done. lia.
    + lia.
Qed.

Lemma refcounts_ok_new_iterator s s' (p i : addr) obj (mode : Z) :
  refcounts_ok s →
  parsers (the_heap s) !! p = Some obj →
  iterators (the_heap s) !! i = None →
  parsers (the_heap s') =
    <[p := mkReadParser (ob_refcnt obj + 1) (parser obj)]> (parsers (the_heap s)) →
  iterators (the_heap s') =
    <[i := mkReadPairIterator p mode]> (iterators (the_heap s)) →
  held s' = held s →
  refcounts_ok s'.
Proof.
  intros (Hcount & Hparent & Hheld) Hobj Hi Hps Hits Hhd.
  assert (Hrefs : ∀ q, iter_refs (the_heap s') q =
            ((if decide (p = q) then 1 else 0) + iter_refs (the_heap s) q)%nat).
  { intros q. unfold iter_refs. rewrite Hits.
    by rewrite (iter_refs_insert_fresh _ _ _ _ Hi). }
  assert (Hhc : ∀ q, held_count s' q = held_count s q).
  { intros q. unfold held_count. by rewrite Hhd. }
  split; [|split].
  - intros q o. rewrite Hps, Hrefs, Hhc, lookup_insert.
    destruct (decide (p = q)) as [<-|Hne].
    + intros [= <-]. cbn. destruct (Hcount _ _ Hobj). lia.
    + apply Hcount.
  - intros j it. rewrite Hits, Hps, lookup_insert.
    destruct (decide (i = j)) as [<-|Hne].
    + intros [= <-]. cbn. rewrite lookup_insert_eq. by eexists.
    + intros Hit. apply lookup_insert_is_Some'. right. by eapply Hparent.
  - intros q. rewrite Hps, Hhc, lookup_insert.
    destruct (decide (p = q)); [done|]. apply Hheld.
Qed.

Lemma step_IterReadPairs s (p : addr) (args : list PyObject) (alloc_ok : bool) :
  refcounts_ok s →
  step s (IterReadPairs p args alloc_ok) = NotPermitted
  ∨ ∃ s', step s (IterReadPairs p args alloc_ok) = Done s' ∧ refcounts_ok s'.
Proof.
  intros Hok. cbn. case_bool_decide as Hheld; [by left|right].
  destruct (held_live s p Hok Hheld) as (obj & Hobj & Hcnt).
  unfold ReadParser_iter_read_pairs.
  destruct (PyArg_ParseTuple_opt_i args PAIR_MODE_ERROR_ON_UNPAIRED)
    as [e|mode].
  { eexists; split; [done|]. by apply (refcounts_ok_same s). }
  destruct alloc_ok; cbn.
  2: { eexists; split; [done|]. by apply (refcounts_ok_same s). }
  unfold Py_INCREF. cbn. rewrite Hobj.
  eexists; split; [done|].
  eapply (refcounts_ok_new_iterator s _ p _ obj mode); try done.
  apply not_elem_of_dom, is_fresh.
Qed.

Lemma step_NextRead s (p : addr) :
  refcounts_ok s →
  step s (NextRead p) = NotPermitted
  ∨ ∃ s', step s (NextRead p) = Done s' ∧ refcounts_ok s'.
Proof.
  intros Hok. cbn. case_bool_decide as Hheld; [by left|right].
  destruct (held_live s p Hok Hheld) as (obj & Hobj & Hcnt).
  unfold ReadParser_tp_iternext. rewrite Hobj.
  destruct (_ReadParser_iternext (parser obj)) as [r parser'].
  eexists; split; [done|].
  eapply (refcounts_ok_update s _ p obj); try done; cbn.
  destruct Hok as (Hcount & _). by apply Hcount in Hobj as [_ ?].
Qed.

Lemma step_NextPair s (i : addr) :
  refcounts_ok s →
  step s (NextPair i) = NotPermitted
  ∨ ∃ s', step s (NextPair i) = Done s' ∧ refcounts_ok s'.
Proof.
  intros Hok. cbn.
  destruct (iterators (the_heap s) !! i) as [it|] eqn:Hit; [right|by left].
  pose proof Hok as (Hcount & Hparent & _).
  destruct (Hparent _ _ Hit) as [par Hpar].
  rewrite (iternext_defined _ _ _ _ Hit Hpar).
  eexists; split; [done|].
  eapply (refcounts_ok_update s _ (parent it) par); try done; cbn.
  by apply Hcount in Hpar as [_ ?].
Qed.


Lemma step_DestroyIterator_live s (i : addr) it par :
  refcounts_ok s →
  iterators (the_heap s) !! i = Some it →
  parsers (the_heap s) !! parent it = Some par →
  if bool_decide (ob_refcnt par = 1)
  then step s (DestroyIterator i) = Undefined
       ∧ releases_last_reference s (DestroyIterator i) (parent it)
  else ∃ s', step s (DestroyIterator i) = Done s'
        ∧ refcounts_ok s'
        ∧ held s' = held s
        ∧ iterators (the_heap s') = delete i (iterators (the_heap s))
        ∧ parsers (the_heap s') =
            <[parent it := mkReadParser (ob_refcnt par - 1) (parser par)]>
              (parsers (the_heap s)).
Proof.
  intros Hok Hit Hpar. cbn. rewrite Hit.
  unfold khmer_ReadPairIterator_dealloc, Py_DECREF, _ReadParser_dealloc,
    Py_DECREF_native.
  rewrite Hit, Hpar.
  pose proof Hok as (Hcount & Hparent & Hheld).
  destruct (Hcount _ _ Hpar) as [Hcnt Hpos].
  set (p := parent it) in *.
  assert (Hrefs : ∀ q, iter_refs (the_heap s) q =
            ((if decide (p = q) then 1 else 0) +
             size (filter (λ kv, parent kv.2 = q)
                     (delete i (iterators (the_heap s)))))%nat).
  { intros q. unfold iter_refs. by rewrite (iter_refs_delete _ _ _ q Hit). }
  pose proof (Hrefs p) as Hrefs_p. rewrite decide_True in Hrefs_p by done.
  destruct (bool_decide (ob_refcnt par - 1 = 0)) eqn:Hlast; cbn.
  - apply bool_decide_eq_true in Hlast.
    rewrite bool_decide_eq_true_2 by lia.
    split; [done|]. exists par. split; [done|]. split; [lia|].
    right. by exists i, it.
  - apply bool_decide_eq_false in Hlast.
    rewrite bool_decide_eq_false_2 by lia.
    eexists; split; [done|]. cbn.
    split; [|done].
    split; [|split]; cbn.
    + intros q o. rewrite lookup_insert.
      destruct (decide (p = q)) as [<-|Hne].
      * intros [= <-]. cbn. change (held_count _ p) with (held_count s p).
        unfold iter_refs in *. cbn [iterators] in *. lia.
      * intros Hq. destruct (Hcount _ _ Hq) as [Hc ?]. split; [|done].
        rewrite Hc, (Hrefs q), decide_False by done. done.
    + intros j itj Hj. apply lookup_insert_is_Some'. right.
      apply lookup_delete_Some in Hj as [_ Hj]. by eapply Hparent.
    + intros q. rewrite lookup_insert.
      destruct (decide (p = q)) as [<-|Hne]; [done|apply Hheld].
Qed.

Lemma step_DestroyIterator s (i : addr) :
  refcounts_ok s →
  step s (DestroyIterator i) = NotPermitted
  ∨ (∃ s', step s (DestroyIterator i) = Done s' ∧ refcounts_ok s')
  ∨ (∃ p, step s (DestroyIterator i) = Undefined
          ∧ releases_last_reference s (DestroyIterator i) p).
Proof.
  intros Hok.
  destruct (iterators (the_heap s) !! i) as [it|] eqn:Hit.
  - right. pose proof Hok as (_ & Hparent & _).
    destruct (Hparent _ _ Hit) as [par Hpar].
    pose proof (step_DestroyIterator_live s i it par Hok Hit Hpar) as Hstep.
    destruct (bool_decide (ob_refcnt par = 1)).
    + right. by exists (parent it).
    + left. destruct Hstep as (s' & ? & ? & _). by exists s'.
  - left. cbn. by rewrite Hit.
Qed.

(** A step from a state that keeps the discipline is not permitted, or
    leads to a state that keeps it, or takes the last reference off a
    parser. *)
Lemma step_preserves s (e : event) :
  refcounts_ok s →
  step s e = NotPermitted
  ∨ (∃ s', step s e = Done s' ∧ refcounts_ok s')
  ∨ (∃ p, step s e = Undefined ∧ releases_last_reference s e p).
Proof.
  intros Hok. destruct e.
  - right; left. by apply step_OpenParser.
  - destruct (step_CopyReference s p Hok); auto.
  - destruct (step_DropReference s p Hok) as [?|[?|?]]; eauto.
  - destruct (step_IterReadPairs s p args alloc_ok Hok); auto.
  - destruct (step_NextRead s p Hok); auto.
  - destruct (step_NextPair s i Hok); auto.
  - by apply step_DestroyIterator.
Qed.

Lemma initial_ok : refcounts_ok (P := P) initial.
Proof.
  split; [|split]; cbn; intros *; rewrite ?lookup_empty; done.
Qed.

Lemma run_preserves (es : list event) :
  ∀ s, refcounts_ok s →
    match run s es with
    | Done s' => refcounts_ok s'
    | NotPermitted => True
    | Undefined =>
        ∃ es1 e es2 s1 p,
          es = es1 ++ e :: es2
          ∧ run s es1 = Done s1
          ∧ refcounts_ok s1
          ∧ step s1 e = Undefined
          ∧ releases_last_reference s1 e p
    end.
Proof.
  induction es as [|e es IH]; intros s Hok; cbn; [done|].
  destruct (step_preserves s e Hok)
    as [-> | [(s' & Hstep & Hok') | (p & Hstep & Hrel)]]; [done| |].
  - rewrite Hstep. specialize (IH s' Hok').
    destruct (run s' es) as [s''| |]; [done..|].
    destruct IH as (es1 & e1 & es2 & s1 & p & -> & Hrun & Hok1 & Hstep1 & Hrel).
    exists (e :: es1), e1, es2, s1, p. cbn. rewrite Hstep. auto.
  - rewrite Hstep. exists [], e, es, s, p. auto.
Qed.

(** The step that takes the last reference off a parser finds no pair
    iterator on that parser, but for the one it may be destroying. *)
Lemma last_reference_has_no_other_iterator s (e : event) (p : addr) :
  refcounts_ok s →
  step s e = Undefined →
  releases_last_reference s e p →
  ∀ j itj, iterators (the_heap s) !! j = Some itj → parent itj = p →
           e = DestroyIterator j.
Proof.
  intros Hok Hstep (par & Hpar & Hone & Hcase) j itj Hj Hparent.
  pose proof Hok as (Hcount & _ & _).
  destruct (Hcount _ _ Hpar) as [Hcnt _].
  destruct Hcase as [-> | (i & it & -> & Hit & Hp)].
  - exfalso. cbn in Hstep. case_bool_decide as Hheld; [discriminate|].
    assert (Hzero : iter_refs (the_heap s) p = 0%nat) by lia.
    exact (proj1 (iter_refs_zero _ _) Hzero j itj Hj Hparent).
  - f_equal. destruct (decide (i = j)) as [|Hne]; [done|exfalso].
    unfold iter_refs in Hcnt.
    rewrite (iter_refs_delete _ _ _ p Hit), decide_True in Hcnt by done.
    assert (Hzero : size (filter (λ kv, parent kv.2 = p)
                            (delete i (iterators (the_heap s)))) = 0%nat)
      by lia.
    apply (proj1 (iter_refs_zero _ _) Hzero j itj); [|done].
    by rewrite lookup_delete_ne.
Qed.

Lemma iter_read_pairs_increments h (self : addr) (args : list PyObject) par :
  parsers h !! self = Some par →
  match PyArg_ParseTuple_opt_i args PAIR_MODE_ERROR_ON_UNPAIRED with
  | inr mode =>
      ∃ it h',
        ReadParser_iter_read_pairs h self args true = Some (PyReturn it, h')
        ∧ iterators h !! it = None
        ∧ iterators h' = <[it := mkReadPairIterator self mode]> (iterators h)
        ∧ parsers h' =
            <[self := mkReadParser (ob_refcnt par + 1) (parser par)]>
              (parsers h)
  | inl e =>
      ReadParser_iter_read_pairs h self args true = Some (PyNULL (Some e), h)
  end.
Proof.
  intros Hpar. unfold ReadParser_iter_read_pairs, Py_INCREF.
  destruct (PyArg_ParseTuple_opt_i args PAIR_MODE_ERROR_ON_UNPAIRED)
    as [e|mode]; cbn; [done|].
  rewrite Hpar. eexists _, _. split; [done|]. cbn.
  split; [apply not_elem_of_dom, is_fresh | done].
Qed.

(** C7. In every interleaving of what the host may do with parsers and
    pair iterators, the code never uses a parser object that is gone: the
    only undefined step a run can meet is the one that takes the last
    reference off a live parser, which runs [_ReadParser_dealloc]; up to
    that step the discipline below is kept, and at that step no pair
    iterator is left on the parser, but for the one being destroyed. In
    every state reached:
    - each live parser's reference count is the number of references the
      host holds plus the number of live pair iterators created from it;
    - each live pair iterator's parent is a live parser, so no iterator
      outlives its parser;
    - creating a pair iterator from a live parser succeeds whenever the
      arguments are a pairing mode or nothing, gives a new iterator on that
      parser and adds exactly one to the parser's count; with other
      arguments it fails with the exception of the parse and changes
      nothing;
    - destroying a live pair iterator takes exactly one off its parent's
      count: when another reference exists the step is defined, the
      iterator is gone, and the parent stays live with its parser state
      untouched; when the iterator held the last reference, the step is
      the deallocation of the parser. *)
Theorem C7_pair_iterator_holds_its_parser (es : list event) :
  match run initial es with
  | Undefined =>
      ∃ es1 e es2 s p,
        es = es1 ++ e :: es2
        ∧ run initial es1 = Done s
        ∧ refcounts_ok s
        ∧ step s e = Undefined
        ∧ releases_last_reference s e p
        ∧ (∀ j itj, iterators (the_heap s) !! j = Some itj →
                    parent itj = p → e = DestroyIterator j)
  | NotPermitted => True
  | Done s =>
      refcounts_ok s
      ∧ (∀ p args par, parsers (the_heap s) !! p = Some par →
           match PyArg_ParseTuple_opt_i args PAIR_MODE_ERROR_ON_UNPAIRED with
           | inr mode =>
               ∃ it h',
                 ReadParser_iter_read_pairs (the_heap s) p args true =
                   Some (PyReturn it, h')
                 ∧ iterators (the_heap s) !! it = None
                 ∧ iterators h' =
                     <[it := mkReadPairIterator p mode]> (iterators (the_heap s))
                 ∧ parsers h' =
                     <[p := mkReadParser (ob_refcnt par + 1) (parser par)]>
                       (parsers (the_heap s))
           | inl e =>
               ReadParser_iter_read_pairs (the_heap s) p args true =
                 Some (PyNULL (Some e), the_heap s)
           end)
      ∧ (∀ i it, iterators (the_heap s) !! i = Some it →
           ∃ par,
             parsers (the_heap s) !! parent it = Some par
             ∧ 0 < ob_refcnt par
             ∧ if bool_decide (ob_refcnt par = 1)
               then step s (DestroyIterator i) = Undefined
                    ∧ releases_last_reference s (DestroyIterator i) (parent it)
               else ∃ s',
                 step s (DestroyIterator i) = Done s'
                 ∧ refcounts_ok s'
                 ∧ held s' = held s
                 ∧ iterators (the_heap s') = delete i (iterators (the_heap s))
                 ∧ parsers (the_heap s') =
                     <[parent it :=
                         mkReadParser (ob_refcnt par - 1) (parser par)]>
                       (parsers (the_heap s)))
  end.
Proof.
  pose proof (run_preserves es initial initial_ok) as Hrun.
  destruct (run initial es) as [s| |]; [|done|].
  2:{ destruct Hrun as (es1 & e & es2 & s & p & ? & ? & Hok & Hstep & Hrel).
      exists es1, e, es2, s, p. repeat (split; [done|]).
      by apply last_reference_has_no_other_iterator. }
  split; [done|]. split.
  - intros p args par. apply iter_read_pairs_increments.
  - intros i it Hit.
    pose proof Hrun as (Hcount & Hparent & _).
    destruct (Hparent _ _ Hit) as [par Hpar].
    exists par. split; [done|].
    split; [by apply Hcount in Hpar as [_ ?]|].
    by apply step_DestroyIterator_live.
Qed.

End Refcounting.

Lemma C7_pair_iterator_holds_its_parser_witness :
  run (H := empty_stream) initial
    [OpenParser (inr []); IterReadPairs 0%nat [] true] =
    Done parser_with_iterator
  ∧ refcounts_ok parser_with_iterator
  ∧ (∃ it h',
       ReadParser_iter_read_pairs
         (the_heap parser_with_iterator) 0%nat [PyInt 1] true =
         Some (PyReturn it, h')
       ∧ iterators (the_heap parser_with_iterator) !! it = None
       ∧ iterators h' =
           <[it := mkReadPairIterator 0%nat 1]>
             (iterators (the_heap parser_with_iterator))
       ∧ parsers h' =
           <[0%nat := mkReadParser 3 []]>
             (parsers (the_heap parser_with_iterator)))
  ∧ (∃ s',
       step (H := empty_stream) parser_with_iterator (DestroyIterator 0%nat) =
         Done s'
       ∧ refcounts_ok s'
       ∧ held s' = held parser_with_iterator
       ∧ iterators (the_heap s') =
           delete 0%nat (iterators (the_heap parser_with_iterator))
       ∧ parsers (the_heap s') =
           <[0%nat := mkReadParser 1 []]>
             (parsers (the_heap parser_with_iterator))).
Proof.
  assert (Hrun : run (H := empty_stream) initial
                   [OpenParser (inr []); IterReadPairs 0%nat [] true] =
                 Done parser_with_iterator) by reflexivity.
  pose proof (C7_pair_iterator_holds_its_parser (H := empty_stream)
                [OpenParser (inr []); IterReadPairs 0%nat [] true]) as Hall.
  rewrite Hrun in Hall. destruct Hall as (Hok & Hcreate & Hdestroy).
  split; [exact Hrun|]. split; [exact Hok|]. split.
  - exact (Hcreate 0%nat [PyInt 1] (mkReadParser 2 []) eq_refl).
  - destruct (Hdestroy 0%nat
                (mkReadPairIterator 0%nat PAIR_MODE_ERROR_ON_UNPAIRED) eq_refl)
      as (par & Hpar & _ & Hstep).
    injection Hpar as <-. exact Hstep.
Defined.

(** The parser outlives an iterator destroyed first, and an iterator keeps
    the parser alive after the host dropped its own reference. The step
    that takes the last reference off a parser, whichever it is, runs
    [_ReadParser_dealloc]. *)
Example parser_survives_its_iterator :
  run (H := empty_stream) initial
    [OpenParser (inr []); IterReadPairs 0%nat [] true;
     DestroyIterator 0%nat; NextRead 0%nat] =
  Done (mkHost (mkHeap {[ 0%nat := mkReadParser 1 [] ]} ∅) {[ 0%nat := 1%nat ]}).
Proof. reflexivity. Qed.

Example iterator_keeps_its_parser :
  run (H := empty_stream) initial
    [OpenParser (inr []); IterReadPairs 0%nat [PyInt 0] true;
     DropReference 0%nat; NextPair 0%nat] =
  Done (mkHost (mkHeap {[ 0%nat := mkReadParser 1 [] ]}
                       {[ 0%nat := mkReadPairIterator 0%nat 0 ]})
               {[ 0%nat := 0%nat ]})
  ∧ run (H := empty_stream) initial
      [OpenParser (inr []); IterReadPairs 0%nat [PyInt 0] true;
       DropReference 0%nat; NextPair 0%nat; DestroyIterator 0%nat] =
    Undefined
  ∧ run (H := empty_stream) initial
      [OpenParser (inr []); DropReference 0%nat] = Undefined
  ∧ run (H := empty_stream) initial
      [OpenParser (inr []); IterReadPairs 0%nat [] true;
       DestroyIterator 0%nat; DestroyIterator 0%nat] =
    NotPermitted.
Proof. repeat split. Qed.

(** ** The reporting callback *)

Lemma report_fn_calls (info : string) (data : option PyObject)
    (n_reads other : Z) (w : interp) :
  invoked (_report_fn info data n_reads other w).2 =
  invoked w ++ calls_expected info data n_reads other w.
Proof.
  destruct w as [sig err cb af inv].
  unfold calls_expected, selected_observer, interrupt_pending.
  cbn [signals _callback_obj allocations_fail invoked].
  destruct sig as [|[|] sig]; destruct data as [[]|]; try destruct cb as [[]|];
    destruct af; destruct err;
    run_report_fn; rewrite ?app_nil_r; try reflexivity;
    repeat case_match; simplify_eq; reflexivity.
Qed.

(** C2. One call of [_report_fn] invokes exactly the observer the override
    rules select: the observer passed to the call if there is one, the
    process-wide default only when the call passed none, and nobody when
    the call passed [None], whatever the default is. (The selected observer
    is not reached when an interrupt is pending or the argument tuple
    cannot be built.) The default is the one [set_reporting_callback]
    stored. *)
Theorem C2_report_fn_observer_selection (info : string)
    (data : option PyObject) (n_reads other : Z) (w : interp)
    (default : PyObject) (id : nat) (body : string → Z → Z → option PyErr) :
  let w_d := (set_reporting_callback [default] w).2 in
  let f := PyFunction id body in
  invoked (_report_fn info data n_reads other w).2 =
    invoked w ++ calls_expected info data n_reads other w
  ∧ _callback_obj w_d = Some default
  ∧ invoked (_report_fn info (Some Py_None) n_reads other w_d).2 = invoked w
  ∧ invoked (_report_fn info (Some f) n_reads other w_d).2 =
      invoked w ++ (if interrupt_pending w || allocations_fail w then []
                    else [(f, (info, n_reads, other))])
  ∧ invoked (_report_fn info None n_reads other w_d).2 =
      invoked w ++ calls_expected info (Some default) n_reads other w.
Proof.
  intros w_d f. split; [apply report_fn_calls|].
  split; [reflexivity|].
  subst w_d; rewrite !report_fn_calls.
  destruct w as [sig err cb af inv].
  unfold calls_expected, selected_observer, interrupt_pending. cbn.
  split; [apply app_nil_r|]. split.
  - destruct sig as [|[|] sig]; destruct af; reflexivity.
  - destruct default; reflexivity.
Qed.

(** ** Cancellation and engine failures in consume operations *)

Lemma report_fn_throws (info : string) (data : option PyObject)
    (n_reads other : Z) (w w' : interp) (e : cpp_exception) :
  _report_fn info data n_reads other w = (inl e, w') →
  e = _khmer_signal signal_received_message
  ∨ e = _khmer_signal error_set_message.
Proof.
  destruct w as [sig err cb af inv].
  destruct sig as [|[|] sig]; destruct data as [[]|]; try destruct cb as [[]|];
    destruct af; destruct err;
    run_report_fn; intros; repeat case_match; simplify_eq; auto.
Qed.

Lemma engine_run_exception (script : list engine_step)
    (callback_data : option PyObject) (c c' : counts) (w w' : interp)
    (exc : cpp_exception) :
  engine_run script _report_fn callback_data c w = (Some exc, c', w') →
  match exc with
  | _khmer_signal message =>
      message = signal_received_message ∨ message = error_set_message
  | khmer_file_exception what => ThrowFileException what ∈ script
  end.
Proof.
  revert c w. induction script as [|[units|info|what] script IH]; intros c w.
  - discriminate.
  - cbn [engine_run]. intros Hrun. apply IH in Hrun.
    destruct exc; [assumption | by apply list_elem_of_further].
  - cbn [engine_run].
    destruct (_report_fn info callback_data (total_reads c) (n_consumed c) w)
      as [[e|[]] w1] eqn:Hcb.
    + intros [= <- <- <-].
      apply report_fn_throws in Hcb as [-> | ->]; auto.
    + intros Hrun. apply IH in Hrun.
      destruct exc; [assumption | by apply list_elem_of_further].
  - cbn [engine_run]. intros [= <- <- <-]. apply list_elem_of_here.
Qed.

Lemma consume_wrappers_agree (e : engine) (args : list PyObject) (w : interp) :
  hashbits_consume_fasta_and_tag e args w = hash_consume_fasta e args w.
Proof. reflexivity. Qed.

Lemma hash_consume_fasta_failure (counting : engine) (args : list PyObject)
    (w w' : interp) (filename : string) (callback_obj : option PyObject)
    (exc : cpp_exception) (c : counts) :
  PyArg_ParseTuple_s_opt_O args = inr (filename, callback_obj) →
  consume_fasta counting filename _report_fn callback_obj w = (Some exc, c, w') →
  (hash_consume_fasta counting args w).1 =
    PyNULL (Some (PyExc_IOError,
                  match exc with
                  | _khmer_signal message => message
                  | khmer_file_exception what => what
                  end)).
Proof.
  intros Hargs Hrun. unfold hash_consume_fasta. rewrite Hargs, Hrun.
  destruct exc; reflexivity.
Qed.

(** C4, as the code has it. A consume operation that was cancelled and
    one whose engine failed both cross the boundary as [IOError]: the
    cancellation with one of two fixed messages, the engine failure with
    the engine's own message, verbatim. The class never tells them apart;
    only the message text can. *)
Theorem C4_cancelled_and_failed_are_both_IOError (counting : engine)
    (args : list PyObject) (w w' : interp) (filename : string)
    (callback_obj : option PyObject) (exc : cpp_exception) (c : counts) :
  PyArg_ParseTuple_s_opt_O args = inr (filename, callback_obj) →
  consume_fasta counting filename _report_fn callback_obj w = (Some exc, c, w') →
  match exc with
  | _khmer_signal message =>
      (hash_consume_fasta counting args w).1 =
        PyNULL (Some (PyExc_IOError, message))
      ∧ (message = signal_received_message ∨ message = error_set_message)
  | khmer_file_exception what =>
      (hash_consume_fasta counting args w).1 =
        PyNULL (Some (PyExc_IOError, what))
      ∧ ThrowFileException what ∈ consume_script counting filename
  end.
Proof.
  intros Hargs Hrun.
  pose proof (hash_consume_fasta_failure _ _ _ _ _ _ _ _ Hargs Hrun) as Hres.
  apply engine_run_exception in Hrun.
  destruct exc; split; assumption.
Qed.

Lemma C4_cancelled_and_failed_are_both_IOError_witness :
  (hash_consume_fasta reporting_engine
     [PyBytes "one.fa"; failing_observer] quiet).1 =
    PyNULL (Some (PyExc_IOError, "PyErr_Occurred is set"))
  ∧ ("PyErr_Occurred is set" = signal_received_message
     ∨ "PyErr_Occurred is set" = error_set_message).
Proof.
  exact (C4_cancelled_and_failed_are_both_IOError reporting_engine
           [PyBytes "one.fa"; failing_observer] quiet _ "one.fa"
           (Some failing_observer) (_khmer_signal "PyErr_Occurred is set")
           _ eq_refl eq_refl).
Defined.

(** C4 does not hold as stated: a cancelled run and a run whose engine
    failed reach the host as the very same failure value. *)
Lemma C4_counterexample :
  cancelled reporting_engine [PyBytes "one.fa"; failing_observer] quiet
  ∧ engine_failed broken_engine [PyBytes "one.fa"] quiet
  ∧ (hash_consume_fasta reporting_engine
       [PyBytes "one.fa"; failing_observer] quiet).1 =
    (hash_consume_fasta broken_engine [PyBytes "one.fa"] quiet).1.
Proof.
  split; [|split].
  - by eexists _, _, _, _, _.
  - by eexists _, _, _, _, _.
  - reflexivity.
Qed.

(** An interrupt that arrives before the second report cancels the
    operation; without one the counts come back. *)
Example interrupt_cancels_consume :
  (hash_consume_fasta reporting_engine [PyBytes "one.fa"]
     (mkInterp [false; true] None None false [])).1 =
    PyNULL (Some (PyExc_IOError, "PyErr_CheckSignals received a signal"))
  ∧ (hash_consume_fasta reporting_engine [PyBytes "one.fa"] quiet).1 =
    PyReturn (2, 20).
Proof. split; reflexivity. Qed.

(** ** Progress counts on failure *)

(** C5, as the code has it. The failure a consume operation reports is
    determined by the exception that ended the engine call alone: two runs
    ended by the same exception report the same [IOError], whatever counts
    each had reached; and this holds for [hash_consume_fasta] and
    [hashbits_consume_fasta_and_tag] alike. *)
Theorem C5_failure_is_independent_of_counts (e1 e2 : engine)
    (args1 args2 : list PyObject) (w1 w2 w1' w2' : interp)
    (f1 f2 : string) (cb1 cb2 : option PyObject) (exc : cpp_exception)
    (c1 c2 : counts) :
  PyArg_ParseTuple_s_opt_O args1 = inr (f1, cb1) →
  PyArg_ParseTuple_s_opt_O args2 = inr (f2, cb2) →
  consume_fasta e1 f1 _report_fn cb1 w1 = (Some exc, c1, w1') →
  consume_fasta e2 f2 _report_fn cb2 w2 = (Some exc, c2, w2') →
  counts_reached e1 args1 w1 = Some c1
  ∧ counts_reached e2 args2 w2 = Some c2
  ∧ (hash_consume_fasta e1 args1 w1).1 = (hash_consume_fasta e2 args2 w2).1
  ∧ (hashbits_consume_fasta_and_tag e1 args1 w1).1 =
    (hashbits_consume_fasta_and_tag e2 args2 w2).1
  ∧ ∃ message,
      (hash_consume_fasta e1 args1 w1).1 =
        PyNULL (Some (PyExc_IOError, message)).
Proof.
  intros Ha1 Ha2 Hr1 Hr2.
  pose proof (hash_consume_fasta_failure _ _ _ _ _ _ _ _ Ha1 Hr1) as H1.
  pose proof (hash_consume_fasta_failure _ _ _ _ _ _ _ _ Ha2 Hr2) as H2.
  split; [unfold counts_reached; by rewrite Ha1, Hr1|].
  split; [unfold counts_reached; by rewrite Ha2, Hr2|].
  split; [congruence|].
  split; [exact (eq_trans H1 (eq_sym H2))|].
  eexists; exact H1.
Qed.

Lemma C5_failure_is_independent_of_counts_witness :
  counts_reached reporting_engine [PyBytes "one.fa"; failing_observer] quiet =
    Some (mkCounts 1 10)
  ∧ counts_reached reporting_engine [PyBytes "two.fa"; failing_observer] quiet =
    Some (mkCounts 2 20)
  ∧ (hash_consume_fasta reporting_engine
       [PyBytes "one.fa"; failing_observer] quiet).1 =
    (hash_consume_fasta reporting_engine
       [PyBytes "two.fa"; failing_observer] quiet).1
  ∧ (hashbits_consume_fasta_and_tag reporting_engine
       [PyBytes "one.fa"; failing_observer] quiet).1 =
    (hashbits_consume_fasta_and_tag reporting_engine
       [PyBytes "two.fa"; failing_observer] quiet).1
  ∧ ∃ message,
      (hash_consume_fasta reporting_engine
         [PyBytes "one.fa"; failing_observer] quiet).1 =
        PyNULL (Some (PyExc_IOError, message)).
Proof.
  exact (C5_failure_is_independent_of_counts reporting_engine reporting_engine
           [PyBytes "one.fa"; failing_observer]
           [PyBytes "two.fa"; failing_observer]
           quiet quiet _ _ "one.fa" "two.fa"
           (Some failing_observer) (Some failing_observer)
           (_khmer_signal "PyErr_Occurred is set")
           (mkCounts 1 10) (mkCounts 2 20)
           eq_refl eq_refl eq_refl eq_refl).
Defined.

(** C5 does not hold as stated: no reading of the reported failure gives
    back the counts reached, since two cancelled runs that had consumed
    different numbers of records report the same failure. *)
Lemma C5_counterexample :
  ¬ ∃ decode : PyErr → counts,
      ∀ (filename : string) (err : PyErr) (c : counts),
        (hash_consume_fasta reporting_engine
           [PyBytes filename; failing_observer] quiet).1 = PyNULL (Some err) →
        counts_reached reporting_engine
           [PyBytes filename; failing_observer] quiet = Some c →
        decode err = c.
Proof.
  intros [decode Hdecode].
  pose proof (Hdecode "one.fa" _ _ eq_refl eq_refl) as H1.
  pose proof (Hdecode "two.fa" _ _ eq_refl eq_refl) as H2.
  rewrite H1 in H2. discriminate H2.
Qed.

(** ** Capsule handles *)

Lemma PyCapsule_GetPointer_invalid (o : PyObject) (expected : string) :
  PyCapsule_IsValid o expected = false →
  (PyCapsule_GetPointer o expected).1 = None.
Proof.
  destruct o as [| | | | | | |[p|] name d|]; cbn; try done.
  by intros ->.
Qed.

(** Whatever is not a valid capsule of the expected kind is refused by the
    wrappers that test it, and dereferenced as a null pointer by those that
    do not. *)
Lemma unchecked_subset_handle `{PartitionOps} (m : native)
    (me : khmer_KHashbitsObject) (o : PyObject) (filename : string) :
  PyCapsule_IsValid o "khmer.SubsetPartition" = false →
  hashbits_merge_subset m me [o] =
    Some (PyNULL (Some (PyExc_ValueError, "invalid subset")), m)
  ∧ hashbits_subset_count_partitions m [o] = None
  ∧ hashbits_save_subset_partitionmap m [o; PyBytes filename] = None.
Proof.
  intros Hinvalid.
  pose proof (PyCapsule_GetPointer_invalid _ _ Hinvalid) as Hnull.
  unfold hashbits_merge_subset, hashbits_subset_count_partitions,
    hashbits_save_subset_partitionmap.
  cbn [PyArg_ParseTuple_O PyArg_ParseTuple_Os].
  by rewrite Hinvalid, Hnull.
Qed.

(** C3, at the failing input. Given a capsule of the wrong kind,
    [hashbits_merge_subset] and [hashbits_assign_partition_id] report
    [ValueError] and leave native memory alone, but
    [hashbits_subset_count_partitions] and
    [hashbits_save_subset_partitionmap] do not look at the kind: they take
    the null pointer [PyCapsule_GetPointer] returns and dereference it. *)
Theorem C3_handle_kind_not_always_checked `{PartitionOps} (m : native)
    (me : khmer_KHashbitsObject) (p : addr) (filename : string) :
  let ppi := PyCapsule (Some p) "khmer.pre_partition_info"
                       free_pre_partition_info in
  let subset := PyCapsule (Some p) "khmer.SubsetPartition"
                          free_subset_partition_info in
  hashbits_merge_subset m me [ppi] =
    Some (PyNULL (Some (PyExc_ValueError, "invalid subset")), m)
  ∧ hashbits_assign_partition_id m me [subset] =
    Some (PyNULL (Some (PyExc_ValueError, "invalid pre_partition_info")), m)
  ∧ PyCapsule_GetPointer ppi "khmer.SubsetPartition" =
    (None, Some (PyExc_ValueError,
                 "PyCapsule_GetPointer called with incorrect name"))
  ∧ hashbits_subset_count_partitions m [ppi] = None
  ∧ hashbits_save_subset_partitionmap m [ppi; PyBytes filename] = None.
Proof. repeat split. Qed.

(** ** The LabelHash wrapper *)

Lemma khmer_labelhash_new_success (m m' : native) (args : list PyObject)
    (alloc_ok : bool) (o : khmer_KLabelHashObject) (err : option PyErr) :
  khmer_labelhash_new m args alloc_ok = (Some o, err, m') →
  ∃ k items sizes,
    PyArg_ParseTuple_b_list args = inr (k, items)
    ∧ convert_sizes items None = inr (sizes, err)
    ∧ o = mkKLabelHash (mkKHashbits (Some (fresh (dom (objects m)))))
                       (Some (fresh (dom (objects m))))
    ∧ m' = mkNative
             (<[fresh (dom (objects m)) :=
                  N_LabelHash
                    (mkLabelHash
                       (mkHashbits k sizes
                          (mkSubsetPartition
                             (Some (fresh (dom (objects m)))) ∅))
                       ∅)]> (objects m))
             (files m).
Proof.
  unfold khmer_labelhash_new. destruct alloc_ok; [|discriminate]. cbn.
  destruct (PyArg_ParseTuple_b_list args) as [e|[k items]]; [discriminate|].
  destruct (convert_sizes items None) as [e|[sizes err']] eqn:Hsizes;
    [discriminate|].
  intros Heq. inversion Heq; subst. by eexists _, _, _.
Qed.

(** C8, as the code has it. A [LabelHash] wrapper made by
    [khmer_labelhash_new] owns a single native object, the [LabelHash]
    allocated by the call; the [hashbits] pointer of its leading
    presence-table part and its [labelhash] pointer both hold that object's
    address. The presence-table methods reach the object through the first
    pointer, the label methods through the second, and the deallocator
    deletes it once. *)
Theorem C8_labelhash_wrapper_aliases_one_object (m m' : native)
    (args : list PyObject) (alloc_ok : bool) (o : khmer_KLabelHashObject)
    (err : option PyErr) :
  khmer_labelhash_new m args alloc_ok = (Some o, err, m') →
  ∃ (p : addr) (lh : LabelHash),
    objects m !! p = None
    ∧ objects m' = <[p := N_LabelHash lh]> (objects m)
    ∧ labelhash o = Some p
    ∧ hashbits (khashbits o) = Some p
    ∧ hashbits_get_ksize m' (KLabelHash o) [] = Some (PyReturn (ksize (base lh)))
    ∧ labelhash_n_labels m' o [] = Some (PyReturn 0)
    ∧ khmer_labelhash_dealloc m' o = Some (mkNative (objects m) (files m')).
Proof.
  intros Hnew.
  apply khmer_labelhash_new_success in Hnew
    as (k & items & sizes & _ & _ & -> & ->).
  set (p := fresh (dom (objects m))).
  assert (Hfresh : objects m !! p = None) by apply not_elem_of_dom, is_fresh.
  eexists p, _. split; [done|]. split; [done|]. split; [done|]. split; [done|].
  unfold hashbits_get_ksize, labelhash_n_labels, khmer_labelhash_dealloc,
    deref_Hashbits, deref_LabelHash.
  cbn. rewrite !lookup_insert_eq. cbn.
  split; [done|]. split; [done|].
  by rewrite delete_insert_id.
Qed.

Lemma C8_labelhash_wrapper_aliases_one_object_witness :
  ∃ (p : addr) (lh : LabelHash),
    objects empty_native !! p = None
    ∧ objects (khmer_labelhash_new empty_native
                 [PyInt 20; PyList [PyInt 1000]] true).2 =
        <[p := N_LabelHash lh]> (objects empty_native)
    ∧ labelhash (mkKLabelHash (mkKHashbits (Some 0%nat)) (Some 0%nat)) = Some p
    ∧ hashbits (khashbits (mkKLabelHash (mkKHashbits (Some 0%nat)) (Some 0%nat)))
        = Some p
    ∧ hashbits_get_ksize
        (khmer_labelhash_new empty_native
           [PyInt 20; PyList [PyInt 1000]] true).2
        (KLabelHash (mkKLabelHash (mkKHashbits (Some 0%nat)) (Some 0%nat))) []
        = Some (PyReturn (ksize (base lh)))
    ∧ labelhash_n_labels
        (khmer_labelhash_new empty_native
           [PyInt 20; PyList [PyInt 1000]] true).2
        (mkKLabelHash (mkKHashbits (Some 0%nat)) (Some 0%nat)) []
        = Some (PyReturn 0)
    ∧ khmer_labelhash_dealloc
        (khmer_labelhash_new empty_native
           [PyInt 20; PyList [PyInt 1000]] true).2
        (mkKLabelHash (mkKHashbits (Some 0%nat)) (Some 0%nat))
        = Some (mkNative (objects empty_native)
                  (files (khmer_labelhash_new empty_native
                            [PyInt 20; PyList [PyInt 1000]] true).2)).
Proof.
  exact (C8_labelhash_wrapper_aliases_one_object empty_native _
           [PyInt 20; PyList [PyInt 1000]] true
           (mkKLabelHash (mkKHashbits (Some 0%nat)) (Some 0%nat)) None
           eq_refl).
Defined.

(** C8 does not hold as stated: the wrapper [khmer_labelhash_new] returns
    for k = 20 and one table of size 1000 has its presence-table pointer
    aliasing its label-engine pointer. *)
Lemma C8_counterexample :
  ∃ o m',
    khmer_labelhash_new empty_native [PyInt 20; PyList [PyInt 1000]] true
      = (Some o, None, m')
    ∧ ¬ composed_without_aliasing o.
Proof.
  eexists _, _. split; [reflexivity|].
  unfold composed_without_aliasing. cbn. by intros Hne.
Qed.

(** ** Saving and loading a detached partition engine *)

Lemma PyCapsule_GetPointer_valid (p : addr) (name : string)
    (destructor : capsule_destructor) :
  PyCapsule_GetPointer (PyCapsule (Some p) name destructor) name =
    (Some p, None).
Proof. unfold PyCapsule_GetPointer. by rewrite bool_decide_eq_true_2. Qed.

Lemma save_subset_partitionmap_valid (m : native) (p : addr)
    (sp : SubsetPartition) (filename : string)
    (destructor : capsule_destructor) :
  objects m !! p = Some (N_SubsetPartition sp) →
  hashbits_save_subset_partitionmap m
    [PyCapsule (Some p) "khmer.SubsetPartition" destructor; PyBytes filename]
  = Some (PyReturn Py_None,
          mkNative (objects m) (<[filename := partition_map sp]> (files m))).
Proof.
  intros Hp. unfold hashbits_save_subset_partitionmap.
  cbn [PyArg_ParseTuple_Os]. rewrite PyCapsule_GetPointer_valid.
  unfold deref_SubsetPartition. cbn [fst]. by rewrite Hp.
Qed.

(** C9. For a capsule that holds a live partitioning engine, saving its
    partition map to a path succeeds, and loading that path then returns a
    capsule of the same kind holding a new engine whose partition
    identifier agrees with the original's on every key; the original is
    still in place. *)
Theorem C9_save_load_round_trip (m : native) (me : khmer_KHashbitsObject)
    (p : addr) (sp : SubsetPartition) (filename : string)
    (destructor : capsule_destructor) :
  objects m !! p = Some (N_SubsetPartition sp) →
  ∃ (m1 m2 : native) (p' : addr) (sp' : SubsetPartition),
    hashbits_save_subset_partitionmap m
      [PyCapsule (Some p) "khmer.SubsetPartition" destructor; PyBytes filename]
      = Some (PyReturn Py_None, m1)
    ∧ hashbits_load_subset_partitionmap m1 me [PyBytes filename]
      = (PyReturn (PyCapsule (Some p') "khmer.SubsetPartition"
                             free_subset_partition_info), m2)
    ∧ p' ≠ p
    ∧ deref_SubsetPartition m2 (Some p) = Some sp
    ∧ deref_SubsetPartition m2 (Some p') = Some sp'
    ∧ ∀ key : Z, get_partition_id sp' key = get_partition_id sp key.
Proof.
  intros Hp.
  set (p' := fresh (dom (objects m))).
  assert (Hfresh : objects m !! p' = None) by apply not_elem_of_dom, is_fresh.
  assert (Hne : p' ≠ p) by congruence.
  eexists _, _, p', (mkSubsetPartition (hashbits me) (partition_map sp ∪ ∅)).
  split; [by apply save_subset_partitionmap_valid|].
  unfold hashbits_load_subset_partitionmap, load_partitionmap.
  cbn. rewrite lookup_insert_eq. fold p'.
  split; [reflexivity|]. split; [done|].
  unfold deref_SubsetPartition. cbn.
  rewrite !lookup_insert_ne, Hp, lookup_insert_eq by done.
  split; [done|]. split; [done|].
  intros key. unfold get_partition_id. cbn. by rewrite (right_id ∅ (∪)).
Qed.


Lemma C9_save_load_round_trip_witness :
  ∃ (m1 m2 : native) (p' : addr) (sp' : SubsetPartition),
    hashbits_save_subset_partitionmap one_subset
      [PyCapsule (Some 0%nat) "khmer.SubsetPartition"
                 free_subset_partition_info; PyBytes "subset.pmap"]
      = Some (PyReturn Py_None, m1)
    ∧ hashbits_load_subset_partitionmap m1 (mkKHashbits None)
        [PyBytes "subset.pmap"]
      = (PyReturn (PyCapsule (Some p') "khmer.SubsetPartition"
                             free_subset_partition_info), m2)
    ∧ p' ≠ 0%nat
    ∧ deref_SubsetPartition m2 (Some 0%nat) =
        Some (mkSubsetPartition None {[ 7 := 3; 9 := 3; 12 := 5 ]})
    ∧ deref_SubsetPartition m2 (Some p') = Some sp'
    ∧ ∀ key : Z,
        get_partition_id sp' key =
        get_partition_id (mkSubsetPartition None {[ 7 := 3; 9 := 3; 12 := 5 ]})
                         key.
Proof.
  exact (C9_save_load_round_trip one_subset (mkKHashbits None) 0%nat
           (mkSubsetPartition None {[ 7 := 3; 9 := 3; 12 := 5 ]})
           "subset.pmap" free_subset_partition_info eq_refl).
Defined.

(* ================================================================== *)
(** * Part II, continued: properties of the further functions        *)
(* ================================================================== *)

(** ** The reporting callback, continued *)

Lemma report_fn_cancel_conditions (info : string) (data : option PyObject)
    (n_reads other : Z) (w : interp) :
  let r := _report_fn info data n_reads other w in
  ((∃ e, r.1 = inl e) ↔
     interrupt_pending w = true
     ∨ is_Some (error_indicator w)
     ∨ observer_fails info data n_reads other w = true)
  ∧ ((∃ e, r.1 = inl e) ↔ is_Some (error_indicator r.2)).
Proof.
  destruct w as [sig err cb af inv].
  unfold observer_fails, selected_observer, interrupt_pending.
  cbn [signals _callback_obj allocations_fail invoked error_indicator].
  destruct sig as [|[|] sig]; destruct data as [[]|]; try destruct cb as [[]|];
    destruct af; destruct err;
    run_report_fn; repeat case_match; simplify_eq; cbn;
    (split; split;
     [ intros [? ?]; simplify_eq; eauto using mk_is_Some
     | intros; try (eexists; reflexivity);
       repeat match goal with
              | H : _ ∨ _ |- _ => destruct H
              | H : is_Some None |- _ => by destruct H
              | H : false = true |- _ => discriminate H
              end
     | intros [? ?]; simplify_eq; eauto using mk_is_Some
     | intros; try (eexists; reflexivity);
       repeat match goal with
              | H : is_Some None |- _ => by destruct H
              end ]).
Qed.

(** X1. A call of [_report_fn] cancels the operation (throws) exactly when
    an interrupt is pending, or an exception was already set before the
    call, or the selected observer fails; and it throws exactly when it
    leaves an exception set, so a wrapper that answers a cancellation with
    a bare [return NULL] still hands the host an exception. *)
Theorem X1_report_fn_cancels_iff (info : string) (data : option PyObject)
    (n_reads other : Z) (w : interp) :
  let r := _report_fn info data n_reads other w in
  ((∃ e, r.1 = inl e) ↔
     interrupt_pending w = true
     ∨ is_Some (error_indicator w)
     ∨ observer_fails info data n_reads other w = true)
  ∧ ((∃ e, r.1 = inl e) ↔ is_Some (error_indicator r.2)).
Proof.
  apply report_fn_cancel_conditions.
Qed.

(** ** Pair iterators, continued *)

Section PairIterationMore.
Context {P : Type} `{IParser P}.

Lemma iternext_complete (h : heap P) (myself : addr)
    (it : khmer_ReadPairIterator_Object) (par : khmer_ReadParser_Object P) :
  iterators h !! myself = Some it →
  parsers h !! parent it = Some par →
  is_complete (parser par) = true →
  _ReadPairIterator_iternext h myself = Some (PyNULL None, h).
Proof.
  intros Hit Hpar Hdone.
  rewrite (iternext_defined h myself it par Hit Hpar).
  unfold ReadPairIterator_pull. rewrite Hdone. cbn.
  destruct par as [refcnt p]. cbn.
  rewrite insert_id by done. by destruct h.
Qed.

(** X2. Once the parser of a live pair iterator is complete, every pull
    on the iterator is the normal end of the iteration and leaves the whole
    heap, the parser included, exactly as it was: the end is answered
    without asking the parser for another pair, however often the host
    pulls. *)
Theorem X2_pair_iterator_end_is_stable (h : heap P) (myself : addr)
    (it : khmer_ReadPairIterator_Object) (par : khmer_ReadParser_Object P)
    (n : nat) :
  iterators h !! myself = Some it →
  parsers h !! parent it = Some par →
  is_complete (parser par) = true →
  pull_pairs n h myself = Some (replicate n Ends, h).
Proof.
  intros Hit Hpar Hdone. induction n as [|n IH]; [done|].
  cbn [pull_pairs]. rewrite (iternext_complete h myself it par Hit Hpar Hdone).
  by rewrite IH.
Qed.

Lemma pull_pairs_mode_mod (n : nat) (myself p : addr) (mode mode' : Z) :
  to_uint8 mode = to_uint8 mode' →
  ∀ h h' : heap P,
    parsers h = parsers h' →
    iterators h !! myself = Some (mkReadPairIterator p mode) →
    iterators h' !! myself = Some (mkReadPairIterator p mode') →
    fst <$> pull_pairs n h myself = fst <$> pull_pairs n h' myself.
Proof.
  intros Hmode. induction n as [|n IH]; intros h h' Hps Hit Hit'; [done|].
  cbn [pull_pairs]. unfold _ReadPairIterator_iternext.
  rewrite Hit, Hit'. cbn [parent pair_mode]. rewrite <- Hps.
  destruct (parsers h !! p) as [par|]; [|done].
  unfold ReadPairIterator_pull. rewrite <- Hmode.
  set (step := if is_complete (parser par) then _ else _).
  destruct step as [r parser'].
  specialize (IH (mkHeap (<[p := mkReadParser (ob_refcnt par) parser']> (parsers h))
                         (iterators h))
                 (mkHeap (<[p := mkReadParser (ob_refcnt par) parser']> (parsers h))
                         (iterators h'))
                 eq_refl Hit Hit').
  destruct (pull_pairs n _ myself) as [[rs1 h1]|];
    destruct (pull_pairs n _ myself) as [[rs2 h2]|]; cbn in *;
    congruence.
Qed.

(** X3. The pairing mode given to [iter_read_pairs] is stored as a C
    [int] but handed to the parser as an 8-bit value: two modes that differ
    by a multiple of 256 are both accepted and give iterators at the same
    address that answer every sequence of pulls alike. *)
Theorem X3_pairing_mode_is_used_modulo_256 (h : heap P) (self : addr)
    (mode k : Z) (n : nat) :
  INT_MIN ≤ mode ≤ INT_MAX →
  INT_MIN ≤ mode + 256 * k ≤ INT_MAX →
  is_Some (parsers h !! self) →
  ∃ it h1 h2,
    ReadParser_iter_read_pairs h self [PyInt mode] true =
      Some (PyReturn it, h1)
    ∧ ReadParser_iter_read_pairs h self [PyInt (mode + 256 * k)] true =
      Some (PyReturn it, h2)
    ∧ fst <$> pull_pairs n h1 it = fst <$> pull_pairs n h2 it.
Proof.
  intros Hm Hmk [par Hpar].
  unfold ReadParser_iter_read_pairs, Py_INCREF. cbn.
  rewrite !bool_decide_eq_true_2 by done. cbn. rewrite Hpar.
  eexists _, _, _. split; [done|]. split; [done|].
  apply (pull_pairs_mode_mod n _ self mode (mode + 256 * k)).
  - unfold to_uint8. change (2 ^ 8) with 256.
    symmetry. rewrite (Z.mul_comm 256 k). apply Z_mod_plus_full.
  - done.
  - cbn. apply lookup_insert_eq.
  - cbn. apply lookup_insert_eq.
Qed.

End PairIterationMore.

Lemma X2_pair_iterator_end_is_stable_witness :
  pull_pairs (H := empty_stream) 4 one_iterator 0%nat =
    Some (replicate 4 Ends, one_iterator).
Proof.
  exact (X2_pair_iterator_end_is_stable (H := empty_stream) one_iterator 0%nat
           (mkReadPairIterator 0%nat PAIR_MODE_ERROR_ON_UNPAIRED)
           (mkReadParser 2 []) 4 eq_refl eq_refl eq_refl).
Defined.

Lemma X3_pairing_mode_is_used_modulo_256_witness :
  ∃ it h1 h2,
    ReadParser_iter_read_pairs one_parser 0%nat [PyInt 2] true =
      Some (PyReturn it, h1)
    ∧ ReadParser_iter_read_pairs one_parser 0%nat [PyInt (2 + 256 * 1)] true =
      Some (PyReturn it, h2)
    ∧ fst <$> pull_pairs (H := logged_IParser (H := unpaired_stream)) 3 h1 it =
      fst <$> pull_pairs (H := logged_IParser (H := unpaired_stream)) 3 h2 it.
Proof.
  apply (X3_pairing_mode_is_used_modulo_256
           (H := logged_IParser (H := unpaired_stream)) one_parser 0%nat 2 1 3).
  - unfold INT_MIN, INT_MAX. lia.
  - unfold INT_MIN, INT_MAX. lia.
  - by eexists.
Defined.

(** ** Constructors and deallocators of the table objects *)

Lemma convert_sizes_spec (items : list PyObject) (err : option PyErr) :
  match convert_sizes items err with
  | inl e =>
      e = (PyExc_TypeError,
           "2nd argument must be a list of ints, longs, or floats")
      ∧ existsb (λ o, negb (is_size o)) items = true
  | inr (sizes, err') =>
      length sizes = length items
      ∧ forallb is_size items = true
      ∧ (is_Some err' ↔ is_Some err ∨ existsb overflows items = true)
  end.
Proof.
  revert err. induction items as [|o items IH]; intros err.
  - cbn. split; [done|]. split; [done|]. split; [by left|].
    by intros [?|?].
  - cbn [convert_sizes].
    destruct o as [|v|v|v| | | | |]; try (cbn; by split).
    + (* PyInt *)
      specialize (IH err). cbn.
      destruct (convert_sizes items err) as [e|[sizes err']].
      * destruct IH as [-> ?]. by split.
      * destruct IH as (Hlen & Hall & Herr). cbn. rewrite Hlen.
        split; [done|]. split; [done|]. exact Herr.
    + (* PyLong *)
      unfold PyLong_AsUnsignedLongLong.
      destruct (bool_decide (0 ≤ v ≤ ULLONG_MAX)) eqn:Hv.
      * specialize (IH err). cbn. rewrite Hv. cbn.
        destruct (convert_sizes items err) as [e|[sizes err']].
        -- destruct IH as [-> ?]. by split.
        -- destruct IH as (Hlen & Hall & Herr). cbn. rewrite Hlen.
           split; [done|]. split; [done|]. exact Herr.
      * specialize (IH (Some (PyExc_OverflowError, "int too large to convert"))).
        cbn. rewrite Hv. cbn.
        destruct (convert_sizes items _) as [e|[sizes err']].
        -- destruct IH as [-> ?]. by split.
        -- destruct IH as (Hlen & Hall & Herr). cbn. rewrite Hlen.
           split; [done|]. split; [done|].
           split; [by right|]. intros _. apply Herr. left. by eexists.
    + (* PyFloat *)
      specialize (IH err). cbn.
      destruct (convert_sizes items err) as [e|[sizes err']].
      * destruct IH as [-> ?]. by split.
      * destruct IH as (Hlen & Hall & Herr). cbn. rewrite Hlen.
        split; [done|]. split; [done|]. exact Herr.
Qed.

(** X4. The table sizes given to [khmer_labelhash_new] and
    [khmer_hashbits_new] are converted one by one: the conversion keeps
    their number, succeeds exactly when every item is an int, a long or a
    float, and otherwise raises the [TypeError] of the source; a long
    outside the unsigned 64-bit range is not refused: it becomes 2^64 - 1
    and leaves an exception pending, which is the only way an exception can
    be pending after a successful conversion. *)
Theorem X4_table_sizes_conversion (items : list PyObject) :
  match convert_sizes items None with
  | inl e =>
      e = (PyExc_TypeError,
           "2nd argument must be a list of ints, longs, or floats")
      ∧ forallb is_size items = false
  | inr (sizes, err) =>
      length sizes = length items
      ∧ forallb is_size items = true
      ∧ (is_Some err ↔ existsb overflows items = true)
  end.
Proof.
  pose proof (convert_sizes_spec items None) as Hspec.
  destruct (convert_sizes items None) as [e|[sizes err]].
  - destruct Hspec as [-> Hex]. split; [done|].
    apply not_true_is_false. intros Hall.
    apply existsb_exists in Hex as (o & Hin & Ho).
    rewrite forallb_forall in Hall. apply Hall in Hin.
    rewrite Hin in Ho. discriminate.
  - destruct Hspec as (? & ? & Herr). split; [done|]. split; [done|].
    rewrite Herr. split; [|by right]. intros [[? [=]]|?]. done.
Qed.

(** X5. The two table constructors fail and succeed together, on the same
    arguments and with the same pending exception. When they fail, native
    memory is left as it was and an exception is set; when they succeed,
    exactly one native object has been allocated, at an address that was
    free, and the deallocator of the object's type frees that object and
    nothing else, giving back the native memory of before. *)
Theorem X5_table_constructors_and_deallocators (m : native)
    (args : list PyObject) (alloc_ok : bool) :
  match khmer_hashbits_new m args alloc_ok,
        khmer_labelhash_new m args alloc_ok with
  | (None, err1, m1), (None, err2, m2) =>
      err1 = err2 ∧ is_Some err1 ∧ m1 = m ∧ m2 = m
  | (Some o1, err1, m1), (Some o2, err2, m2) =>
      err1 = err2
      ∧ alloc_ok = true
      ∧ (∃ p hb lh,
           objects m !! p = None
           ∧ objects m1 = <[p := N_Hashbits hb]> (objects m)
           ∧ objects m2 = <[p := N_LabelHash lh]> (objects m)
           ∧ base lh = hb)
      ∧ table_tp_dealloc m1 (KHashbits o1) = Some m
      ∧ table_tp_dealloc m2 (KLabelHash o2) = Some m
  | _, _ => False
  end.
Proof.
  unfold khmer_hashbits_new, khmer_labelhash_new.
  destruct alloc_ok; cbn [negb]; [|by repeat split; eauto].
  destruct (PyArg_ParseTuple_b_list args) as [e|[k items]];
    [by repeat split; eauto|].
  destruct (convert_sizes items None) as [e|[sizes err]];
    [by repeat split; eauto|].
  set (p := fresh (dom (objects m))).
  assert (Hfresh : objects m !! p = None) by apply not_elem_of_dom, is_fresh.
  split; [done|]. split; [done|]. split.
  { eexists p, _, _. by repeat split. }
  unfold table_tp_dealloc, khmer_hashbits_dealloc, khmer_labelhash_dealloc.
  cbn. rewrite !lookup_insert_eq, !delete_insert_id by done.
  by destruct m.
Qed.

(** ** Detached partition engines, continued *)

Lemma report_fn_throw_sets_error (info : string) (data : option PyObject)
    (n_reads other : Z) (w w' : interp) (e : cpp_exception) :
  _report_fn info data n_reads other w = (inl e, w') →
  is_Some (error_indicator w')
  ∧ (e = _khmer_signal signal_received_message →
     error_indicator w' = Some (PyExc_KeyboardInterrupt, "")).
Proof.
  intros Hcall.
  pose proof (report_fn_cancel_conditions info data n_reads other w) as [_ Hset].
  rewrite Hcall in Hset. cbn in Hset.
  split; [apply Hset; by eexists|].
  intros ->. revert Hcall.
  destruct w as [sig err cb af inv].
  destruct sig as [|[|] sig]; destruct data as [[]|]; try destruct cb as [[]|];
    destruct af; destruct err;
    run_report_fn; intros; repeat case_match; simplify_eq; done.
Qed.

Lemma engine_run_signal (script : list engine_step)
    (callback_data : option PyObject) (c c' : counts) (w w' : interp)
    (message : string) :
  engine_run script _report_fn callback_data c w =
    (Some (_khmer_signal message), c', w') →
  is_Some (error_indicator w')
  ∧ (message = signal_received_message →
     error_indicator w' = Some (PyExc_KeyboardInterrupt, "")).
Proof.
  revert c w.
  induction script as [|[units|info|what] script IH]; intros c w;
    cbn [engine_run].
  - discriminate.
  - apply IH.
  - destruct (_report_fn info callback_data (total_reads c) (n_consumed c) w)
      as [[e|[]] w1] eqn:Hcb.
    + intros [= -> <- <-].
      destruct (report_fn_throw_sets_error _ _ _ _ _ _ _ Hcb) as [? Hint].
      split; [done|]. intros ->. by apply Hint.
    + apply IH.
  - discriminate.
Qed.

(** The engine run with the lock released: it is undefined exactly when
    the script reaches a progress report, and otherwise ends or fails with
    the interpreter untouched. *)
Lemma partition_run_without_lock (script : list partition_step)
    (callback_data : option PyObject) (pm : gmap Z Z) (w : interp) :
  match partition_run script
          (λ info data n_reads other,
             without_lock (_report_fn info data n_reads other))
          callback_data pm w with
  | None =>
      ∃ assigned info n_reads other rest,
        script = assigned ++ ReportProgress info n_reads other :: rest
        ∧ forallb is_assignment assigned = true
  | Some (None, pm', w') =>
      forallb is_assignment script = true
      ∧ pm' = assigned_by script pm ∧ w' = w
  | Some (Some exc, pm', w') =>
      ∃ assigned what rest,
        script = assigned ++ PartitionFails what :: rest
        ∧ forallb is_assignment assigned = true
        ∧ exc = khmer_file_exception what
        ∧ pm' = assigned_by assigned pm ∧ w' = w
  end.
Proof.
  revert pm.
  induction script as [|[key pid|info n_reads other|what] script IH];
    intros pm; cbn [partition_run].
  - done.
  - specialize (IH (<[key := pid]> pm)).
    destruct (partition_run script _ callback_data (<[key := pid]> pm) w)
      as [[[[exc|] pm'] w']|].
    + destruct IH as (assigned & what & rest & -> & Hall & -> & -> & ->).
      by exists (AssignPartition key pid :: assigned), what, rest.
    + destruct IH as (Hall & -> & ->). done.
    + destruct IH as (assigned & info & n_reads & other & rest & -> & Hall).
      by exists (AssignPartition key pid :: assigned), info, n_reads, other,
        rest.
  - by exists [], info, n_reads, other, script.
  - by exists [], what, script.
Qed.

Section SubsetPartitioningProps.
Variable PyObject_IsTrue : PyObject → bool.
Variable do_partition : Hashbits → Z → Z → bool → bool → list partition_step.
Variable filter_if_present : string → string → list engine_step.

(** X6. [hashbits_filter_if_present] answers a cancellation with a bare
    [return NULL]; all the same it never returns [NULL] without an
    exception for the host, and the exception it returns with is the one
    pending in the interpreter. *)
Theorem X6_bare_return_NULL_keeps_the_exception (args : list PyObject)
    (w : interp) :
  match hashbits_filter_if_present filter_if_present args w with
  | (Returned (PyNULL exc), w') => is_Some exc ∧ exc = error_indicator w'
  | _ => True
  end.
Proof.
  unfold hashbits_filter_if_present.
  assert (Hbad : is_Some (Some bad_arguments)
                 ∧ Some bad_arguments =
                   error_indicator (set_error (Some bad_arguments) w))
    by (split; [by eexists|done]).
  destruct args as [|[] [|[] [|? [|]]]]; try exact Hbad;
    (destruct (engine_run _ _ _ _ _) as [[[[msg|what]|] c] w'] eqn:Hrun;
     [apply engine_run_signal in Hrun as [? _]; by split | done | done]).
Qed.

(** X7. [hashbits_do_subset_partition] runs the engine with the
    interpreter lock released, and [_report_fn] with it. So its behaviour
    is undefined as soon as the engine reports progress, whatever the
    observer and whether or not an interrupt is pending; its handler for a
    cancellation is never reached, and it never returns [NULL] once the
    arguments are parsed. Only a run in which the engine does not report
    is defined: it returns a handle to a new engine, at an address that
    was free, holding what the script assigned, or it is left by the
    engine's file exception; the interpreter is as before. *)
Theorem X7_partition_reports_without_the_lock (m : native)
    (me : khmer_KHashbitsObject) (args : list PyObject) (w : interp)
    (hb : Hashbits) (start_kmer end_kmer : Z)
    (break_o stop_o callback_obj : option PyObject) :
  PyArg_ParseTuple_opt_KKOOO args =
    inr (start_kmer, end_kmer, break_o, stop_o, callback_obj) →
  deref_Hashbits m (hashbits me) = Some hb →
  let script :=
    do_partition hb start_kmer end_kmer
      (from_option PyObject_IsTrue false break_o)
      (from_option PyObject_IsTrue false stop_o) in
  match hashbits_do_subset_partition PyObject_IsTrue do_partition m me args w
  with
  | None =>
      ∃ assigned info n_reads other rest,
        script = assigned ++ ReportProgress info n_reads other :: rest
        ∧ forallb is_assignment assigned = true
  | Some (Returned (PyNULL _), _, _) => False
  | Some (Returned (PyReturn cap), m', w') =>
      forallb is_assignment script = true
      ∧ w' = w
      ∧ cap = PyCapsule (Some (fresh (dom (objects m))))
                        "khmer.SubsetPartition" free_subset_partition_info
      ∧ objects m !! fresh (dom (objects m)) = None
      ∧ objects m' =
          <[fresh (dom (objects m)) :=
              N_SubsetPartition
                (mkSubsetPartition (hashbits me) (assigned_by script ∅))]>
            (objects m)
  | Some (Escaped exc, m', w') =>
      ∃ assigned what rest,
        script = assigned ++ PartitionFails what :: rest
        ∧ forallb is_assignment assigned = true
        ∧ exc = khmer_file_exception what
        ∧ w' = w
  end.
Proof.
  intros Hargs Hhb script.
  unfold hashbits_do_subset_partition. rewrite Hargs, Hhb.
  assert (Hscript :
            do_partition hb start_kmer end_kmer
              match break_o with Some o => PyObject_IsTrue o | None => false end
              match stop_o with Some o => PyObject_IsTrue o | None => false end
            = script) by (by destruct break_o, stop_o).
  rewrite Hscript.
  pose proof (partition_run_without_lock script callback_obj ∅ w) as Hrun.
  destruct (partition_run script _ callback_obj ∅ w)
    as [[[[exc|] pm] w']|].
  - destruct Hrun as (assigned & what & rest & Hs & Hall & -> & -> & ->).
    by exists assigned, what, rest.
  - destruct Hrun as (Hall & -> & ->).
    repeat split; try done. apply not_elem_of_dom, is_fresh.
  - exact Hrun.
Qed.

End SubsetPartitioningProps.

Lemma X7_partition_reports_without_the_lock_witness :
  ∃ assigned info n_reads other rest,
    reporting_partitioner
      (mkHashbits 20 [11] (mkSubsetPartition (Some 0%nat) ∅)) 0 0 true false =
      assigned ++ ReportProgress info n_reads other :: rest
    ∧ forallb is_assignment assigned = true.
Proof.
  exact (X7_partition_reports_without_the_lock (λ _, true)
           reporting_partitioner one_table (mkKHashbits (Some 0%nat))
           [PyLong 0; PyLong 0; Py_None] quiet
           (mkHashbits 20 [11] (mkSubsetPartition (Some 0%nat) ∅))
           0 0 (Some Py_None) None None eq_refl eq_refl).
Defined.

(** When the engine does not report, the call returns a handle; when it
    does, nothing is defined, with or without an observer. *)
Example partition_without_and_with_report :
  hashbits_do_subset_partition (λ _, true) silent_partitioner one_table
    (mkKHashbits (Some 0%nat)) [] quiet =
    Some (Returned (PyReturn (PyCapsule (Some 1%nat) "khmer.SubsetPartition"
                                        free_subset_partition_info)),
          mkNative
            (<[1%nat := N_SubsetPartition
                          (mkSubsetPartition (Some 0%nat) {[ 5 := 1; 6 := 1 ]})]>
               (objects one_table))
            (files one_table),
          quiet)
  ∧ hashbits_do_subset_partition (λ _, true) reporting_partitioner one_table
      (mkKHashbits (Some 0%nat)) [] quiet = None.
Proof. split; reflexivity. Qed.
(** ** Handles of detached partition engines *)

Section HandleProps.
Context `{PartitionOps}.

Lemma subset_capsule_is_usable (m : native) (me : khmer_KHashbitsObject)
    (p : addr) (sp : SubsetPartition) (hb : Hashbits) :
  objects m !! p = None →
  deref_Hashbits m (hashbits me) = Some hb →
  let cap := PyCapsule (Some p) "khmer.SubsetPartition"
                       free_subset_partition_info in
  let m' := mkNative (<[p := N_SubsetPartition sp]> (objects m)) (files m) in
  (∃ m'', hashbits_merge_subset m' me [cap] = Some (PyReturn Py_None, m''))
  ∧ hashbits_subset_count_partitions m' [cap] =
      Some (PyReturn (count_partitions sp), m')
  ∧ hashbits_assign_partition_id m' me [cap] =
      Some (PyNULL (Some (PyExc_ValueError, "invalid pre_partition_info")), m')
  ∧ capsule_dealloc m' cap = Some m.
Proof.
  intros Hfresh Hhb cap m'.
  assert (Hhb' : deref_Hashbits m' (hashbits me) = Some hb).
  { unfold deref_Hashbits in *. destruct (hashbits me) as [a|]; [|done].
    cbn. rewrite lookup_insert_ne; [done|]. intros <-.
    by rewrite Hfresh in Hhb. }
  split; [|split; [|split]].
  - unfold hashbits_merge_subset.
    subst cap. unfold PyCapsule_IsValid. cbn [PyArg_ParseTuple_O].
    rewrite bool_decide_eq_true_2 by done. cbn [negb].
    rewrite PyCapsule_GetPointer_valid. cbn [fst].
    unfold deref_SubsetPartition at 1. cbn [objects m'].
    rewrite lookup_insert_eq, Hhb'.
    unfold store_partition, deref_Hashbits in *.
    destruct (hashbits me) as [a|]; [|done].
    destruct (objects m' !! a) as [[]|]; try done; by eexists.
  - unfold hashbits_subset_count_partitions. cbn [PyArg_ParseTuple_O].
    subst cap. rewrite PyCapsule_GetPointer_valid. cbn [fst].
    unfold deref_SubsetPartition. cbn [objects m'].
    by rewrite lookup_insert_eq.
  - reflexivity.
  - unfold capsule_dealloc, free_subset_partition_info_fn. subst cap.
    rewrite PyCapsule_GetPointer_valid. cbn [fst objects m'].
    rewrite lookup_insert_eq, delete_insert_id by done. cbn.
    by destruct m.
Qed.

(** X8. A handle made by [hashbits_load_subset_partitionmap] carries the
    kind [khmer.SubsetPartition] and the matching destructor: the
    operations on partition engines accept it ([hashbits_merge_subset] does
    not report an invalid handle, [hashbits_subset_count_partitions] counts
    the engine behind it), [hashbits_assign_partition_id] refuses it with
    [ValueError], and releasing the handle frees exactly the engine the
    call had allocated, giving back the native objects of before. *)
Theorem X8_subset_handles_are_accepted_and_released (m : native)
    (me : khmer_KHashbitsObject) (hb : Hashbits)
    (load_args : list PyObject) :
  deref_Hashbits m (hashbits me) = Some hb →
  match hashbits_load_subset_partitionmap m me load_args with
  | (PyReturn cap, m') =>
      (∃ m'', hashbits_merge_subset m' me [cap] = Some (PyReturn Py_None, m''))
      ∧ (∃ n, hashbits_subset_count_partitions m' [cap] =
                Some (PyReturn n, m'))
      ∧ hashbits_assign_partition_id m' me [cap] =
          Some (PyNULL (Some (PyExc_ValueError, "invalid pre_partition_info")),
                m')
      ∧ capsule_dealloc m' cap = Some m
  | (PyNULL _, _) => True
  end.
Proof.
  intros Hhb.
  assert (Hfresh : objects m !! fresh (dom (objects m)) = None)
    by apply not_elem_of_dom, is_fresh.
  unfold hashbits_load_subset_partitionmap.
  destruct (PyArg_ParseTuple_s load_args) as [e|filename]; [done|].
  cbn. destruct (load_partitionmap _ filename (files m)) as [err|sp']; [done|].
  rewrite insert_insert_eq.
  destruct (subset_capsule_is_usable m me _ sp' hb Hfresh Hhb)
    as (? & ? & ? & ?).
  eauto 10.
Qed.

End HandleProps.

(** X9. When [hashbits_load_subset_partitionmap] fails, for bad arguments
    or because the engine cannot load the file, the engine it had allocated
    for the load is deleted again: an exception is set and native memory is
    exactly as before the call. *)
Theorem X9_failed_load_leaves_native_memory (m m' : native)
    (me : khmer_KHashbitsObject) (args : list PyObject)
    (exc : option PyErr) :
  hashbits_load_subset_partitionmap m me args = (PyNULL exc, m') →
  m' = m
  ∧ (exc = Some bad_arguments
     ∨ ∃ filename err,
         args = [PyBytes filename]
         ∧ load_partitionmap (mkSubsetPartition (hashbits me) ∅) filename
             (files m) = inl err
         ∧ exc = Some (PyExc_IOError, err)).
Proof.
  unfold hashbits_load_subset_partitionmap.
  destruct (PyArg_ParseTuple_s args) as [e|filename] eqn:Hargs.
  - intros [= <- <-]. split; [done|]. left.
    unfold PyArg_ParseTuple_s in Hargs. repeat case_match; congruence.
  - cbn.
    destruct (load_partitionmap _ filename (files m)) as [err|sp'] eqn:Hload;
      [|discriminate].
    intros [= <- <-].
    rewrite delete_insert_id by apply not_elem_of_dom, is_fresh.
    split; [by destruct m|]. right. exists filename, err.
    split; [|done].
    unfold PyArg_ParseTuple_s in Hargs. repeat case_match; congruence.
Qed.

Lemma X8_subset_handles_are_accepted_and_released_witness :
  match hashbits_load_subset_partitionmap one_table (mkKHashbits (Some 0%nat))
          [PyBytes "subset.pmap"] with
  | (PyReturn cap, m') =>
      (∃ m'', hashbits_merge_subset (H := joining_PartitionOps) m'
                (mkKHashbits (Some 0%nat)) [cap] = Some (PyReturn Py_None, m''))
      ∧ (∃ n, hashbits_subset_count_partitions (H := joining_PartitionOps)
                m' [cap] = Some (PyReturn n, m'))
      ∧ hashbits_assign_partition_id (H := joining_PartitionOps) m'
          (mkKHashbits (Some 0%nat)) [cap] =
          Some (PyNULL (Some (PyExc_ValueError, "invalid pre_partition_info")),
                m')
      ∧ capsule_dealloc m' cap = Some one_table
  | (PyNULL _, _) => True
  end.
Proof.
  exact (X8_subset_handles_are_accepted_and_released (H := joining_PartitionOps)
           one_table (mkKHashbits (Some 0%nat))
           (mkHashbits 20 [11] (mkSubsetPartition (Some 0%nat) ∅))
           [PyBytes "subset.pmap"] eq_refl).
Defined.

Lemma X9_failed_load_leaves_native_memory_witness :
  one_table = one_table
  ∧ (Some (PyExc_IOError, "cannot open the partition map file") =
       Some bad_arguments
     ∨ ∃ filename err,
         [PyBytes "missing.pmap"] = [PyBytes filename]
         ∧ load_partitionmap (mkSubsetPartition (Some 0%nat) ∅) filename
             (files one_table) = inl err
         ∧ Some (PyExc_IOError, "cannot open the partition map file") =
             Some (PyExc_IOError, err)).
Proof.
  exact (X9_failed_load_leaves_native_memory one_table one_table
           (mkKHashbits (Some 0%nat)) [PyBytes "missing.pmap"]
           (Some (PyExc_IOError, "cannot open the partition map file"))
           eq_refl).
Defined.

(** ** The consume operations compared *)

(** X10. The consume operations differ only in what they do with the two
    C++ exceptions. [hash_consume_fasta_and_tag] of the counting table
    answers like [hash_consume_fasta] whenever it returns, but has no
    handler for the engine's file exception, which leaves the wrapper as a
    C++ exception where [hash_consume_fasta] reports [IOError].
    [labelhash_consume_partitioned_fasta_and_tag_with_labels] answers like
    [hash_consume_fasta] unless the run was cancelled, and then reports
    [IOError] with its own fixed text, whatever the message of the
    cancellation was. *)
Theorem X10_consume_wrappers_differ_on_exceptions (e : engine)
    (args : list PyObject) (w : interp) :
  match hash_consume_fasta_and_tag e args w with
  | (Returned r, w') =>
      hash_consume_fasta e args w = (r, w') ∧ ¬ engine_failed e args w
  | (Escaped exc, w') =>
      ∃ what, exc = khmer_file_exception what
        ∧ engine_failed e args w
        ∧ hash_consume_fasta e args w =
            (PyNULL (Some (PyExc_IOError, what)),
             set_error (Some (PyExc_IOError, what)) w')
  end
  ∧ ((¬ cancelled e args w →
      labelhash_consume_partitioned_fasta_and_tag_with_labels e args w =
        hash_consume_fasta e args w)
     ∧ (cancelled e args w →
        (labelhash_consume_partitioned_fasta_and_tag_with_labels e args w).1 =
          PyNULL (Some (PyExc_IOError,
            "error parsing in consume_partitioned_fasta_and_tag_with_labels")))).
Proof.
  unfold hash_consume_fasta_and_tag, hash_consume_fasta,
    labelhash_consume_partitioned_fasta_and_tag_with_labels,
    engine_failed, cancelled.
  destruct (PyArg_ParseTuple_s_opt_O args) as [err|[filename callback_obj]].
  { split; [split; [done|]|split; [done|]];
      intros (? & ? & ? & ? & ? & ? & ?); discriminate. }
  destruct (consume_fasta e filename _report_fn callback_obj w)
    as [[[[message|what]|] c] w'] eqn:Hrun.
  - split; [split; [done|]|split].
    + intros (? & ? & ? & ? & ? & ? & ?); simplify_eq; congruence.
    + intros []. by eexists _, _, _, _, _.
    + done.
  - split; [|split; [done|]].
    + exists what. split; [done|]. split; [|done]. by eexists _, _, _, _, _.
    + intros (? & ? & ? & ? & ? & ? & ?); simplify_eq; congruence.
  - split; [|split; [done|]].
    + destruct (Py_BuildValue_IK c w'). split; [done|].
      intros (? & ? & ? & ? & ? & ? & ?); simplify_eq; congruence.
    + intros (? & ? & ? & ? & ? & ? & ?); simplify_eq; congruence.
Qed.

(** ** Lists built in loops *)

Section PartitionSizesProps.
Variable partition_sizes : SubsetPartition → list (Z * Z) * Z.
Variable Py_BuildValue_II : Z * Z → option PyObject.

Lemma count_sizes_spec (cm : list (Z * Z)) (min_size i : Z) :
  0 ≤ i →
  i + Z.of_nat (length (filter (λ mi, min_size ≤ mi.2) cm)) < 2 ^ 32 →
  count_sizes cm min_size i =
    i + Z.of_nat (length (filter (λ mi, min_size ≤ mi.2) cm)).
Proof.
  revert i. induction cm as [|mi cm IH]; intros i Hi Hlt; cbn [count_sizes].
  - cbn. lia.
  - destruct (Z.leb_spec min_size mi.2) as [Hle|Hgt].
    + rewrite filter_cons_True in Hlt |- * by done. cbn [length] in *.
      rewrite Z.mod_small by lia. rewrite IH by lia. lia.
    + rewrite filter_cons_False in Hlt |- * by lia. by apply IH.
Qed.

Lemma fill_sizes_spec (cm : list (Z * Z)) (min_size : Z)
    (filled : list (option PyObject)) :
  Z.of_nat (length filled)
    + Z.of_nat (length (filter (λ mi, min_size ≤ mi.2) cm)) < 2 ^ 32 →
  fill_sizes Py_BuildValue_II cm min_size (Z.of_nat (length filled))
    (filled ++ replicate (length (filter (λ mi, min_size ≤ mi.2) cm)) None) =
  Some (filled ++ map Py_BuildValue_II (filter (λ mi, min_size ≤ mi.2) cm)).
Proof.
  revert filled. induction cm as [|mi cm IH]; intros filled Hlt;
    cbn [fill_sizes].
  - done.
  - destruct (Z.leb_spec min_size mi.2) as [Hle|Hgt].
    + rewrite filter_cons_True in Hlt |- * by done.
      cbn [length replicate map] in *.
      assert (Hnext : (Z.of_nat (length filled) + 1) mod 2 ^ 32 =
                      Z.of_nat (length (filled ++ [Py_BuildValue_II mi]))).
      { rewrite length_app. cbn [length]. rewrite Z.mod_small by lia. lia. }
      assert (Hcons : ∀ rest : list (option PyObject),
                filled ++ Py_BuildValue_II mi :: rest =
                (filled ++ [Py_BuildValue_II mi]) ++ rest)
        by (intros; by rewrite <- app_assoc).
      rewrite Hnext.
      destruct (Py_BuildValue_II mi) as [tup|] eqn:Htup.
      * destruct (Z.ltb_spec (Z.of_nat (length filled))
                    (Z.of_nat (length (filled ++ None ::
                       replicate (length (filter (λ mi, min_size ≤ mi.2) cm))
                         None)))) as [_|Hge];
          [|rewrite length_app in Hge; cbn [length] in Hge; lia].
        rewrite Nat2Z.id.
        replace (<[length filled := Some tup]>
                   (filled ++ None :: replicate _ None))
          with ((filled ++ [Some tup]) ++
                replicate (length (filter (λ mi, min_size ≤ mi.2) cm)) None).
        2:{ rewrite <- app_assoc. cbn [app].
            rewrite insert_app_r_alt by lia.
            by rewrite Nat.sub_diag. }
        rewrite IH; [by rewrite <- app_assoc|].
        rewrite length_app. cbn [length]. lia.
      * rewrite (Hcons (replicate _ None)), IH; [by rewrite <- app_assoc|].
        rewrite length_app. cbn [length]. lia.
    + rewrite filter_cons_False in Hlt |- * by lia. by apply IH.
Qed.

(** X11. [subset_partition_sizes] counts in one loop and stores in a
    second one. For a size map of fewer than 2^32 partitions every store
    lands inside the list: the answer is defined, and its list holds, in
    the order of the map, one item for each partition of at least
    [min_size], which is [NULL] exactly where the tuple could not be
    built; no slot is left over. *)
Theorem X11_partition_sizes_are_the_filtered_map (m : native)
    (me : khmer_KSubsetPartitionObject) (args : list PyObject)
    (subset_p : SubsetPartition) (min_size : Z) :
  PyArg_ParseTuple_opt_I args 0 = inr min_size →
  deref_SubsetPartition m (subset me) = Some subset_p →
  Z.of_nat (length (partition_sizes subset_p).1) < 2 ^ 32 →
  subset_partition_sizes partition_sizes Py_BuildValue_II m me args true =
    Some (PyReturn
            (map Py_BuildValue_II
                 (filter (λ mi, min_size ≤ mi.2) (partition_sizes subset_p).1),
             (partition_sizes subset_p).2)).
Proof.
  intros Hargs Hsp Hlen. unfold subset_partition_sizes.
  rewrite Hargs, Hsp. destruct (partition_sizes subset_p) as [cm n_unassigned].
  cbn [fst snd negb] in *.
  pose proof (length_filter (λ mi : Z * Z, min_size ≤ mi.2) cm) as Hfilter.
  rewrite count_sizes_spec by lia. rewrite Z.add_0_l, Nat2Z.id.
  pose proof (fill_sizes_spec cm min_size []) as Hfill.
  cbn [length app] in Hfill. change (Z.of_nat 0) with 0 in Hfill.
  rewrite Hfill by lia. done.
Qed.

End PartitionSizesProps.

Lemma X11_partition_sizes_are_the_filtered_map_witness :
  subset_partition_sizes
    (λ sp, (map_to_list (partition_map sp), 0))
    (λ mi, Some (PyList [PyLong mi.1; PyLong mi.2]))
    one_subset (mkKSubsetPartition (Some 0%nat)) [PyInt 4] true =
  Some (PyReturn
          (map (λ mi : Z * Z, Some (PyList [PyLong mi.1; PyLong mi.2]))
               (filter (λ mi : Z * Z, 4 ≤ mi.2)
                  (map_to_list
                     (partition_map
                        (mkSubsetPartition None {[ 7 := 3; 9 := 3; 12 := 5 ]})))),
           0)).
Proof.
  apply (X11_partition_sizes_are_the_filtered_map
           (λ sp, (map_to_list (partition_map sp), 0))
           (λ mi, Some (PyList [PyLong mi.1; PyLong mi.2]))
           one_subset (mkKSubsetPartition (Some 0%nat)) [PyInt 4]
           (mkSubsetPartition None {[ 7 := 3; 9 := 3; 12 := 5 ]}) 4);
    [reflexivity | reflexivity | vm_compute; reflexivity].
Defined.

Section TagsAndPositionsProps.
Variable KMerIterator : string → Z → list Z.

Lemma scan_tags_spec (all_tags : gset Z) (kmers : list Z) (pos : Z)
    (posns tags : list Z) :
  0 ≤ pos →
  pos + Z.of_nat (length kmers) < 2 ^ 32 →
  let found := filter (λ pt : Z * Z, pt.2 ∈ all_tags)
                 (imap (λ j kmer, (pos + Z.of_nat j, kmer)) kmers) in
  scan_tags kmers all_tags pos posns tags =
    (posns ++ found.*1, tags ++ found.*2).
Proof.
  revert pos posns tags.
  induction kmers as [|kmer kmers IH]; intros pos posns tags Hpos Hlt;
    cbn [scan_tags imap].
  - cbn. by rewrite !app_nil_r.
  - cbn [length] in Hlt.
    assert (Hshift : imap ((λ (j : nat) (kmer : Z), (pos + Z.of_nat j, kmer)) ∘ S)
                       kmers =
                     imap (λ j kmer, ((pos + 1) mod 2 ^ 32 + Z.of_nat j, kmer))
                       kmers).
    { apply imap_ext. intros j x _. cbn. rewrite Z.mod_small by lia.
      f_equal. lia. }
    rewrite Hshift. rewrite Z.add_0_r.
    case_bool_decide as Htag.
    + rewrite filter_cons_True by done.
      rewrite IH by (rewrite Z.mod_small; lia).
      cbn. by rewrite <- !app_assoc.
    + rewrite filter_cons_False by done.
      apply IH; rewrite Z.mod_small; lia.
Qed.

Lemma build_pairs_spec (posns tags : list Z) (n i : nat) :
  length posns = length tags →
  (i + n)%nat = length posns →
  build_pairs n i posns tags = Some (zip (drop i posns) (drop i tags)).
Proof.
  intros Hlen. revert i. induction n as [|n IH]; intros i Hi; cbn [build_pairs].
  - rewrite !drop_ge by lia. done.
  - destruct (lookup_lt_is_Some_2 posns i) as [p Hp]; [lia|].
    destruct (lookup_lt_is_Some_2 tags i) as [t Ht]; [lia|].
    rewrite Hp, Ht, IH by lia.
    by rewrite (drop_S posns p i Hp), (drop_S tags t i Ht).
Qed.

(** X12. [hash_get_tags_and_positions] walks the k-mers of a sequence
    with a position counter and two vectors. For a sequence of fewer than
    2^32 - 1 k-mers the answer is defined (the two vectors have the same
    length, so no read falls outside them) and is, in order, the pair of
    the 1-based position and the hash of every k-mer whose hash is a tag of
    the table; nothing else is in it. *)
Theorem X12_tags_and_positions (k : Z) (all_tags : gset Z) (seq : string) :
  Z.of_nat (length (KMerIterator seq k)) < 2 ^ 32 - 1 →
  hash_get_tags_and_positions KMerIterator k all_tags [PyBytes seq] =
    Some (PyReturn
            (filter (λ pt : Z * Z, pt.2 ∈ all_tags)
               (imap (λ j kmer, (1 + Z.of_nat j, kmer)) (KMerIterator seq k)))).
Proof.
  intros Hlen. unfold hash_get_tags_and_positions. cbn [PyArg_ParseTuple_s].
  rewrite scan_tags_spec by lia. cbn [app].
  rewrite build_pairs_spec; [|by rewrite !length_fmap..].
  rewrite !drop_0. by rewrite zip_fst_snd.
Qed.

End TagsAndPositionsProps.

Lemma X12_tags_and_positions_witness :
  hash_get_tags_and_positions
    (λ seq _, [Z.of_nat (String.length seq); 7; 9; 7]) 3 {[ 7 ]}
    [PyBytes "ACGTAC"] =
  Some (PyReturn
          (filter (λ pt : Z * Z, pt.2 ∈ ({[ 7 ]} : gset Z))
             (imap (λ j kmer, (1 + Z.of_nat j, kmer))
                   [Z.of_nat (String.length "ACGTAC"); 7; 9; 7]))).
Proof.
  apply (X12_tags_and_positions
           (λ seq _, [Z.of_nat (String.length seq); 7; 9; 7]) 3 {[ 7 ]}
           "ACGTAC").
  vm_compute. reflexivity.
Defined.

(** ** Queries on sequences *)

Section TableQueriesProps.
Variable ksize_of_table : Z.
Variable get_count_at : Z → Z.
Variable get_count_of : string → Z.

(** X13. [hash_get] and [hashbits_get] compared, for tables with the same
    engine behaviour. Both use an integer as a table position modulo 2^32,
    and they agree on integers and on strings whose C length is the k-mer
    size. They differ in three places: a string longer than the k-mer size
    is refused by [hash_get] and passed to the engine by [hashbits_get]; a
    shorter one is refused by both, with different messages; and an
    argument that is neither an [int] nor a string makes [hash_get] answer
    0 without asking the engine, and [hashbits_get] fail with
    [ValueError]. *)
Theorem X13_get_wrappers_compared (args : list PyObject) :
  (∀ pos n : Z,
     hash_get ksize_of_table get_count_at get_count_of [PyInt (pos + n * 2 ^ 32)] = hash_get ksize_of_table get_count_at get_count_of [PyInt pos]
     ∧ hashbits_get ksize_of_table get_count_at get_count_of [PyInt (pos + n * 2 ^ 32)] = hashbits_get ksize_of_table get_count_at get_count_of [PyInt pos])
  ∧ (hash_get ksize_of_table get_count_at get_count_of args = hashbits_get ksize_of_table get_count_at get_count_of args
     ∨ (∃ s, args = [PyBytes s] ∧ ksize_of_table < strlen s
          ∧ hash_get ksize_of_table get_count_at get_count_of args = PyNULL (Some (PyExc_ValueError,
              "k-mer size must equal the counting table k-mer size"))
          ∧ hashbits_get ksize_of_table get_count_at get_count_of args = PyReturn (get_count_of (c_str s)))
     ∨ (∃ s, args = [PyBytes s] ∧ strlen s < ksize_of_table
          ∧ hash_get ksize_of_table get_count_at get_count_of args = PyNULL (Some (PyExc_ValueError,
              "k-mer size must equal the counting table k-mer size"))
          ∧ hashbits_get ksize_of_table get_count_at get_count_of args = PyNULL (Some (PyExc_ValueError,
              "string length must equal the presence table k-mer size")))
     ∨ (∃ o, args = [o] ∧ (∀ pos, o ≠ PyInt pos) ∧ (∀ s, o ≠ PyBytes s)
          ∧ hash_get ksize_of_table get_count_at get_count_of args = PyReturn 0
          ∧ hashbits_get ksize_of_table get_count_at get_count_of args =
              PyNULL (Some (PyExc_ValueError, "must pass in an int or string")))).
Proof.
  split.
  - intros pos n. unfold hash_get, hashbits_get.
    cbn [PyArg_ParseTuple_O]. by rewrite Z_mod_plus_full.
  - destruct args as [|o [|]]; [by left| |by left].
    unfold hash_get, hashbits_get.
    cbn [PyArg_ParseTuple_O].
    destruct o; try (right; right; right; eexists; by repeat split).
    + by left.
    + destruct (Z.eqb_spec (strlen s) ksize_of_table) as [Heq|Hne];
        destruct (Z.ltb_spec (strlen s) ksize_of_table) as [Hlt|Hge];
        cbn [negb]; try lia.
      * by left.
      * right; right; left. by exists s.
      * right; left. exists s. repeat split; [lia|done..].
Qed.

End TableQueriesProps.

Section TrimmingProps.
Variable trim_on_abundance : string → Z → Z.
Variable trim_below_abundance : string → Z → Z.
Variable negative_size : PyErr.

Lemma mod_2_32_mod_2_16 (v : Z) : (v mod 2 ^ 32) mod 2 ^ 16 = v mod 2 ^ 16.
Proof.
  apply Z.mod_mod_divide. exists (2 ^ 16). lia.
Qed.

Lemma substring_0_length (n : nat) (s : string) :
  (n ≤ String.length s)%nat → String.length (String.substring 0 n s) = n.
Proof.
  revert s. induction n as [|n IH]; intros [|c s]; cbn; try lia.
  intros Hle. rewrite IH; lia.
Qed.

Lemma string_length_app (s t : string) :
  String.length (s ++ t) = (String.length s + String.length t)%nat.
Proof.
  induction s as [|c s IH]; [done|].
  change (S (String.length (s ++ t)) =
          S (String.length s + String.length t)%nat).
  by rewrite IH.
Qed.

(** X14. The abundance thresholds of [count_trim_on_abundance] and
    [count_trim_below_abundance] reach the engine modulo 2^16, without a
    range check: two thresholds that differ by a multiple of 65536 give
    the same answer, for every sequence. When a trimmed sequence is
    returned, its length is the reported trim position. *)
Theorem X14_trim_thresholds_wrap (seq : PyObject) (v v' : Z) :
  v mod 2 ^ 16 = v' mod 2 ^ 16 →
  count_trim_on_abundance trim_on_abundance negative_size [seq; PyInt v] =
    count_trim_on_abundance trim_on_abundance negative_size [seq; PyInt v']
  ∧ count_trim_below_abundance trim_below_abundance negative_size
      [seq; PyInt v] =
    count_trim_below_abundance trim_below_abundance negative_size
      [seq; PyInt v']
  ∧ ∀ trim_seq trim_at,
      count_trim_on_abundance trim_on_abundance negative_size [seq; PyInt v] =
        Some (PyReturn (trim_seq, trim_at)) →
      Z.of_nat (String.length trim_seq) = trim_at.
Proof.
  intros Hmod. unfold count_trim_on_abundance, count_trim_below_abundance.
  destruct seq; try by (split; [|split]).
  cbn [PyArg_ParseTuple_sI PyArg_ParseTuple_sH convert_I convert_H].
  rewrite !mod_2_32_mod_2_16, Hmod. split; [done|]. split; [done|].
  intros trim_seq trim_at.
  set (n := trim_on_abundance s (v' mod 2 ^ 16) mod 2 ^ 64).
  assert (0 ≤ n < 2 ^ 64) by (apply Z.mod_pos_bound; lia).
  unfold PyBytes_FromStringAndSize.
  destruct (Z.ltb_spec n (2 ^ 63)); [|by destruct (Z.ltb_spec (n - 2 ^ 64) 0); [|lia]].
  destruct (Z.ltb_spec n 0); [lia|].
  destruct (Z.leb_spec n (Z.of_nat (String.length s) + 1)); [|done].
  intros [= <- <-].
  rewrite substring_0_length; [lia|].
  rewrite string_length_app. cbn. lia.
Qed.

End TrimmingProps.

Lemma X14_trim_thresholds_wrap_witness :
  count_trim_on_abundance (λ seq min_count, min_count) (PyExc_Exception, "negative size")
    [PyBytes "ACGT"; PyInt 65538] =
  count_trim_on_abundance (λ seq min_count, min_count) (PyExc_Exception, "negative size")
    [PyBytes "ACGT"; PyInt 2]
  ∧ count_trim_below_abundance (λ seq max_count, max_count)
      (PyExc_Exception, "negative size") [PyBytes "ACGT"; PyInt 65538] =
    count_trim_below_abundance (λ seq max_count, max_count)
      (PyExc_Exception, "negative size") [PyBytes "ACGT"; PyInt 2]
  ∧ ∀ trim_seq trim_at,
      count_trim_on_abundance (λ seq min_count, min_count)
        (PyExc_Exception, "negative size") [PyBytes "ACGT"; PyInt 65538] =
        Some (PyReturn (trim_seq, trim_at)) →
      Z.of_nat (String.length trim_seq) = trim_at.
Proof.
  apply (X14_trim_thresholds_wrap (λ seq min_count, min_count)
           (λ seq max_count, max_count) (PyExc_Exception, "negative size")
           (PyBytes "ACGT") 65538 2).
  reflexivity.
Defined.

Section SweepsProps.
Variable PyObject_IsTrue : PyObject → bool.
Variable ksize_of_table : Z.
Variable _get_tag_density : Z.
Variable sweep_for_tags : string → Z → bool → bool → list Z.

(** X15. The search range of [labelhash_sweep_tag_neighborhood]. A call
    that gives no range searches with range 0, like a call that gives 0:
    the range computed from the tag density, 2 * density + 1, is used only
    when a negative range is given, and then every negative value stands
    for the same range. *)
Theorem X15_sweep_range_default (seq : string) (rest : list PyObject)
    (alloc_ok : bool) :
  labelhash_sweep_tag_neighborhood PyObject_IsTrue ksize_of_table
    _get_tag_density sweep_for_tags [PyBytes seq] alloc_ok =
  labelhash_sweep_tag_neighborhood PyObject_IsTrue ksize_of_table
    _get_tag_density sweep_for_tags [PyBytes seq; PyInt 0] alloc_ok
  ∧ (ksize_of_table ≤ strlen seq →
     labelhash_sweep_tag_neighborhood PyObject_IsTrue ksize_of_table
       _get_tag_density sweep_for_tags [PyBytes seq] true =
     PyReturn (sweep_for_tags seq 0 false false)
     ∧ ∀ r, INT_MIN ≤ r < 0 →
         labelhash_sweep_tag_neighborhood PyObject_IsTrue ksize_of_table
           _get_tag_density sweep_for_tags [PyBytes seq; PyInt r] true =
         PyReturn (sweep_for_tags seq ((2 * _get_tag_density + 1) mod 2 ^ 32)
                     false false))
  ∧ ∀ r r', INT_MIN ≤ r < 0 → INT_MIN ≤ r' < 0 →
      labelhash_sweep_tag_neighborhood PyObject_IsTrue ksize_of_table
        _get_tag_density sweep_for_tags (PyBytes seq :: PyInt r :: rest)
        alloc_ok =
      labelhash_sweep_tag_neighborhood PyObject_IsTrue ksize_of_table
        _get_tag_density sweep_for_tags (PyBytes seq :: PyInt r' :: rest)
        alloc_ok.
Proof.
  assert (Hconv : ∀ r, INT_MIN ≤ r < 0 → convert_i (PyInt r) = inr r).
  { intros r Hr. unfold convert_i. rewrite bool_decide_eq_true_2; [done|].
    unfold INT_MIN, INT_MAX in *. lia. }
  split; [reflexivity|]. split.
  - intros Hlen. unfold labelhash_sweep_tag_neighborhood.
    cbn [PyArg_ParseTuple_s_opt_iOO].
    assert (Hk : (strlen seq <? ksize_of_table) = false)
      by (apply Z.ltb_ge; lia).
    split; [by rewrite Hk|]. intros r Hr. rewrite (Hconv r Hr), Hk.
    destruct (Z.leb_spec 0 r); [lia|]. reflexivity.
  - intros r r' Hr Hr'. unfold labelhash_sweep_tag_neighborhood.
    cbn [PyArg_ParseTuple_s_opt_iOO]. rewrite (Hconv r Hr), (Hconv r' Hr').
    destruct rest as [|o1 [|o2 [|]]]; try reflexivity;
      (destruct (Z.leb_spec 0 r); [lia|]);
      (destruct (Z.leb_spec 0 r'); [lia|]); reflexivity.
Qed.

End SweepsProps.

Section CountByPositionProps.
Variable fasta_count_kmers_by_position
  : string → Z → Z → list engine_step * list Z.

(** X16. In [hash_fasta_count_kmers_by_position] the two range checks
    make the narrowing casts exact: whenever the engine is reached, it is
    reached with the very values that were passed, never with truncated
    ones. A list that is returned has as many items as the maximal read
    length passed. And the wrapper has no handler at all: a cancellation
    or a file exception leaves it as a C++ exception. *)
Theorem X16_count_by_position (args : list PyObject) (alloc_ok : bool)
    (w : interp) (inputfile : string) (max_read_len_long limit_by_count_int : Z)
    (callback_obj : option PyObject) :
  PyArg_ParseTuple_sli_opt_O args =
    inr (inputfile, max_read_len_long, limit_by_count_int, callback_obj) →
  let run :=
    engine_run
      (fasta_count_kmers_by_position inputfile max_read_len_long
         limit_by_count_int).1
      _report_fn callback_obj (mkCounts 0 0) w in
  match hash_fasta_count_kmers_by_position fasta_count_kmers_by_position
          args alloc_ok w with
  | Some (Returned (PyReturn x), w') =>
      0 ≤ max_read_len_long < 2 ^ 32 ∧ 0 ≤ limit_by_count_int < 2 ^ 16
      ∧ run.1.1 = None ∧ w' = run.2
      ∧ Z.of_nat (length x) = max_read_len_long
      ∧ ∀ i c, x !! i = Some c →
          (fasta_count_kmers_by_position inputfile max_read_len_long
             limit_by_count_int).2 !! i = Some c
  | Some (Returned (PyNULL exc), w') =>
      is_Some exc ∧ error_indicator w' = exc
  | Some (Escaped exc, w') =>
      0 ≤ max_read_len_long < 2 ^ 32 ∧ 0 ≤ limit_by_count_int < 2 ^ 16
      ∧ run.1.1 = Some exc ∧ w' = run.2
  | None =>
      0 ≤ max_read_len_long < 2 ^ 32 ∧ 0 ≤ limit_by_count_int < 2 ^ 16
      ∧ Z.of_nat
          (length (fasta_count_kmers_by_position inputfile max_read_len_long
                     limit_by_count_int).2) < max_read_len_long
  end.
Proof.
  intros Hargs run. subst run. unfold hash_fasta_count_kmers_by_position.
  rewrite Hargs.
  destruct (Z.ltb_spec max_read_len_long 0);
    [cbn; by split; [eexists|]|].
  destruct (Z.leb_spec (2 ^ 32) max_read_len_long);
    [cbn; by split; [eexists|]|].
  cbn [orb].
  destruct (Z.ltb_spec limit_by_count_int 0);
    [cbn; by split; [eexists|]|].
  destruct (Z.leb_spec (2 ^ 16) limit_by_count_int);
    [cbn; by split; [eexists|]|].
  cbn [orb]. rewrite !Z.mod_small by lia.
  destruct (fasta_count_kmers_by_position inputfile max_read_len_long
              limit_by_count_int) as [script counts].
  cbn [fst snd].
  destruct (engine_run script _report_fn callback_obj (mkCounts 0 0) w)
    as [[[exc|] c] w'] eqn:Hrun; cbn [fst snd].
  { repeat split; lia. }
  destruct alloc_ok; cbn [negb]; [|by split; [eexists|]].
  destruct (mapM _ _) as [x|] eqn:Hx.
  - apply mapM_Some in Hx.
    pose proof (Forall2_length _ _ _ Hx) as Hlen.
    rewrite length_seq in Hlen.
    repeat split; try lia.
    intros i c0 Hi.
    destruct (Forall2_lookup_r _ _ _ _ _ Hx Hi) as (j & Hj & Hc).
    apply lookup_seq in Hj as [-> _]. exact Hc.
  - repeat split; try lia.
    apply mapM_None in Hx. apply Exists_exists in Hx as (i & Hi & Hnone).
    apply elem_of_seq in Hi. apply lookup_ge_None in Hnone. lia.
Qed.

End CountByPositionProps.

Lemma X16_count_by_position_witness :
  match hash_fasta_count_kmers_by_position
          (λ _ max_read_len _,
             ([ProcessRecord 4; InvokeCallback "fasta_count_kmers_by_position"],
              replicate (Z.to_nat max_read_len) 1))
          [PyBytes "reads.fa"; PyInt 3; PyInt 255] true quiet with
  | Some (Returned (PyReturn x), w') =>
      0 ≤ 3 < 2 ^ 32 ∧ 0 ≤ 255 < 2 ^ 16
      ∧ (engine_run
           [ProcessRecord 4; InvokeCallback "fasta_count_kmers_by_position"]
           _report_fn None (mkCounts 0 0) quiet).1.1 = None
      ∧ w' = (engine_run
                [ProcessRecord 4;
                 InvokeCallback "fasta_count_kmers_by_position"]
                _report_fn None (mkCounts 0 0) quiet).2
      ∧ Z.of_nat (length x) = 3
      ∧ ∀ i c, x !! i = Some c → replicate (Z.to_nat 3) 1 !! i = Some c
  | Some (Returned (PyNULL exc), w') =>
      is_Some exc ∧ error_indicator w' = exc
  | Some (Escaped exc, w') =>
      0 ≤ 3 < 2 ^ 32 ∧ 0 ≤ 255 < 2 ^ 16
      ∧ (engine_run
           [ProcessRecord 4; InvokeCallback "fasta_count_kmers_by_position"]
           _report_fn None (mkCounts 0 0) quiet).1.1 = Some exc
      ∧ w' = (engine_run
                [ProcessRecord 4;
                 InvokeCallback "fasta_count_kmers_by_position"]
                _report_fn None (mkCounts 0 0) quiet).2
  | None =>
      0 ≤ 3 < 2 ^ 32 ∧ 0 ≤ 255 < 2 ^ 16
      ∧ Z.of_nat (length (replicate (Z.to_nat 3) 1)) < 3
  end.
Proof.
  exact (X16_count_by_position
           (λ _ max_read_len _,
              ([ProcessRecord 4; InvokeCallback "fasta_count_kmers_by_position"],
               replicate (Z.to_nat max_read_len) 1))
           [PyBytes "reads.fa"; PyInt 3; PyInt 255] true quiet
           "reads.fa" 3 255 None eq_refl).
Defined.

Section SizeDistributionProps.
Variable partition_size_distribution : SubsetPartition → list (Z * Z) * Z.
Variable Py_BuildValue_KK : Z * Z → option PyObject.

Lemma fill_distribution_spec (d : list (Z * Z))
    (filled : list (option PyObject)) :
  Z.of_nat (length filled) + Z.of_nat (length d) < 2 ^ 32 →
  fill_distribution Py_BuildValue_KK d (Z.of_nat (length filled))
    (filled ++ replicate (length d) None) =
  Some (if forallb (λ di, bool_decide (is_Some (Py_BuildValue_KK di))) d
        then Some (Z.of_nat (length filled) + Z.of_nat (length d),
                   filled ++ map Py_BuildValue_KK d)
        else None).
Proof.
  revert filled. induction d as [|di d IH]; intros filled Hlt;
    cbn [fill_distribution forallb length replicate map] in *.
  - by rewrite Z.add_0_r.
  - destruct (Py_BuildValue_KK di) as [value|] eqn:Hvalue; [|done].
    rewrite bool_decide_eq_true_2 by done. cbn [andb].
    destruct (Z.ltb_spec (Z.of_nat (length filled))
                (Z.of_nat (length (filled ++ None :: replicate (length d) None))))
      as [_|Hge]; [|rewrite length_app in Hge; cbn [length] in Hge; lia].
    rewrite Nat2Z.id.
    replace (<[length filled := Some value]>
               (filled ++ None :: replicate (length d) None))
      with ((filled ++ [Some value]) ++ replicate (length d) None).
    2:{ rewrite <- app_assoc. cbn [app].
        rewrite insert_app_r_alt by lia. by rewrite Nat.sub_diag. }
    replace ((Z.of_nat (length filled) + 1) mod 2 ^ 32)
      with (Z.of_nat (length (filled ++ [Some value]))).
    2:{ rewrite length_app. cbn [length]. rewrite Z.mod_small by lia. lia. }
    rewrite IH by (rewrite length_app; cbn [length]; lia).
    rewrite length_app. cbn [length].
    destruct (forallb _ d); [|done].
    rewrite <- app_assoc. cbn [app]. do 3 f_equal. lia.
Qed.

(** X17. The [throw khmer_exception()] of
    [hashbits_subset_partition_size_distribution] is dead code for a
    distribution of fewer than 2^32 entries: given a live partitioning
    engine the wrapper never throws and no store falls outside the list.
    It returns one item for each entry of the distribution, in order, or
    [NULL] with an exception when an item could not be built. *)
Theorem X17_size_distribution_never_throws (m : native) (p : addr)
    (name : string) (destructor : capsule_destructor)
    (subset_p : SubsetPartition) :
  name = "khmer.SubsetPartition" →
  objects m !! p = Some (N_SubsetPartition subset_p) →
  Z.of_nat (length (partition_size_distribution subset_p).1) < 2 ^ 32 →
  hashbits_subset_partition_size_distribution partition_size_distribution
    Py_BuildValue_KK m [PyCapsule (Some p) name destructor] true =
  Some (if forallb (λ di, bool_decide (is_Some (Py_BuildValue_KK di)))
             (partition_size_distribution subset_p).1
        then DistributionReturned
               (map Py_BuildValue_KK (partition_size_distribution subset_p).1)
               (partition_size_distribution subset_p).2
        else DistributionNULL (Some (PyExc_MemoryError, "out of memory"))).
Proof.
  intros -> Hp Hlen. unfold hashbits_subset_partition_size_distribution.
  cbn [PyArg_ParseTuple_O]. rewrite PyCapsule_GetPointer_valid.
  cbn [fst deref_SubsetPartition]. rewrite Hp.
  destruct (partition_size_distribution subset_p) as [d n_unassigned].
  cbn [fst snd negb] in *.
  pose proof (fill_distribution_spec d []) as Hfill.
  cbn [length app] in Hfill. change (Z.of_nat 0) with 0 in Hfill.
  rewrite Hfill by lia.
  destruct (forallb _ d); [|done].
  rewrite Z.add_0_l, Z.eqb_refl. done.
Qed.

End SizeDistributionProps.

Lemma X17_size_distribution_never_throws_witness :
  hashbits_subset_partition_size_distribution
    (λ sp, (map_to_list (partition_map sp), 0))
    (λ di, Some (PyList [PyLong di.1; PyLong di.2]))
    one_subset
    [PyCapsule (Some 0%nat) "khmer.SubsetPartition" free_subset_partition_info]
    true =
  Some (if forallb
             (λ di : Z * Z,
                bool_decide (is_Some (Some (PyList [PyLong di.1; PyLong di.2]))))
             (map_to_list
                (partition_map
                   (mkSubsetPartition None {[ 7 := 3; 9 := 3; 12 := 5 ]})))
        then DistributionReturned
               (map (λ di : Z * Z, Some (PyList [PyLong di.1; PyLong di.2]))
                  (map_to_list
                     (partition_map
                        (mkSubsetPartition None {[ 7 := 3; 9 := 3; 12 := 5 ]}))))
               0
        else DistributionNULL (Some (PyExc_MemoryError, "out of memory"))).
Proof.
  apply (X17_size_distribution_never_throws
           (λ sp, (map_to_list (partition_map sp), 0))
           (λ di, Some (PyList [PyLong di.1; PyLong di.2]))
           one_subset 0%nat "khmer.SubsetPartition" free_subset_partition_info
           (mkSubsetPartition None {[ 7 := 3; 9 := 3; 12 := 5 ]}));
    [reflexivity | reflexivity | vm_compute; reflexivity].
Defined.

(** ** Handles of tag searches *)

Section FindAllTagsProps.
Context `{PartitionOps}.
Variable _hash : string → Z → Z * Z * Z.
Variable find_all_tags : SubsetPartition → Z → Z → gset Z → list Z.

(** X18. A search with [hashbits_find_all_tags] for a k-mer of the table's
    size (a C string, with no NUL inside) returns a handle of kind
    [khmer.pre_partition_info] with the matching destructor, and puts the
    k-mer into the tag set of the table, where it stays.
    [hashbits_assign_partition_id] accepts the handle, assigns with exactly
    the k-mer hash and the tags the search stored, and leaves the stored
    search in native memory; [hashbits_merge_subset] refuses the handle
    with [ValueError]; and releasing the handle frees exactly what the
    search had allocated: the native objects are those of before. A search
    for a string of another length fails with [ValueError] and changes
    nothing. *)
Theorem X18_tag_search_handles (m : native) (tags : gmap addr (gset Z))
    (me : khmer_KHashbitsObject) (table : addr) (hb : Hashbits)
    (kmer_s : string) :
  hashbits me = Some table →
  deref_Hashbits m (hashbits me) = Some hb →
  c_str kmer_s = kmer_s →
  let kmer := (_hash kmer_s (ksize hb)).1.1 in
  let tagged_kmers :=
    find_all_tags (partition hb) (_hash kmer_s (ksize hb)).1.2
      (_hash kmer_s (ksize hb)).2 (default ∅ (tags !! table)) in
  if strlen kmer_s =? ksize hb
  then
    ∃ cap m' m'',
      hashbits_find_all_tags _hash find_all_tags m tags me [PyBytes kmer_s] =
        Some (PyReturn cap, m',
              <[table := {[ kmer ]} ∪ default ∅ (tags !! table)]> tags)
      ∧ hashbits_assign_partition_id m' me [cap] =
          Some (PyReturn
                  (PyLong (assign_partition_id (partition hb) kmer
                             tagged_kmers).1),
                m'')
      ∧ capsule_dealloc m'' cap =
          store_partition m (hashbits me)
            (assign_partition_id (partition hb) kmer tagged_kmers).2
      ∧ hashbits_merge_subset m' me [cap] =
          Some (PyNULL (Some (PyExc_ValueError, "invalid subset")), m')
      ∧ capsule_dealloc m' cap = Some m
  else
    hashbits_find_all_tags _hash find_all_tags m tags me [PyBytes kmer_s] =
      Some (PyNULL (Some (PyExc_ValueError,
              "k-mer size must equal the k-mer size of the presence table")),
            m, tags).
Proof.
  intros Hme Hhb _ kmer tagged_kmers. subst kmer tagged_kmers.
  unfold hashbits_find_all_tags. cbn [PyArg_ParseTuple_s].
  rewrite Hhb, Hme.
  destruct (strlen kmer_s =? ksize hb); cbn [negb]; [|done].
  destruct (_hash kmer_s (ksize hb)) as [[kmer kmer_f] kmer_r]. cbn [fst snd].
  set (ppi := fresh (dom (objects m))).
  assert (Hfresh : objects m !! ppi = None) by apply not_elem_of_dom, is_fresh.
  set (tagged := find_all_tags (partition hb) kmer_f kmer_r _).
  set (m' := mkNative _ _).
  assert (Hne : table ≠ ppi).
  { intros ->. unfold deref_Hashbits in Hhb. rewrite Hme, Hfresh in Hhb.
    discriminate. }
  assert (Hhb' : deref_Hashbits m' (hashbits me) = Some hb).
  { unfold deref_Hashbits in *. rewrite Hme in *.
    cbn. by rewrite lookup_insert_ne. }
  set (cap := PyCapsule (Some ppi) "khmer.pre_partition_info"
                        free_pre_partition_info).
  assert (Hfree : capsule_dealloc m' cap = Some m).
  { unfold capsule_dealloc, cap, free_pre_partition_info_fn.
    rewrite PyCapsule_GetPointer_valid. cbn [fst objects m'].
    rewrite lookup_insert_eq, delete_insert_id by done. cbn.
    by destruct m. }
  assert (Hassign : ∃ m'',
            hashbits_assign_partition_id m' me [cap] =
              Some (PyReturn
                      (PyLong (assign_partition_id (partition hb) kmer
                                 tagged).1), m'')
            ∧ capsule_dealloc m'' cap =
                store_partition m (hashbits me)
                  (assign_partition_id (partition hb) kmer tagged).2).
  { unfold hashbits_assign_partition_id. cbn [PyArg_ParseTuple_O].
    unfold PyCapsule_IsValid, cap. rewrite bool_decide_eq_true_2 by done.
    cbn [negb]. rewrite PyCapsule_GetPointer_valid. cbn [fst].
    unfold deref_pre_partition_info at 1. cbn [objects m'].
    rewrite lookup_insert_eq, Hhb'.
    destruct (assign_partition_id (partition hb) kmer tagged) as [pid sp].
    cbn [fst snd].
    unfold store_partition, deref_Hashbits in *. rewrite Hme in *.
    cbn [objects m']. rewrite lookup_insert_ne by done.
    destruct (objects m !! table) as [[| |hb0|lh0]|] eqn:Ha; try done;
      (eexists; split; [reflexivity|];
       unfold capsule_dealloc, free_pre_partition_info_fn;
       rewrite PyCapsule_GetPointer_valid; cbn;
       rewrite lookup_insert_ne, lookup_insert_eq by done; cbn;
       do 2 f_equal; rewrite (insert_insert_ne _ table ppi) by done;
       rewrite delete_insert_id; [done|]; by rewrite lookup_insert_ne). }
  destruct Hassign as (m'' & Hassign & Hrelease).
  exists cap, m', m''. split; [reflexivity|]. split; [exact Hassign|].
  split; [by rewrite <- Hme|]. split; [reflexivity|exact Hfree].
Qed.

End FindAllTagsProps.

Lemma X18_tag_search_handles_witness :
  ∃ cap m' m'',
    hashbits_find_all_tags
      (λ kmer_s _, (Z.of_nat (String.length kmer_s), 3, 4))
      (λ _ kmer_f kmer_r all_tags, kmer_f :: kmer_r :: elements all_tags)
      one_table {[ 0%nat := {[ 7 ]} ]} (mkKHashbits (Some 0%nat))
      [PyBytes "ACGTACGTACGTACGTACGT"] =
      Some (PyReturn cap, m', {[ 0%nat := {[ 20; 7 ]} ]})
    ∧ hashbits_assign_partition_id (H := joining_PartitionOps) m'
        (mkKHashbits (Some 0%nat)) [cap] =
        Some (PyReturn (PyLong 1), m'')
    ∧ capsule_dealloc m'' cap =
        store_partition one_table (Some 0%nat)
          (mkSubsetPartition (Some 0%nat) {[ 20 := 1 ]})
    ∧ hashbits_merge_subset (H := joining_PartitionOps) m'
        (mkKHashbits (Some 0%nat)) [cap] =
        Some (PyNULL (Some (PyExc_ValueError, "invalid subset")), m')
    ∧ capsule_dealloc m' cap = Some one_table.
Proof.
  exact (X18_tag_search_handles (H := joining_PartitionOps)
           (λ kmer_s _, (Z.of_nat (String.length kmer_s), 3, 4))
           (λ _ kmer_f kmer_r all_tags, kmer_f :: kmer_r :: elements all_tags)
           one_table {[ 0%nat := {[ 7 ]} ]} (mkKHashbits (Some 0%nat)) 0%nat
           (mkHashbits 20 [11] (mkSubsetPartition (Some 0%nat) ∅))
           "ACGTACGTACGTACGTACGT" eq_refl eq_refl eq_refl).
Defined.
